(** * EdgeStreamableHTTPTransport: a shallow embedding and its properties

    This development embeds
    [packages/stremeable-http-transport/src/index.ts] — the
    edge-compatible MCP "Streamable HTTP" server transport — and proves
    properties of its request router, its session validator and its
    stream/response multiplexer.

    Modelling conventions.

    - A JavaScript [Map] is an association list in insertion order with
      unique keys: [set] on a present key replaces the value in place and
      [set] on an absent key appends; [delete] drops the key.
    - The transport object is the record [Transport]; everything the
      transport reaches outside itself (the streams it created, the
      response promises it handed out, the tasks it scheduled and the
      calls it made into the host) lives in the record [World].
    - A method is a computation in the monad [M]: it takes a world and
      yields either a thrown value or a result, together with the world
      it leaves behind.  Mutations made before a [throw] persist, as in
      JavaScript.
    - Host callbacks and the event store are functions of the history of
      host calls made so far, so a callback may behave differently each
      time it is called.  Callbacks do not call back into the transport
      while they run, and an [await] on the event store completes without
      another method running in between.
    - [JSON.parse], [JSON.stringify], the SDK's [JSONRPCMessageSchema] and
      [isInitializeRequest] are not part of this repository; they are the
      methods of the class [Imports], and every property holds for every
      instance of it.
    - A string is a list of characters and [length] counts them; a
      request id that is a number is an integer. *)

From Stdlib Require Import List String Ascii ZArith Bool Lia Permutation.
From Stdlib Require Import DecimalString.
Import ListNotations.

Set Warnings "-register-all".

Local Open Scope string_scope.
Local Open Scope list_scope.
Local Open Scope Z_scope.

(* ------------------------------------------------------------------ *)
(** ** JavaScript values used by the transport *)

(** A value that was thrown.  [Error m] is [new Error(m)]; [Thrown s] is
    any other thrown value [v], kept through [String(v) = s]. *)
Inductive Exn : Type :=
| Error (message : string)
| Thrown (stringified : string).

(** [String(error)] as used in the catch-all of [handlePostRequest]. *)
Definition String_of_exn (e : Exn) : string :=
  match e with
  | Error "" => "Error"
  | Error m => "Error: " ++ m
  | Thrown s => s
  end.

(** Truthiness of a string: only the empty string is falsy. *)
Definition truthy (s : string) : bool :=
  match s with
  | EmptyString => false
  | String _ _ => true
  end.

(** [hay.includes(needle)]. *)
Fixpoint includes (needle hay : string) : bool :=
  if String.prefix needle hay then true
  else match hay with
       | EmptyString => false
       | String _ rest => includes needle rest
       end.

(** A JavaScript string is a sequence of UTF-16 code units; a [string]
    here is the UTF-8 encoding of the same text, byte by byte.  The
    number of UTF-16 code units that start at a byte of the encoding:
    none at a continuation byte, two (a surrogate pair) at the lead
    byte of a four-byte sequence, and one at any other byte. *)
Definition utf16_units (c : ascii) : nat :=
  match c with
  | Ascii _ _ _ _ b4 b5 b6 b7 =>
      if negb b7 then 1
      else if negb b6 then 0
      else if b5 && b4 then 2
      else 1
  end.

Fixpoint code_units (s : string) : nat :=
  match s with
  | EmptyString => 0
  | String c rest => utf16_units c + code_units rest
  end.

(** [s.length], as an integer: the number of UTF-16 code units. *)
Definition js_length (s : string) : Z := Z.of_nat (code_units s).

(** [new TextEncoder().encode(s).length]: the number of bytes of the
    UTF-8 encoding. *)
Definition byte_length (s : string) : Z := Z.of_nat (String.length s).

(** The line feed of the SSE frame format. *)
Definition LF : string := String (ascii_of_nat 10) EmptyString.

Inductive JSON : Type :=
| JNull
| JBool (b : bool)
| JNumber (n : Z)
| JString (s : string)
| JArray (items : list JSON)
| JObject (fields : list (string * JSON)).

(** [RequestId] of the SDK: [string | number]. *)
Inductive RequestId : Type :=
| IdString (s : string)
| IdNumber (n : Z).

(** [String(requestId)]: a string is itself, an integer is printed in
    decimal. *)
Definition String_of_RequestId (r : RequestId) : string :=
  match r with
  | IdString s => s
  | IdNumber n => NilZero.string_of_int (Z.to_int n)
  end.

Definition JSON_of_RequestId (r : RequestId) : JSON :=
  match r with
  | IdString s => JString s
  | IdNumber n => JNumber n
  end.

(** [JSONRPCMessage] of the SDK: the union of its four strict schemas, so
    a message is exactly one of them. *)
Inductive JSONRPCMessage : Type :=
| JSONRPCRequest (id : RequestId) (method : string) (params : option JSON)
| JSONRPCNotification (method : string) (params : option JSON)
| JSONRPCResponse (id : RequestId) (result : JSON)
| JSONRPCError (id : RequestId) (code : Z) (message : string)
               (data : option JSON).

Definition isJSONRPCRequest (m : JSONRPCMessage) : bool :=
  match m with JSONRPCRequest _ _ _ => true | _ => false end.

Definition isJSONRPCResponse (m : JSONRPCMessage) : bool :=
  match m with JSONRPCResponse _ _ => true | _ => false end.

Definition isJSONRPCError (m : JSONRPCMessage) : bool :=
  match m with JSONRPCError _ _ _ _ => true | _ => false end.

(** [message.id]; a notification has none. *)
Definition message_id (m : JSONRPCMessage) : option RequestId :=
  match m with
  | JSONRPCRequest id _ _ => Some id
  | JSONRPCNotification _ _ => None
  | JSONRPCResponse id _ => Some id
  | JSONRPCError id _ _ _ => Some id
  end.

Definition optional_field (k : string) (v : option JSON)
  : list (string * JSON) :=
  match v with
  | Some j => [(k, j)]
  | None => []
  end.

(** The message as the JSON object that [JSON.stringify] receives. *)
Definition toJSON (m : JSONRPCMessage) : JSON :=
  match m with
  | JSONRPCRequest id method params =>
      JObject ([("jsonrpc", JString "2.0"); ("id", JSON_of_RequestId id);
                ("method", JString method)] ++ optional_field "params" params)
  | JSONRPCNotification method params =>
      JObject ([("jsonrpc", JString "2.0"); ("method", JString method)]
               ++ optional_field "params" params)
  | JSONRPCResponse id result =>
      JObject [("jsonrpc", JString "2.0"); ("id", JSON_of_RequestId id);
               ("result", result)]
  | JSONRPCError id code message data =>
      JObject [("jsonrpc", JString "2.0"); ("id", JSON_of_RequestId id);
               ("error", JObject ([("code", JNumber code);
                                   ("message", JString message)]
                                  ++ optional_field "data" data))]
  end.

(* ------------------------------------------------------------------ *)
(** ** JavaScript [Map] *)

(** Key equality of a [Map] (SameValueZero), decidable on the key types
    the transport uses. *)
Class SameValueZero (K : Type) : Type :=
  same_value_zero : forall x y : K, {x = y} + {x <> y}.

#[global] Instance SameValueZero_string : SameValueZero string :=
  string_dec.

#[global] Instance SameValueZero_RequestId : SameValueZero RequestId.
Proof.
  intros x y. unfold SameValueZero in *.
  decide equality; [apply string_dec | apply Z.eq_dec].
Defined.

Module JSMap.
Section Ops.
Context {K V : Type} `{SameValueZero K}.

Definition t : Type := list (K * V).

Definition empty : t := [].

Fixpoint get (k : K) (m : t) : option V :=
  match m with
  | [] => None
  | (k', v) :: rest =>
      if same_value_zero k k' then Some v else get k rest
  end.

Definition has (k : K) (m : t) : bool :=
  match get k m with Some _ => true | None => false end.

Fixpoint set (k : K) (v : V) (m : t) : t :=
  match m with
  | [] => [(k, v)]
  | (k', v') :: rest =>
      if same_value_zero k k' then (k, v) :: rest
      else (k', v') :: set k v rest
  end.

Fixpoint delete (k : K) (m : t) : t :=
  match m with
  | [] => []
  | (k', v') :: rest =>
      if same_value_zero k k' then delete k rest
      else (k', v') :: delete k rest
  end.

Definition clear (m : t) : t := [].

Definition entries (m : t) : list (K * V) := m.

Definition keys (m : t) : list K := map fst m.
End Ops.
Arguments t : clear implicits.
End JSMap.

(* ------------------------------------------------------------------ *)
(** ** HTTP requests and responses (Web Fetch API) *)

(** Header names are stored lower-cased, as [Headers] normalises them. *)
Definition Headers : Type := list (string * string).

Definition Headers_get (name : string) (h : Headers) : option string :=
  JSMap.get name h.

Record Request : Type := mkRequest {
  req_method : string;
  req_headers : Headers
}.

(** A stream made by [createSSEStream]; the readable and its controller
    are the two ends of the same stream, so one reference names both. *)
Definition Controller : Type := nat.

Inductive Body : Type :=
| BodyString (s : string)
| BodyReadable (readable : Controller).

(** [new Response(body, { status, headers })]; [resp_headers] is the
    [headers] init in the order its properties were written. *)
Record Response : Type := mkResponse {
  status : Z;
  resp_headers : list (string * string);
  body : Body
}.

(** A response promise made by [new Promise] in JSON response mode. *)
Definition PromiseRef : Type := nat.

(** What [handleRequest] hands back: a response, or the promise of one
    that a later [send] resolves. *)
Inductive Reply : Type :=
| Returned (r : Response)
| Promised (p : PromiseRef).

Definition StreamId : Type := string.
Definition EventId : Type := string.
Definition AuthInfo : Type := list (string * JSON).

(* ------------------------------------------------------------------ *)
(** ** The host: callbacks and event store *)

Inductive HostCall : Type :=
| Call_onmessage (message : JSONRPCMessage) (authInfo : option AuthInfo)
| Call_onclose
| Call_onerror (error : Exn)
| Call_onsessioninitialized (sessionId : string)
| Call_sessionIdGenerator
| Call_storeEvent (streamId : StreamId) (message : JSONRPCMessage)
| Call_replayEventsAfter (lastEventId : EventId).

(** The calls made into the host so far, oldest first. *)
Definition History : Type := list HostCall.

(** How a call ends. *)
Inductive Completion (A : Type) : Type :=
| Ok (a : A)
| Raise (e : Exn).
Arguments Ok {A} a.
Arguments Raise {A} e.

(** [replayEventsAfter] hands the stored events to the [send] callback it
    was given, in order, and then returns the stream id or fails. *)
Record EventStore : Type := mkEventStore {
  storeEvent : History -> StreamId -> JSONRPCMessage -> Completion EventId;
  replayEventsAfter :
    History -> EventId ->
    list (EventId * JSONRPCMessage) * Completion StreamId
}.

(* ------------------------------------------------------------------ *)
(** ** The transport object *)

Record Transport : Type := mkTransport {
  sessionIdGenerator : option (History -> Completion string);
  _started : bool;
  _streamMapping : JSMap.t string Controller;
  _requestToStreamMapping : JSMap.t RequestId string;
  _requestResponseMap : JSMap.t RequestId JSONRPCMessage;
  _initialized : bool;
  _enableJsonResponse : bool;
  _eventStore : option EventStore;
  _onsessioninitialized : option (string -> History -> Completion unit);
  _pendingResponses : JSMap.t string PromiseRef;
  sessionId : option string;
  onclose : option (History -> Completion unit);
  onerror : option (Exn -> History -> Completion unit);
  onmessage :
    option (JSONRPCMessage -> option AuthInfo -> History -> Completion unit)
}.

Definition _standaloneSseStreamId : string := "_GET_stream".

Definition MAXIMUM_MESSAGE_SIZE : Z := 4 * 1024 * 1024.

Record EdgeStreamableHTTPTransportOptions : Type := mkOptions {
  opt_sessionIdGenerator : option (History -> Completion string);
  opt_onsessioninitialized : option (string -> History -> Completion unit);
  opt_enableJsonResponse : option bool;
  opt_eventStore : option EventStore
}.

(** [constructor(options)] together with the field initialisers. *)
Definition constructor (options : EdgeStreamableHTTPTransportOptions)
  : Transport :=
  {| sessionIdGenerator := opt_sessionIdGenerator options;
     _started := false;
     _streamMapping := JSMap.empty;
     _requestToStreamMapping := JSMap.empty;
     _requestResponseMap := JSMap.empty;
     _initialized := false;
     _enableJsonResponse :=
       match opt_enableJsonResponse options with
       | Some b => b
       | None => false
       end;
     _eventStore := opt_eventStore options;
     _onsessioninitialized := opt_onsessioninitialized options;
     _pendingResponses := JSMap.empty;
     sessionId := None;
     onclose := None;
     onerror := None;
     onmessage := None |}.

(** Field assignments. *)
Definition set_started (b : bool) (t : Transport) : Transport :=
  mkTransport (sessionIdGenerator t) b (_streamMapping t)
    (_requestToStreamMapping t) (_requestResponseMap t) (_initialized t)
    (_enableJsonResponse t) (_eventStore t) (_onsessioninitialized t)
    (_pendingResponses t) (sessionId t) (onclose t) (onerror t) (onmessage t).

Definition set_streamMapping (m : JSMap.t string Controller) (t : Transport)
  : Transport :=
  mkTransport (sessionIdGenerator t) (_started t) m
    (_requestToStreamMapping t) (_requestResponseMap t) (_initialized t)
    (_enableJsonResponse t) (_eventStore t) (_onsessioninitialized t)
    (_pendingResponses t) (sessionId t) (onclose t) (onerror t) (onmessage t).

Definition set_requestToStreamMapping (m : JSMap.t RequestId string)
  (t : Transport) : Transport :=
  mkTransport (sessionIdGenerator t) (_started t) (_streamMapping t) m
    (_requestResponseMap t) (_initialized t)
    (_enableJsonResponse t) (_eventStore t) (_onsessioninitialized t)
    (_pendingResponses t) (sessionId t) (onclose t) (onerror t) (onmessage t).

Definition set_requestResponseMap (m : JSMap.t RequestId JSONRPCMessage)
  (t : Transport) : Transport :=
  mkTransport (sessionIdGenerator t) (_started t) (_streamMapping t)
    (_requestToStreamMapping t) m (_initialized t)
    (_enableJsonResponse t) (_eventStore t) (_onsessioninitialized t)
    (_pendingResponses t) (sessionId t) (onclose t) (onerror t) (onmessage t).

Definition set_initialized (b : bool) (t : Transport) : Transport :=
  mkTransport (sessionIdGenerator t) (_started t) (_streamMapping t)
    (_requestToStreamMapping t) (_requestResponseMap t) b
    (_enableJsonResponse t) (_eventStore t) (_onsessioninitialized t)
    (_pendingResponses t) (sessionId t) (onclose t) (onerror t) (onmessage t).

Definition set_pendingResponses (m : JSMap.t string PromiseRef)
  (t : Transport) : Transport :=
  mkTransport (sessionIdGenerator t) (_started t) (_streamMapping t)
    (_requestToStreamMapping t) (_requestResponseMap t) (_initialized t)
    (_enableJsonResponse t) (_eventStore t) (_onsessioninitialized t)
    m (sessionId t) (onclose t) (onerror t) (onmessage t).

Definition set_sessionId (s : option string) (t : Transport) : Transport :=
  mkTransport (sessionIdGenerator t) (_started t) (_streamMapping t)
    (_requestToStreamMapping t) (_requestResponseMap t) (_initialized t)
    (_enableJsonResponse t) (_eventStore t) (_onsessioninitialized t)
    (_pendingResponses t) s (onclose t) (onerror t) (onmessage t).

Definition set_onclose (f : option (History -> Completion unit))
  (t : Transport) : Transport :=
  mkTransport (sessionIdGenerator t) (_started t) (_streamMapping t)
    (_requestToStreamMapping t) (_requestResponseMap t) (_initialized t)
    (_enableJsonResponse t) (_eventStore t) (_onsessioninitialized t)
    (_pendingResponses t) (sessionId t) f (onerror t) (onmessage t).

Definition set_onerror (f : option (Exn -> History -> Completion unit))
  (t : Transport) : Transport :=
  mkTransport (sessionIdGenerator t) (_started t) (_streamMapping t)
    (_requestToStreamMapping t) (_requestResponseMap t) (_initialized t)
    (_enableJsonResponse t) (_eventStore t) (_onsessioninitialized t)
    (_pendingResponses t) (sessionId t) (onclose t) f (onmessage t).

Definition set_onmessage
  (f : option (JSONRPCMessage -> option AuthInfo -> History
               -> Completion unit))
  (t : Transport) : Transport :=
  mkTransport (sessionIdGenerator t) (_started t) (_streamMapping t)
    (_requestToStreamMapping t) (_requestResponseMap t) (_initialized t)
    (_enableJsonResponse t) (_eventStore t) (_onsessioninitialized t)
    (_pendingResponses t) (sessionId t) (onclose t) (onerror t) f.

(* ------------------------------------------------------------------ *)
(** ** The world around the transport *)

(** One SSE stream: whether it was closed or cancelled, and the chunks
    enqueued so far. *)
Record SSEStream : Type := mkSSEStream {
  closed : bool;
  queue : list string
}.

(** A [setTimeout(..., 0)] task of [handlePostRequest]: dispatch these
    messages to [onmessage]. *)
Record Task : Type := mkTask {
  task_messages : list JSONRPCMessage;
  task_authInfo : option AuthInfo
}.

Record World : Type := mkWorld {
  this : Transport;
  streams : list SSEStream;
  promises : list (option Response);
  timers : list Task;
  history : History
}.

Definition with_this (t : Transport) (w : World) : World :=
  mkWorld t (streams w) (promises w) (timers w) (history w).

Definition with_streams (s : list SSEStream) (w : World) : World :=
  mkWorld (this w) s (promises w) (timers w) (history w).

Definition with_promises (p : list (option Response)) (w : World) : World :=
  mkWorld (this w) (streams w) p (timers w) (history w).

Definition with_timers (q : list Task) (w : World) : World :=
  mkWorld (this w) (streams w) (promises w) q (history w).

Definition with_history (h : History) (w : World) : World :=
  mkWorld (this w) (streams w) (promises w) (timers w) h.

(** [new EdgeStreamableHTTPTransport(options)] in a fresh world. *)
Definition new_world (options : EdgeStreamableHTTPTransportOptions) : World :=
  mkWorld (constructor options) [] [] [] [].

(* ------------------------------------------------------------------ *)
(** ** The monad of methods *)

Definition M (A : Type) : Type := World -> Completion A * World.

Definition ret {A : Type} (a : A) : M A := fun w => (Ok a, w).

Definition throw {A : Type} (e : Exn) : M A := fun w => (Raise e, w).

Definition bind {A B : Type} (m : M A) (k : A -> M B) : M B :=
  fun w =>
    match m w with
    | (Ok a, w') => k a w'
    | (Raise e, w') => (Raise e, w')
    end.

(** [try { m } catch (error) { handler error }]. *)
Definition try_catch {A : Type} (m : M A) (handler : Exn -> M A) : M A :=
  fun w =>
    match m w with
    | (Ok a, w') => (Ok a, w')
    | (Raise e, w') => handler e w'
    end.

Declare Scope method_scope.
Delimit Scope method_scope with method.
Notation "x <- m ;; k" := (bind m (fun x => k))
  (at level 61, m at next level, right associativity) : method_scope.
Notation "m ;; k" := (bind m (fun _ => k))
  (at level 61, right associativity) : method_scope.
Local Open Scope method_scope.

(** A pure computation that may fail, run as a method. *)
Definition lift {A : Type} (c : Completion A) : M A := fun w => (c, w).

Definition get_this : M Transport := fun w => (Ok (this w), w).

Definition update_this (f : Transport -> Transport) : M unit :=
  fun w => (Ok tt, with_this (f (this w)) w).

(** Call into the host: the call is recorded, and the host answers from
    the history before the call. *)
Definition invoke {A : Type} (c : HostCall) (f : History -> Completion A)
  : M A :=
  fun w => (f (history w), with_history (history w ++ [c]) w).

Fixpoint for_each {A : Type} (f : A -> M unit) (l : list A) : M unit :=
  match l with
  | [] => ret tt
  | x :: rest => f x ;; for_each f rest
  end.

Fixpoint list_update {A : Type} (n : nat) (x : A) (l : list A) : list A :=
  match l, n with
  | [], _ => []
  | _ :: rest, O => x :: rest
  | y :: rest, S n' => y :: list_update n' x rest
  end.

(** [new ReadableStream({ start, cancel })]: a fresh open stream. *)
Definition new_ReadableStream : M Controller :=
  fun w => (Ok (List.length (streams w)),
            with_streams (streams w ++ [mkSSEStream false []]) w).

(** [controller.close()]: fails on a stream that is no longer open. *)
Definition controller_close (c : Controller) : M unit :=
  fun w =>
    match nth_error (streams w) c with
    | Some s =>
        if closed s then (Raise (Thrown "TypeError: Invalid state"), w)
        else (Ok tt,
              with_streams (list_update c (mkSSEStream true (queue s))
                              (streams w)) w)
    | None => (Raise (Thrown "TypeError: Invalid state"), w)
    end.

(** [controller.enqueue(chunk)]: fails on a stream that is no longer
    open. *)
Definition controller_enqueue (c : Controller) (chunk : string) : M unit :=
  fun w =>
    match nth_error (streams w) c with
    | Some s =>
        if closed s then (Raise (Thrown "TypeError: Invalid state"), w)
        else (Ok tt,
              with_streams
                (list_update c (mkSSEStream false (queue s ++ [chunk]))
                   (streams w)) w)
    | None => (Raise (Thrown "TypeError: Invalid state"), w)
    end.

(** [new Promise((resolve) => ...)]: a fresh pending promise. *)
Definition new_Promise : M PromiseRef :=
  fun w => (Ok (List.length (promises w)),
            with_promises (promises w ++ [None]) w).

(** Calling the [resolve] function of promise [p]; only the first call
    settles it. *)
Definition resolve (p : PromiseRef) (r : Response) : M unit :=
  fun w =>
    match nth_error (promises w) p with
    | Some None => (Ok tt, with_promises (list_update p (Some r) (promises w)) w)
    | _ => (Ok tt, w)
    end.

(** [setTimeout(task, 0)]. *)
Definition setTimeout (task : Task) : M unit :=
  fun w => (Ok tt, with_timers (timers w ++ [task]) w).

(* ------------------------------------------------------------------ *)
(** ** The methods of [EdgeStreamableHTTPTransport] *)

(** What the module imports: [JSON] of the JavaScript runtime, and
    [JSONRPCMessageSchema] and [isInitializeRequest] of the MCP SDK.  A
    parse either yields its value or throws. *)
Class Imports : Type := mkImports {
  JSON_parse : string -> Completion JSON;
  JSON_stringify : JSON -> string;
  JSONRPCMessageSchema_parse : JSON -> Completion JSONRPCMessage;
  isInitializeRequest : JSONRPCMessage -> bool
}.

Section Methods.

Context `{Imports}.

(** The literal [{ jsonrpc: "2.0", error: { code, message, data? },
    id: null }] that every JSON-RPC error response stringifies. *)
Definition error_envelope (code : Z) (message : string)
  (data : option JSON) : JSON :=
  JObject [("jsonrpc", JString "2.0");
           ("error", JObject ([("code", JNumber code);
                               ("message", JString message)]
                              ++ optional_field "data" data));
           ("id", JNull)].

(** [new Response(JSON.stringify({ ... }), { status, headers:
    { "Content-Type": "application/json" } })]. *)
Definition error_response (st : Z) (code : Z) (message : string)
  : Response :=
  mkResponse st [("Content-Type", "application/json")]
    (BodyString (JSON_stringify (error_envelope code message None))).

(** [header?.includes(needle)], with a missing header giving a falsy
    result. *)
Definition optional_includes (header : option string) (needle : string)
  : bool :=
  match header with
  | Some s => includes needle s
  | None => false
  end.

(** [!header] for a header that may be missing. *)
Definition optional_falsy (header : option string) : bool :=
  match header with
  | Some s => negb (truthy s)
  | None => true
  end.

(** A header value that is present and truthy. *)
Definition optional_truthy (header : option string) : option string :=
  match header with
  | Some s => if truthy s then Some s else None
  | None => None
  end.

(** [if (this.sessionId !== undefined) headers["mcp-session-id"] =
    this.sessionId]. *)
Definition session_header (t : Transport) : list (string * string) :=
  match sessionId t with
  | Some s => [("mcp-session-id", s)]
  | None => []
  end.

(** [this.onerror?.(error)]. *)
Definition call_onerror (error : Exn) : M unit :=
  t <- get_this ;;
  match onerror t with
  | Some cb => invoke (Call_onerror error) (cb error)
  | None => ret tt
  end.

(** [this.onmessage?.(message, { authInfo })]. *)
Definition call_onmessage (authInfo : option AuthInfo)
  (message : JSONRPCMessage) : M unit :=
  t <- get_this ;;
  match onmessage t with
  | Some cb => invoke (Call_onmessage message authInfo) (cb message authInfo)
  | None => ret tt
  end.

Definition start : M unit :=
  t <- get_this ;;
  if _started t then throw (Error "Transport already started")
  else update_this (set_started true).

(** The [cancel()] hook that [createSSEStream] gives to every stream it
    makes. *)
Definition cancel_hook : M unit :=
  update_this (fun t =>
    set_streamMapping
      (JSMap.delete _standaloneSseStreamId (_streamMapping t)) t).

Definition createSSEStream : M Controller :=
  controller <- new_ReadableStream ;;
  ret controller.

Definition writeSSEEvent (controller : Controller)
  (message : JSONRPCMessage) (eventId : option string) : M unit :=
  let eventData := ("event: message" ++ LF)%string in
  let eventData :=
    match optional_truthy eventId with
    | Some e => (eventData ++ "id: " ++ e ++ LF)%string
    | None => eventData
    end in
  let eventData :=
    (eventData ++ "data: " ++ JSON_stringify (toJSON message)
       ++ LF ++ LF)%string in
  try_catch (controller_enqueue controller eventData)
            (fun error => call_onerror error).

Definition sse_headers (cache_control : string) (t : Transport)
  : list (string * string) :=
  [("Content-Type", "text/event-stream");
   ("Cache-Control", cache_control);
   ("Connection", "keep-alive")] ++ session_header t.

Definition replayEvents (lastEventId : string) : M Reply :=
  t <- get_this ;;
  match _eventStore t with
  | None => ret (Returned (mkResponse 400 [] (BodyString "")))
  | Some store =>
      try_catch
        (controller <- createSSEStream ;;
         t <- get_this ;;
         let headers := sse_headers "no-cache, no-transform" t in
         replay <- invoke (Call_replayEventsAfter lastEventId)
                     (fun h => Ok (replayEventsAfter store h lastEventId)) ;;
         for_each
           (fun '(eventId, message) =>
              writeSSEEvent controller message (Some eventId))
           (fst replay) ;;
         streamId <- lift (snd replay) ;;
         update_this (fun t =>
           set_streamMapping
             (JSMap.set streamId controller (_streamMapping t)) t) ;;
         ret (Returned (mkResponse 200 headers (BodyReadable controller))))
        (fun error =>
           call_onerror error ;;
           ret (Returned
                  (mkResponse 500 [] (BodyString "Internal Server Error"))))
  end.

Definition validateSession (request : Request) : M (option Response) :=
  t <- get_this ;;
  match sessionIdGenerator t with
  | None => ret None
  | Some _ =>
      if negb (_initialized t) then
        ret (Some (error_response 400 (-32000)
                     "Bad Request: Server not initialized"))
      else
        match optional_truthy
                (Headers_get "mcp-session-id" (req_headers request)) with
        | None =>
            ret (Some (error_response 400 (-32000)
                         "Bad Request: Mcp-Session-Id header is required"))
        | Some sessionId' =>
            match sessionId t with
            | Some current =>
                if String.eqb sessionId' current then ret None
                else ret (Some (error_response 404 (-32001)
                                  "Session not found"))
            | None =>
                ret (Some (error_response 404 (-32001) "Session not found"))
            end
        end
  end.

Definition handleGetRequest (request : Request) : M Reply :=
  let acceptHeader := Headers_get "accept" (req_headers request) in
  if negb (optional_includes acceptHeader "text/event-stream") then
    ret (Returned
           (error_response 406 (-32000)
              "Not Acceptable: Client must accept text/event-stream"))
  else
    validationResponse <- validateSession request ;;
    match validationResponse with
    | Some r => ret (Returned r)
    | None =>
        t <- get_this ;;
        match
          match _eventStore t with
          | Some _ =>
              optional_truthy
                (Headers_get "last-event-id" (req_headers request))
          | None => None
          end
        with
        | Some lastEventId => replayEvents lastEventId
        | None =>
            if JSMap.has _standaloneSseStreamId (_streamMapping t) then
              ret (Returned
                     (error_response 409 (-32000)
                        "Conflict: Only one SSE stream is allowed per session"))
            else
              controller <- createSSEStream ;;
              update_this (fun t =>
                set_streamMapping
                  (JSMap.set _standaloneSseStreamId controller
                     (_streamMapping t)) t) ;;
              t <- get_this ;;
              let headers := sse_headers "no-cache, no-transform" t in
              ret (Returned
                     (mkResponse 200 headers (BodyReadable controller)))
        end
    end.

Definition handleUnsupportedRequest : M Reply :=
  ret (Returned
         (mkResponse 405
            [("Allow", "GET, POST, DELETE");
             ("Content-Type", "application/json")]
            (BodyString
               (JSON_stringify
                  (error_envelope (-32000) "Method not allowed." None))))).

(** [rawMessage.map((msg) => JSONRPCMessageSchema.parse(msg))]: stops at
    the first element that does not validate. *)
Fixpoint parse_all (items : list JSON) : Completion (list JSONRPCMessage) :=
  match items with
  | [] => Ok []
  | j :: rest =>
      match JSONRPCMessageSchema_parse j with
      | Ok m =>
          match parse_all rest with
          | Ok ms => Ok (m :: ms)
          | Raise e => Raise e
          end
      | Raise e => Raise e
      end
  end.

(** [for (const message of messages) if (isJSONRPCRequest(message))
    this._requestToStreamMapping.set(message.id, streamId)]. *)
Definition store_request_mapping (streamId : string)
  (message : JSONRPCMessage) : M unit :=
  match message with
  | JSONRPCRequest id _ _ =>
      update_this (fun t =>
        set_requestToStreamMapping
          (JSMap.set id streamId (_requestToStreamMapping t)) t)
  | _ => ret tt
  end.

(** The part of [handlePostRequest] under [if (isInitializationRequest)];
    [Some r] is an early [return r]. *)
Definition initialize (messages : list JSONRPCMessage)
  : M (option Response) :=
  t <- get_this ;;
  if _initialized t
     && match sessionId t with Some _ => true | None => false end
  then
    ret (Some (error_response 400 (-32600)
                 "Invalid Request: Server already initialized"))
  else if (1 <? List.length messages)%nat then
    ret (Some (error_response 400 (-32600)
                 "Invalid Request: Only one initialization request is allowed"))
  else
    generated <-
      match sessionIdGenerator t with
      | Some generator =>
          s <- invoke Call_sessionIdGenerator generator ;;
          ret (Some s)
      | None => ret None
      end ;;
    update_this (set_sessionId generated) ;;
    update_this (set_initialized true) ;;
    t <- get_this ;;
    match optional_truthy (sessionId t), _onsessioninitialized t with
    | Some s, Some cb => invoke (Call_onsessioninitialized s) (cb s)
    | _, _ => ret tt
    end ;;
    ret None.

(** The part of [handlePostRequest] from [const hasRequests] on; the
    [return] of an empty 200 response that ends the [try] block in the
    source is never reached. *)
Definition dispatch (messages : list JSONRPCMessage)
  (authInfo : option AuthInfo) (uuid : string) : M Reply :=
  let hasRequests := existsb isJSONRPCRequest messages in
  if negb hasRequests then
    for_each (call_onmessage authInfo) messages ;;
    ret (Returned (mkResponse 202 [] (BodyString "")))
  else
    let streamId := uuid in
    t <- get_this ;;
    if negb (_enableJsonResponse t) then
      controller <- createSSEStream ;;
      update_this (fun t =>
        set_streamMapping
          (JSMap.set streamId controller (_streamMapping t)) t) ;;
      for_each (store_request_mapping streamId) messages ;;
      t <- get_this ;;
      let headers := sse_headers "no-cache" t in
      setTimeout (mkTask messages authInfo) ;;
      ret (Returned (mkResponse 200 headers (BodyReadable controller)))
    else
      for_each (store_request_mapping streamId) messages ;;
      responsePromise <- new_Promise ;;
      update_this (fun t =>
        set_pendingResponses
          (JSMap.set streamId responsePromise (_pendingResponses t)) t) ;;
      setTimeout (mkTask messages authInfo) ;;
      ret (Promised responsePromise).

(** [JSON.parse(bodyText)] followed by the normalisation of a batch or
    a single message through [JSONRPCMessageSchema.parse]. *)
Definition parse_messages (bodyText : string)
  : Completion (list JSONRPCMessage) :=
  match JSON_parse bodyText with
  | Ok rawMessage =>
      match rawMessage with
      | JArray items => parse_all items
      | _ =>
          match JSONRPCMessageSchema_parse rawMessage with
          | Ok m => Ok [m]
          | Raise e => Raise e
          end
      end
  | Raise e => Raise e
  end.

(** The response built in the [catch] of [handlePostRequest]. *)
Definition parse_error_response (error : Exn) : Response :=
  mkResponse 400 [("Content-Type", "application/json")]
    (BodyString
       (JSON_stringify
          (error_envelope (-32700) "Parse error"
             (Some (JString (String_of_exn error)))))).

Definition handlePostRequest (request : Request) (body : string)
  (authInfo : option AuthInfo) (uuid : string) : M Reply :=
  try_catch
    (let acceptHeader := Headers_get "accept" (req_headers request) in
     if negb (optional_includes acceptHeader "application/json")
        || negb (optional_includes acceptHeader "text/event-stream")
     then
       ret (Returned
              (error_response 406 (-32000)
                 "Not Acceptable: Client must accept both application/json and text/event-stream"))
     else
       let contentType := Headers_get "content-type" (req_headers request) in
       if optional_falsy contentType
          || negb (optional_includes contentType "application/json")
       then
         ret (Returned
                (error_response 415 (-32000)
                   "Unsupported Media Type: Content-Type must be application/json"))
       else
         let bodyText := body in
         if js_length bodyText >? MAXIMUM_MESSAGE_SIZE then
           ret (Returned (error_response 413 (-32000) "Request too large"))
         else
           messages <- lift (parse_messages bodyText) ;;
           let isInitializationRequest :=
             existsb isInitializeRequest messages in
           early <-
             (if isInitializationRequest then initialize messages
              else validateSession request) ;;
           match early with
           | Some r => ret (Returned r)
           | None => dispatch messages authInfo uuid
           end)
    (fun error => ret (Returned (parse_error_response error))).

Definition close : M unit :=
  t <- get_this ;;
  for_each
    (fun '(_, controller) =>
       try_catch (controller_close controller) (fun _error => ret tt))
    (JSMap.entries (_streamMapping t)) ;;
  update_this (fun t => set_streamMapping (JSMap.clear (_streamMapping t)) t) ;;
  update_this (fun t =>
    set_requestResponseMap (JSMap.clear (_requestResponseMap t)) t) ;;
  update_this (fun t =>
    set_pendingResponses (JSMap.clear (_pendingResponses t)) t) ;;
  t <- get_this ;;
  match onclose t with
  | Some cb => invoke Call_onclose cb
  | None => ret tt
  end.

Definition handleDeleteRequest (request : Request) : M Reply :=
  validationResponse <- validateSession request ;;
  match validationResponse with
  | Some r => ret (Returned r)
  | None =>
      close ;;
      ret (Returned (mkResponse 200 [] (BodyString "")))
  end.

(** [uuid] is what [crypto.randomUUID()] returns if this call asks for
    it. *)
Definition handleRequest (request : Request) (body : string)
  (authInfo : option AuthInfo) (uuid : string) : M Reply :=
  let method := req_method request in
  if String.eqb method "POST" then
    handlePostRequest request body authInfo uuid
  else if String.eqb method "GET" then handleGetRequest request
  else if String.eqb method "DELETE" then handleDeleteRequest request
  else handleUnsupportedRequest.

(** [this._eventStore.storeEvent(streamId, message)] when there is a
    store. *)
Definition store_event (t : Transport) (streamId : string)
  (message : JSONRPCMessage) : M (option string) :=
  match _eventStore t with
  | Some store =>
      e <- invoke (Call_storeEvent streamId message)
             (fun h => storeEvent store h streamId message) ;;
      ret (Some e)
  | None => ret None
  end.

(** [Array.from(this._requestToStreamMapping.entries())
      .filter(([_, sid]) => sid === streamId).map(([id]) => id)]. *)
Definition relatedIds_of (streamId : string)
  (index : JSMap.t RequestId string) : list RequestId :=
  map fst (filter (fun '(_, sid) => String.eqb sid streamId)
             (JSMap.entries index)).

(** [relatedIds.map((id) => this._requestResponseMap.get(id))], as
    [JSON.stringify] sees it: a missing entry prints as [null]. *)
Definition responses_of (relatedIds : list RequestId)
  (buffer : JSMap.t RequestId JSONRPCMessage) : list JSON :=
  map (fun id =>
         match JSMap.get id buffer with
         | Some m => toJSON m
         | None => JNull
         end) relatedIds.

(** [responses.length === 1 ? responses[0] : responses]. *)
Definition single_or_array (responses : list JSON) : JSON :=
  match responses with
  | [r] => r
  | _ => JArray responses
  end.

(** A response or an error: the messages that answer a request. *)
Definition terminal (message : JSONRPCMessage) : bool :=
  isJSONRPCResponse message || isJSONRPCError message.

(** [requestId] as [send] computes it in its first lines. *)
Definition effective_request_id (message : JSONRPCMessage)
  (relatedRequestId : option RequestId) : option RequestId :=
  if terminal message then message_id message else relatedRequestId.

(** The part of [send] under its last [if (isJSONRPCResponse(message)
    || isJSONRPCError(message))]: buffer the response and, once every
    request of the stream has one, complete the stream. *)
Definition record_response (requestId : RequestId) (streamId : string)
  (controller : option Controller) (message : JSONRPCMessage) : M unit :=
  update_this (fun t =>
    set_requestResponseMap
      (JSMap.set requestId message (_requestResponseMap t)) t) ;;
  t <- get_this ;;
  let relatedIds := relatedIds_of streamId (_requestToStreamMapping t) in
  let allResponsesReady :=
    forallb (fun id => JSMap.has id (_requestResponseMap t)) relatedIds in
  if allResponsesReady then
    (if _enableJsonResponse t then
       match JSMap.get streamId (_pendingResponses t) with
       | Some pendingResponse =>
           let headers :=
             [("Content-Type", "application/json")] ++ session_header t in
           let responses :=
             responses_of relatedIds (_requestResponseMap t) in
           let response :=
             mkResponse 200 headers
               (BodyString (JSON_stringify (single_or_array responses))) in
           resolve pendingResponse response ;;
           update_this (fun t =>
             set_pendingResponses
               (JSMap.delete streamId (_pendingResponses t)) t)
       | None => ret tt
       end
     else
       match controller with
       | Some c => try_catch (controller_close c) (fun _error => ret tt)
       | None => ret tt
       end) ;;
    for_each
      (fun id =>
         update_this (fun t =>
           set_requestResponseMap
             (JSMap.delete id (_requestResponseMap t)) t) ;;
         update_this (fun t =>
           set_requestToStreamMapping
             (JSMap.delete id (_requestToStreamMapping t)) t))
      relatedIds ;;
    update_this (fun t =>
      set_streamMapping (JSMap.delete streamId (_streamMapping t)) t)
  else ret tt.

Definition send (message : JSONRPCMessage)
  (relatedRequestId : option RequestId) : M unit :=
  match effective_request_id message relatedRequestId with
  | None =>
      if terminal message then
        throw (Error "Cannot send a response on a standalone SSE stream unless resuming a previous client request")
      else
        t <- get_this ;;
        match JSMap.get _standaloneSseStreamId (_streamMapping t) with
        | None => ret tt
        | Some standaloneController =>
            eventId <- store_event t _standaloneSseStreamId message ;;
            writeSSEEvent standaloneController message eventId
        end
  | Some requestId =>
      t <- get_this ;;
      match optional_truthy
              (JSMap.get requestId (_requestToStreamMapping t)) with
      | None =>
          throw (Error ("No stream found for request ID: "
                        ++ String_of_RequestId requestId)%string)
      | Some streamId =>
          let controller := JSMap.get streamId (_streamMapping t) in
          (* the second [if (!streamId)] of the source cannot fire here *)
          match (if _enableJsonResponse t then None else controller) with
          | Some c =>
              eventId <- store_event t streamId message ;;
              writeSSEEvent c message eventId
          | None => ret tt
          end ;;
          if terminal message then
            record_response requestId streamId controller message
          else ret tt
      end
  end.

(** The consumer cancels the response body [c]: an open stream is
    closed and its [cancel()] hook runs. *)
Definition readable_cancel (c : Controller) : M unit :=
  fun w =>
    match nth_error (streams w) c with
    | Some s =>
        if closed s then (Ok tt, w)
        else cancel_hook
               (with_streams
                  (list_update c (mkSSEStream true (queue s)) (streams w))
                  w)
    | None => (Ok tt, w)
    end.

(** The scheduler runs the oldest [setTimeout] task. *)
Definition run_timer : M unit :=
  fun w =>
    match timers w with
    | [] => (Ok tt, w)
    | task :: rest =>
        for_each (call_onmessage (task_authInfo task)) (task_messages task)
          (with_timers rest w)
    end.

End Methods.

(* ------------------------------------------------------------------ *)
(** ** Runs of the transport *)

(** What can happen to a transport: the host calls a method or assigns a
    callback, a consumer cancels a response body, or the scheduler runs a
    due task. *)
Inductive Action : Type :=
| Do_start
| Do_handleRequest (request : Request) (body : string)
    (authInfo : option AuthInfo) (uuid : string)
| Do_send (message : JSONRPCMessage) (relatedRequestId : option RequestId)
| Do_close
| Do_cancel (c : Controller)
| Do_timer
| Do_set_onclose (f : option (History -> Completion unit))
| Do_set_onerror (f : option (Exn -> History -> Completion unit))
| Do_set_onmessage
    (f : option (JSONRPCMessage -> option AuthInfo -> History
                 -> Completion unit)).

Section Runs.

Context `{Imports}.

(** The world after an action, whether the call returned or threw. *)
Definition perform (a : Action) (w : World) : World :=
  match a with
  | Do_start => snd (start w)
  | Do_handleRequest request body authInfo uuid =>
      snd (handleRequest request body authInfo uuid w)
  | Do_send message relatedRequestId =>
      snd (send message relatedRequestId w)
  | Do_close => snd (close w)
  | Do_cancel c => snd (readable_cancel c w)
  | Do_timer => snd (run_timer w)
  | Do_set_onclose f => with_this (set_onclose f (this w)) w
  | Do_set_onerror f => with_this (set_onerror f (this w)) w
  | Do_set_onmessage f => with_this (set_onmessage f (this w)) w
  end.

Definition run (actions : list Action) (w : World) : World :=
  fold_left (fun w a => perform a w) actions w.

(** The worlds a transport can be in. *)
Inductive reachable : World -> Prop :=
| reachable_new (options : EdgeStreamableHTTPTransportOptions) :
    reachable (new_world options)
| reachable_step (w : World) (a : Action) :
    reachable w -> reachable (perform a w).

End Runs.

(* ------------------------------------------------------------------ *)
(** ** Vocabulary of the properties *)

Section Vocabulary.

Context `{Imports}.

(** The [Accept] gate of a POST. *)
Definition accepts_json_and_event_stream (request : Request) : bool :=
  optional_includes (Headers_get "accept" (req_headers request))
    "application/json"
  && optional_includes (Headers_get "accept" (req_headers request))
       "text/event-stream".

(** The [Content-Type] gate of a POST. *)
Definition content_type_is_json (request : Request) : bool :=
  optional_includes (Headers_get "content-type" (req_headers request))
    "application/json".

(** [r] is the JSON-RPC error response with these parts: the envelope
    [{ jsonrpc: "2.0", error: { code, message, data? }, id: null }]
    sent as [application/json]. *)
Definition jsonrpc_error (r : Response) (st code : Z) (message : string)
  (data : option JSON) : Prop :=
  status r = st /\
  In ("Content-Type", "application/json") (resp_headers r) /\
  body r = BodyString (JSON_stringify (error_envelope code message data)).

(** The body of [r] is a JSON-RPC error envelope with one of the four
    codes of the transport. *)
Definition has_error_envelope (r : Response) : Prop :=
  exists code message data,
    body r = BodyString (JSON_stringify (error_envelope code message data))
    /\ In code [-32000; -32001; -32600; -32700].

(** The outcome of session validation. *)
Inductive Verdict : Type :=
| Valid
| Rejected (st code : Z) (message : string).

(** [validateSession] returns [null] for a valid request and the error
    response otherwise. *)
Definition verdict_response (v : Verdict) : option Response :=
  match v with
  | Valid => None
  | Rejected st code message => Some (error_response st code message)
  end.

Definition same_session (value : string) (current : option string) : bool :=
  match current with
  | Some s => String.eqb value s
  | None => false
  end.

(** The session rules as the specification words them: the third rule
    fires when the header is absent. *)
Definition session_rules_as_specified (t : Transport) (request : Request)
  : Verdict :=
  match sessionIdGenerator t with
  | None => Valid
  | Some _ =>
      if negb (_initialized t) then
        Rejected 400 (-32000) "Bad Request: Server not initialized"
      else
        match Headers_get "mcp-session-id" (req_headers request) with
        | None =>
            Rejected 400 (-32000)
              "Bad Request: Mcp-Session-Id header is required"
        | Some value =>
            if same_session value (sessionId t) then Valid
            else Rejected 404 (-32001) "Session not found"
        end
  end.

(** The session rules with the third rule firing when the header is
    absent or empty. *)
Definition session_rules (t : Transport) (request : Request) : Verdict :=
  match sessionIdGenerator t with
  | None => Valid
  | Some _ =>
      if negb (_initialized t) then
        Rejected 400 (-32000) "Bad Request: Server not initialized"
      else
        match Headers_get "mcp-session-id" (req_headers request) with
        | None | Some "" =>
            Rejected 400 (-32000)
              "Bad Request: Mcp-Session-Id header is required"
        | Some value =>
            if same_session value (sessionId t) then Valid
            else Rejected 404 (-32001) "Session not found"
        end
  end.

(** The ids of the requests of a payload, in payload order. *)
Fixpoint request_ids (messages : list JSONRPCMessage) : list RequestId :=
  match messages with
  | [] => []
  | JSONRPCRequest id _ _ :: rest => id :: request_ids rest
  | _ :: rest => request_ids rest
  end.

(** The value of promise [p], once resolved. *)
Definition promise_value (p : PromiseRef) (w : World) : option Response :=
  match nth_error (promises w) p with
  | Some v => v
  | None => None
  end.

(** [raw] does not validate: the first element of a batch that is not
    a JSON-RPC message, or the single value itself, is rejected with
    [cause]. *)
Definition validation_fails (raw : JSON) (cause : Exn) : Prop :=
  match raw with
  | JArray items =>
      exists before j after,
        items = before ++ j :: after
        /\ (forall x, In x before ->
              exists m, JSONRPCMessageSchema_parse x = Ok m)
        /\ JSONRPCMessageSchema_parse j = Raise cause
  | _ => JSONRPCMessageSchema_parse raw = Raise cause
  end.

(** The calls [onmessage(m, { authInfo })] for each [m] in turn. *)
Definition calls_onmessage (authInfo : option AuthInfo)
  (messages : list JSONRPCMessage) : History :=
  map (fun m => Call_onmessage m authInfo) messages.

(** The response of [replayEvents] when the event store fails. *)
Definition replay_failure : Response :=
  mkResponse 500 [] (BodyString "Internal Server Error").

(** A status in the 2xx range. *)
Definition successful (r : Response) : Prop :=
  200 <= status r < 300.

(** The world after [close] has closed this stream. *)
Definition close_stream (c : Controller) (ss : list SSEStream)
  : list SSEStream :=
  match nth_error ss c with
  | Some s =>
      if closed s then ss else list_update c (mkSSEStream true (queue s)) ss
  | None => ss
  end.

Definition close_streams (cs : list Controller) (ss : list SSEStream)
  : list SSEStream :=
  fold_left (fun ss c => close_stream c ss) cs ss.

(** Whatever [m] returns satisfies [P]. *)
Definition yields {A : Type} (m : M A) (P : A -> Prop) : Prop :=
  forall w a w', m w = (Ok a, w') -> P a.

(** A reply that is a success or a JSON-RPC error. *)
Definition enveloped_reply (reply : Reply) : Prop :=
  match reply with
  | Returned r => successful r \/ has_error_envelope r
  | Promised _ => True
  end.

(** A reply that is a success, a JSON-RPC error, or the failure of a
    replay. *)
Definition well_formed_reply (reply : Reply) : Prop :=
  match reply with
  | Returned r => successful r \/ has_error_envelope r \/ r = replay_failure
  | Promised _ => True
  end.

(** An early return of a validation step is a JSON-RPC error. *)
Definition rejection (early : option Response) : Prop :=
  match early with
  | Some r => has_error_envelope r
  | None => True
  end.

(** [delete] for each key in turn. *)
Definition delete_all {V : Type} (ids : list RequestId)
  (m : JSMap.t RequestId V) : JSMap.t RequestId V :=
  fold_left (fun m id => JSMap.delete id m) ids m.

(** The transport after the clean-up loop of [send] over [ids]. *)
Definition cleanup (ids : list RequestId) (t : Transport) : Transport :=
  set_requestToStreamMapping (delete_all ids (_requestToStreamMapping t))
    (set_requestResponseMap (delete_all ids (_requestResponseMap t)) t).

(** The transport after [send] has completed the stream [streamId]. *)
Definition completed (streamId : string) (relatedIds : list RequestId)
  (t : Transport) : Transport :=
  let t' :=
    cleanup relatedIds
      (if _enableJsonResponse t then
         set_pendingResponses
           (JSMap.delete streamId (_pendingResponses t)) t
       else t) in
  set_streamMapping (JSMap.delete streamId (_streamMapping t')) t'.

(** The promises after [resolve p r]. *)
Definition settle (p : PromiseRef) (r : Response)
  (ps : list (option Response)) : list (option Response) :=
  match nth_error ps p with
  | Some None => list_update p (Some r) ps
  | _ => ps
  end.

(** The response that [send] assembles in JSON response mode. *)
Definition json_response (relatedIds : list RequestId) (t : Transport)
  : Response :=
  mkResponse 200
    ([("Content-Type", "application/json")] ++ session_header t)
    (BodyString
       (JSON_stringify
          (single_or_array
             (responses_of relatedIds (_requestResponseMap t))))).

(** The world after [record_response]. *)
Definition recorded (requestId : RequestId) (streamId : string)
  (controller : option Controller) (message : JSONRPCMessage) (w : World)
  : World :=
  let t :=
    set_requestResponseMap
      (JSMap.set requestId message (_requestResponseMap (this w)))
      (this w) in
  let relatedIds := relatedIds_of streamId (_requestToStreamMapping t) in
  if forallb (fun id => JSMap.has id (_requestResponseMap t)) relatedIds
  then
    mkWorld (completed streamId relatedIds t)
      (if _enableJsonResponse t then streams w
       else match controller with
            | Some c => close_stream c (streams w)
            | None => streams w
            end)
      (if _enableJsonResponse t then
         match JSMap.get streamId (_pendingResponses t) with
         | Some p => settle p (json_response relatedIds t) (promises w)
         | None => promises w
         end
       else promises w)
      (timers w) (history w)
  else with_this t w.

(** [m] keeps [I] true of the transport object, however it ends. *)
Definition preserves {A : Type} (I : Transport -> Prop) (m : M A) : Prop :=
  forall w, I (this w) -> I (this (snd (m w))).


(** An established session: the transport is initialized under session
    id [s]. *)
Definition session_established (s : string) (t : Transport) : Prop :=
  _initialized t = true /\ sessionId t = Some s.

(** Every buffered response belongs to a request of the index. *)
Definition buffer_within_index (t : Transport) : Prop :=
  forall id,
    JSMap.get id (_requestToStreamMapping t) = None ->
    JSMap.get id (_requestResponseMap t) = None.

(** [w'] differs from [w] at most in its streams and its history. *)
Definition same_transport (w w' : World) : Prop :=
  this w' = this w /\ promises w' = promises w /\ timers w' = timers w.

(** The transport object after [record_response]. *)
Definition recorded_this (requestId : RequestId) (streamId : string)
  (message : JSONRPCMessage) (t : Transport) : Transport :=
  let t1 :=
    set_requestResponseMap
      (JSMap.set requestId message (_requestResponseMap t)) t in
  let relatedIds := relatedIds_of streamId (_requestToStreamMapping t1) in
  if forallb (fun id => JSMap.has id (_requestResponseMap t1)) relatedIds
  then completed streamId relatedIds t1
  else t1.

(** A reply that is not an error: a 2xx response, or the promise of the
    JSON response. *)
Definition accepted (reply : Reply) : Prop :=
  match reply with
  | Returned r => successful r
  | Promised _ => True
  end.

(** The index after a POST has mapped each of [ids] to [streamId]. *)
Definition register (streamId : string) (ids : list RequestId)
  (index : JSMap.t RequestId string) : JSMap.t RequestId string :=
  fold_left (fun index id => JSMap.set id streamId index) ids index.

(** The first of [responses] that answers request [id]. *)
Definition response_to (id : RequestId) (responses : list JSONRPCMessage)
  : option JSONRPCMessage :=
  find (fun m =>
          match message_id m with
          | Some id' => if same_value_zero id id' then true else false
          | None => false
          end) responses.

(** The responses to [ids], in the order of [ids], as JSON. *)
Definition in_order_of (ids : list RequestId)
  (responses : list JSONRPCMessage) : list JSON :=
  map (fun id =>
         match response_to id responses with
         | Some m => toJSON m
         | None => JNull
         end) ids.

(** The HTTP response of a POST in JSON response mode whose requests,
    in payload order, are [ids] and were answered by [responses]. *)
Definition batch_response (t : Transport) (ids : list RequestId)
  (responses : list JSONRPCMessage) : Response :=
  mkResponse 200
    ([("Content-Type", "application/json")] ++ session_header t)
    (BodyString
       (JSON_stringify (single_or_array (in_order_of ids responses)))).

(** [w'] has the mappings, the response mode and the promises of
    [w]. *)
Definition same_mappings (w w' : World) : Prop :=
  _streamMapping (this w') = _streamMapping (this w)
  /\ _requestToStreamMapping (this w') = _requestToStreamMapping (this w)
  /\ _requestResponseMap (this w') = _requestResponseMap (this w)
  /\ _pendingResponses (this w') = _pendingResponses (this w)
  /\ _enableJsonResponse (this w') = _enableJsonResponse (this w)
  /\ promises w' = promises w.

(** The world after [dispatch] has set up the JSON response of a
    payload with requests. *)
Definition awaiting (messages : list JSONRPCMessage)
  (authInfo : option AuthInfo) (uuid : string) (w : World) : World :=
  mkWorld
    (set_pendingResponses
       (JSMap.set uuid (List.length (promises w))
          (_pendingResponses (this w)))
       (set_requestToStreamMapping
          (register uuid (request_ids messages)
             (_requestToStreamMapping (this w)))
          (this w)))
    (streams w)
    (promises w ++ [None])
    (timers w ++ [mkTask messages authInfo])
    (history w).

(** In JSON response mode, the world awaits the responses to the
    requests [ids] of stream [uuid], whose promise is [p]; the
    responses [done] have been sent. *)
Definition batch_pending (uuid : string) (p : PromiseRef)
  (ids : list RequestId) (done : list JSONRPCMessage) (w : World) : Prop :=
  _enableJsonResponse (this w) = true
  /\ relatedIds_of uuid (_requestToStreamMapping (this w)) = ids
  /\ (forall id, In id ids ->
        JSMap.get id (_requestToStreamMapping (this w)) = Some uuid)
  /\ (forall id, In id ids ->
        JSMap.get id (_requestResponseMap (this w)) = response_to id done)
  /\ JSMap.get uuid (_pendingResponses (this w)) = Some p
  /\ nth_error (promises w) p = Some None.

(** Every request of [ids] has a response among [responses]. *)
Definition all_answered (ids : list RequestId)
  (responses : list JSONRPCMessage) : bool :=
  forallb (fun id =>
             match response_to id responses with
             | Some _ => true
             | None => false
             end) ids.

(** The text of one SSE event, as [writeSSEEvent] builds it. *)
Definition sse_frame (message : JSONRPCMessage) (eventId : option string)
  : string :=
  let eventData := ("event: message" ++ LF)%string in
  let eventData :=
    match optional_truthy eventId with
    | Some e => (eventData ++ "id: " ++ e ++ LF)%string
    | None => eventData
    end in
  (eventData ++ "data: " ++ JSON_stringify (toJSON message)
     ++ LF ++ LF)%string.

(** The streams after [chunks] were enqueued on the open stream [c]. *)
Definition enqueued (c : Controller) (chunks : list string)
  (ss : list SSEStream) : list SSEStream :=
  match nth_error ss c with
  | Some s => list_update c (mkSSEStream false (queue s ++ chunks)) ss
  | None => ss
  end.

(** Stream [c] exists and is open. *)
Definition is_open (c : Controller) (ss : list SSEStream) : Prop :=
  exists s, nth_error ss c = Some s /\ closed s = false.

(** The call of [onerror], when a handler is set. *)
Definition calls_onerror (error : Exn) (t : Transport) : History :=
  match onerror t with
  | Some _ => [Call_onerror error]
  | None => []
  end.

(** What [this.onerror?.(error)] evaluates to. *)
Definition onerror_outcome (error : Exn) (w : World) : Completion unit :=
  match onerror (this w) with
  | Some cb => cb error (history w)
  | None => Ok tt
  end.

(** The call of [onclose], when a handler is set. *)
Definition calls_onclose (t : Transport) : History :=
  match onclose t with
  | Some _ => [Call_onclose]
  | None => []
  end.

(** The response of a DELETE that was carried out, and of a POST
    without requests. *)
Definition empty_response (st : Z) : Response :=
  mkResponse st [] (BodyString EmptyString).

(** The response carries no [mcp-session-id] header. *)
Definition no_session_header (r : Response) : Prop :=
  forall value, ~ In ("mcp-session-id", value) (resp_headers r).

(** Session management is disabled: no generator was given and no
    session id was ever assigned. *)
Definition stateless_mode (t : Transport) : Prop :=
  sessionIdGenerator t = None /\ sessionId t = None.

(** A GET that passes the [Accept] gate and session validation and
    does not ask for a replay. *)
Definition opens_standalone_stream (request : Request) (t : Transport)
  : Prop :=
  optional_includes (Headers_get "accept" (req_headers request))
    "text/event-stream" = true
  /\ session_rules t request = Valid
  /\ match _eventStore t with
     | Some _ =>
         optional_truthy (Headers_get "last-event-id" (req_headers request))
     | None => None
     end = None.

(** A POST that passes the gates, parses to [messages], and passes the
    session rules that apply to a payload without initialize request. *)
Definition post_admitted (request : Request) (bodyText : string)
  (messages : list JSONRPCMessage) (t : Transport) : Prop :=
  accepts_json_and_event_stream request = true
  /\ content_type_is_json request = true
  /\ js_length bodyText <= MAXIMUM_MESSAGE_SIZE
  /\ parse_messages bodyText = Ok messages
  /\ existsb isInitializeRequest messages = false
  /\ session_rules t request = Valid.

(** The handler, if any, returns on each of [messages] in turn. *)
Definition onmessage_returns (authInfo : option AuthInfo)
  (messages : list JSONRPCMessage) (w : World) : Prop :=
  forall cb done x rest,
    onmessage (this w) = Some cb ->
    messages = done ++ x :: rest ->
    cb x authInfo (history w ++ calls_onmessage authInfo done) = Ok tt.

(** The calls of [onmessage] for a payload: none without a handler. *)
Definition delivered (authInfo : option AuthInfo)
  (messages : list JSONRPCMessage) (t : Transport) : History :=
  match onmessage t with
  | Some _ => calls_onmessage authInfo messages
  | None => []
  end.

(** The world after [dispatch] has opened the SSE stream of a payload
    with requests. *)
Definition streaming (messages : list JSONRPCMessage)
  (authInfo : option AuthInfo) (uuid : string) (w : World) : World :=
  mkWorld
    (set_requestToStreamMapping
       (register uuid (request_ids messages)
          (_requestToStreamMapping (this w)))
       (set_streamMapping
          (JSMap.set uuid (List.length (streams w))
             (_streamMapping (this w)))
          (this w)))
    (streams w ++ [mkSSEStream false []])
    (promises w)
    (timers w ++ [mkTask messages authInfo])
    (history w).


(** An action other than an HTTP request. *)
Definition no_request (a : Action) : bool :=
  match a with
  | Do_handleRequest _ _ _ _ => false
  | _ => true
  end.

(** What [send] does with a message for stream [streamId] before it
    records it: outside JSON response mode, and if the stream is
    registered, store the event and write it. *)
Definition deliver (streamId : string) (message : JSONRPCMessage) : M unit :=
  t <- get_this ;;
  match (if _enableJsonResponse t then None
         else JSMap.get streamId (_streamMapping t)) with
  | Some c =>
      eventId <- store_event t streamId message ;;
      writeSSEEvent c message eventId
  | None => ret tt
  end.


(** The call of [onsessioninitialized] after a session id was
    generated: only for a non-empty id, and only with a handler. *)
Definition session_announcement (s : string) (t : Transport) : History :=
  match optional_truthy (Some s), _onsessioninitialized t with
  | Some s', Some _ => [Call_onsessioninitialized s']
  | _, _ => []
  end.

(** The world after the initialize step has generated the session id
    [s]. *)
Definition initialized_with (s : string) (w : World) : World :=
  mkWorld (set_initialized true (set_sessionId (Some s) (this w)))
    (streams w) (promises w) (timers w)
    (history w ++ [Call_sessionIdGenerator]
       ++ session_announcement s (this w)).

(** A POST that passes the gates and parses to [messages], one of
    which is an initialize request, on a transport that may still be
    initialized. *)
Definition initialize_admitted (request : Request) (bodyText : string)
  (messages : list JSONRPCMessage) (t : Transport) : Prop :=
  accepts_json_and_event_stream request = true
  /\ content_type_is_json request = true
  /\ js_length bodyText <= MAXIMUM_MESSAGE_SIZE
  /\ parse_messages bodyText = Ok messages
  /\ existsb isInitializeRequest messages = true
  /\ (_initialized t = false \/ sessionId t = None).

(** Whatever [m] returns satisfies [P], and [m] keeps [I] true of the
    transport object. *)
Definition ensures {A : Type} (I : Transport -> Prop) (m : M A)
  (P : A -> Prop) : Prop :=
  forall w,
    I (this w) ->
    I (this (snd (m w))) /\ forall a, fst (m w) = Ok a -> P a.

(** A reply that, if it is a response, carries no session id. *)
Definition no_session_in_reply (reply : Reply) : Prop :=
  match reply with
  | Returned r => no_session_header r
  | Promised _ => True
  end.


(** The request ids that a POST with this body registers, if it gets
    that far. *)
Definition posted_ids (bodyText : string) : list RequestId :=
  match parse_messages bodyText with
  | Ok messages => request_ids messages
  | Raise _ => []
  end.

(** [message] is a response or an error to one of the requests
    [ids]. *)
Definition answers (ids : list RequestId) (message : JSONRPCMessage)
  : bool :=
  terminal message
  && match message_id message with
     | Some id => if in_dec same_value_zero id ids then true else false
     | None => false
     end.

(** The responses to the requests [ids] that [actions] send, in the
    order in which they are sent. *)
Fixpoint answers_sent (ids : list RequestId) (actions : list Action)
  : list JSONRPCMessage :=
  match actions with
  | [] => []
  | Do_send message _ :: rest =>
      if answers ids message then message :: answers_sent ids rest
      else answers_sent ids rest
  | _ :: rest => answers_sent ids rest
  end.

(** An action that leaves alone the requests [ids] that wait on stream
    [uuid]: it is not [close], not a DELETE, and not a POST that draws
    the same stream id or carries one of these request ids. *)
Definition undisturbing (uuid : string) (ids : list RequestId)
  (a : Action) : Prop :=
  match a with
  | Do_close => False
  | Do_handleRequest request bodyText _ uuid' =>
      req_method request <> "DELETE"
      /\ (req_method request = "POST" ->
          uuid' <> uuid
          /\ forall id, In id (posted_ids bodyText) -> ~ In id ids)
  | _ => True
  end.

(** [w'] has the index, the buffer, the resolvers, the response mode
    and the promises of [w]. *)
Definition same_batch_state (w w' : World) : Prop :=
  _requestToStreamMapping (this w') = _requestToStreamMapping (this w)
  /\ _requestResponseMap (this w') = _requestResponseMap (this w)
  /\ _pendingResponses (this w') = _pendingResponses (this w)
  /\ _enableJsonResponse (this w') = _enableJsonResponse (this w)
  /\ promises w' = promises w.

(** [m] touches none of these, however it ends. *)
Definition frames {A : Type} (m : M A) : Prop :=
  forall w, same_batch_state w (snd (m w)).

(** Every registered resolver belongs to a promise that exists, and no
    two stream ids share a promise. *)
Definition pending_fresh (w : World) : Prop :=
  forall streamId q,
    JSMap.get streamId (_pendingResponses (this w)) = Some q ->
    (q < List.length (promises w))%nat
    /\ forall streamId',
         JSMap.get streamId' (_pendingResponses (this w)) = Some q ->
         streamId' = streamId.

(** The entries of the index for the requests [ids] all point to
    stream [uuid]. *)
Definition own_entries (uuid : string) (ids : list RequestId) (w : World)
  : Prop :=
  forall id streamId,
    In (id, streamId) (JSMap.entries (_requestToStreamMapping (this w))) ->
    In id ids -> streamId = uuid.

(** The session id can no longer change: session management is
    disabled, or a session is established. *)
Definition session_settled (t : Transport) : Prop :=
  stateless_mode t \/ exists s, session_established s t.


(** [w'] is [w] after [close]: the buffer and the resolvers are gone,
    the index and the promises are as before. *)
Definition cleared (w w' : World) : Prop :=
  _requestToStreamMapping (this w') = _requestToStreamMapping (this w)
  /\ _requestResponseMap (this w') = []
  /\ _pendingResponses (this w') = []
  /\ _enableJsonResponse (this w') = _enableJsonResponse (this w)
  /\ promises w' = promises w.

(** The requests [ids] of stream [uuid] wait for their responses, of
    which [done] have been sent: the batch is pending, the resolvers
    are in order, and the index entries of [ids] are those of [uuid]. *)
Definition batch_in_flight (uuid : string) (p : PromiseRef)
  (ids : list RequestId) (done : list JSONRPCMessage) (w : World) : Prop :=
  batch_pending uuid p ids done w
  /\ pending_fresh w
  /\ own_entries uuid ids w.


End Vocabulary.

(* ------------------------------------------------------------------ *)
(** ** A concrete instance of the imports, for runs on literal inputs *)

Module Examples.

Definition quote : string := String (ascii_of_nat 34) EmptyString.

(** A printer in the manner of [JSON.stringify]; strings are quoted but
    not escaped. *)
Fixpoint stringify (j : JSON) : string :=
  match j with
  | JNull => "null"
  | JBool true => "true"
  | JBool false => "false"
  | JNumber n => NilZero.string_of_int (Z.to_int n)
  | JString s => quote ++ s ++ quote
  | JArray items =>
      "[" ++
      (fix go (l : list JSON) : string :=
         match l with
         | [] => ""
         | x :: rest =>
             stringify x ++
             match rest with [] => "" | _ => "," ++ go rest end
         end) items
      ++ "]"
  | JObject fields =>
      "{" ++
      (fix go (l : list (string * JSON)) : string :=
         match l with
         | [] => ""
         | (k, v) :: rest =>
             quote ++ k ++ quote ++ ":" ++ stringify v ++
             match rest with [] => "" | _ => "," ++ go rest end
         end) fields
      ++ "}"
  end%string.

Definition field (k : string) (j : JSON) : option JSON :=
  match j with
  | JObject fields => JSMap.get k fields
  | _ => None
  end.

Definition as_id (j : JSON) : option RequestId :=
  match j with
  | JString s => Some (IdString s)
  | JNumber n => Some (IdNumber n)
  | _ => None
  end.

Definition invalid : Exn := Thrown "ZodError: invalid JSON-RPC message".

(** A validator in the manner of [JSONRPCMessageSchema.parse]. *)
Definition schema_parse (j : JSON) : Completion JSONRPCMessage :=
  match field "jsonrpc" j with
  | Some (JString "2.0") =>
      match field "method" j, field "id" j, field "result" j,
            field "error" j with
      | Some (JString m), Some i, None, None =>
          match as_id i with
          | Some id => Ok (JSONRPCRequest id m (field "params" j))
          | None => Raise invalid
          end
      | Some (JString m), None, None, None =>
          Ok (JSONRPCNotification m (field "params" j))
      | None, Some i, Some r, None =>
          match as_id i with
          | Some id => Ok (JSONRPCResponse id r)
          | None => Raise invalid
          end
      | None, Some i, None, Some e =>
          match as_id i, field "code" e, field "message" e with
          | Some id, Some (JNumber c), Some (JString msg) =>
              Ok (JSONRPCError id c msg (field "data" e))
          | _, _, _ => Raise invalid
          end
      | _, _, _, _ => Raise invalid
      end
  | _ => Raise invalid
  end.

Definition request (id : Z) (method : string) : JSONRPCMessage :=
  JSONRPCRequest (IdNumber id) method None.

Definition result (id : Z) : JSONRPCMessage :=
  JSONRPCResponse (IdNumber id) (JObject []).

Definition notification (method : string) : JSONRPCMessage :=
  JSONRPCNotification method None.

(** The request bodies of the runs below, by name; any other body is
    not JSON. *)
Definition bodies : list (string * JSON) :=
  [("initialize", toJSON (request 1 "initialize"));
   ("call", toJSON (request 2 "tools/call"));
   ("batch", JArray [toJSON (request 1 "tools/list");
                     toJSON (request 2 "tools/call")]);
   ("same id twice", JArray [toJSON (request 1 "tools/list");
                             toJSON (request 1 "tools/call")]);
   ("notifications", JArray [toJSON (notification "ping");
                             toJSON (notification "boom");
                             toJSON (notification "pong")]);
   ("not a message", JObject [("hello", JString "world")])].

Definition parse (bodyText : string) : Completion JSON :=
  match JSMap.get bodyText bodies with
  | Some j => Ok j
  | None => Raise (Thrown "SyntaxError: Unexpected token")
  end.

Definition is_initialize (m : JSONRPCMessage) : bool :=
  match m with
  | JSONRPCRequest _ method _ => String.eqb method "initialize"
  | _ => false
  end.

Definition imports : Imports :=
  mkImports parse stringify schema_parse is_initialize.

Definition post (session : option string) : Request :=
  mkRequest "POST"
    ([("accept", "application/json, text/event-stream");
      ("content-type", "application/json")]
     ++ match session with
        | Some s => [("mcp-session-id", s)]
        | None => []
        end).

Definition get (session : option string) : Request :=
  mkRequest "GET"
    ([("accept", "text/event-stream")]
     ++ match session with
        | Some s => [("mcp-session-id", s)]
        | None => []
        end).

Definition stateless (json : bool) : EdgeStreamableHTTPTransportOptions :=
  mkOptions None None (Some json) None.

Definition stateful (json : bool) : EdgeStreamableHTTPTransportOptions :=
  mkOptions (Some (fun _ => Ok "session-1")) None (Some json) None.

(** [n] copies of the character [c]. *)
Definition replicate (n : N) (c : ascii) : string :=
  N.iter n (String c) EmptyString.

(** A handler that fails on the notification [boom]. *)
Definition failing_onmessage (m : JSONRPCMessage)
  (authInfo : option AuthInfo) (h : History) : Completion unit :=
  match m with
  | JSONRPCNotification "boom" _ => Raise (Error "handler failed")
  | _ => Ok tt
  end.

(** An event store whose replay fails. *)
Definition failing_store : EventStore :=
  mkEventStore
    (fun _ _ _ => Ok "event-1")
    (fun _ _ => ([], Raise (Error "store unavailable"))).

Definition resumable : EdgeStreamableHTTPTransportOptions :=
  mkOptions None None None (Some failing_store).

Definition resume (lastEventId : string) : Request :=
  mkRequest "GET"
    [("accept", "text/event-stream"); ("last-event-id", lastEventId)].

(** More request bodies: an initialize request that does not come
    alone, and a third request. *)
Definition more_bodies : list (string * JSON) :=
  bodies
  ++ [("initialize and ping",
       JArray [toJSON (request 1 "initialize");
               toJSON (notification "ping")]);
      ("another call", toJSON (request 3 "tools/call"))].

Definition parse_more (bodyText : string) : Completion JSON :=
  match JSMap.get bodyText more_bodies with
  | Some j => Ok j
  | None => Raise (Thrown "SyntaxError: Unexpected token")
  end.

Definition more_imports : Imports :=
  mkImports parse_more stringify schema_parse is_initialize.

(** A handler that accepts every message. *)
Definition quiet_onmessage (m : JSONRPCMessage)
  (authInfo : option AuthInfo) (h : History) : Completion unit :=
  Ok tt.

(** A session id generator that fails. *)
Definition failing_generator : EdgeStreamableHTTPTransportOptions :=
  mkOptions (Some (fun _ => Raise (Error "no entropy"))) None None None.

(** A generator that returns the empty string. *)
Definition empty_generator : EdgeStreamableHTTPTransportOptions :=
  mkOptions (Some (fun _ => Ok EmptyString)) None None None.

(** A stateful transport whose [onsessioninitialized] fails. *)
Definition failing_announcement : EdgeStreamableHTTPTransportOptions :=
  mkOptions (Some (fun _ => Ok "session-1"))
    (Some (fun _ _ => Raise (Error "registry down"))) None None.

(** An event store that replays two events of stream [uuid-1]. *)
Definition replaying_store : EventStore :=
  mkEventStore
    (fun _ _ _ => Ok "event-3")
    (fun _ _ =>
       ([("event-1", notification "progress"); ("event-2", result 2)],
        Ok "uuid-1")).

Definition replayable : EdgeStreamableHTTPTransportOptions :=
  mkOptions None None None (Some replaying_store).

Definition delete (session : option string) : Request :=
  mkRequest "DELETE"
    match session with
    | Some s => [("mcp-session-id", s)]
    | None => []
    end.

(** A body of 4 MiB + 1 bytes that is 4 MiB UTF-16 code units long:
    the letter e with an acute accent (U+00E9, in UTF-8 the two bytes
    195 and 169) followed by 4 MiB - 1 letters a.  In JavaScript:
    ["é" + "a".repeat(4 * 1024 * 1024 - 1)]. *)
Definition accented_body : string :=
  String (ascii_of_nat 195)
    (String (ascii_of_nat 169) (replicate (4 * 1024 * 1024 - 1) "a")).

End Examples.

Section ExampleRuns.

#[local] Existing Instance Examples.imports.

(** A stateful transport after its initialize POST. *)
Definition session_world : World :=
  run [Do_handleRequest (Examples.post None) "initialize" None "uuid-1"]
    (new_world (Examples.stateful false)).

(** A stateless SSE transport with the standalone GET stream open and a
    POST request in flight on stream [uuid-1]. *)
Definition two_streams_world : World :=
  run [Do_handleRequest (Examples.get None) "" None "";
       Do_handleRequest (Examples.post None) "call" None "uuid-1"]
    (new_world (Examples.stateless false)).

(** A stateless SSE transport with a batch of two requests in flight,
    the first of them answered. *)
Definition one_answered_world : World :=
  run [Do_handleRequest (Examples.post None) "batch" None "uuid-1";
       Do_send (Examples.result 1) None]
    (new_world (Examples.stateless false)).

(** A stateless transport whose [onmessage] fails on [boom]. *)
Definition failing_handler_world : World :=
  run [Do_set_onmessage (Some Examples.failing_onmessage)]
    (new_world (Examples.stateless false)).

(** A stateless SSE transport with a batch of two requests in flight,
    none of them answered. *)
Definition batch_world : World :=
  run [Do_handleRequest (Examples.post None) "batch" None "uuid-1"]
    (new_world (Examples.stateless false)).

(** A stateless transport in JSON response mode with a batch of two
    requests in flight. *)
Definition json_batch_world : World :=
  run [Do_handleRequest (Examples.post None) "batch" None "uuid-1"]
    (new_world (Examples.stateless true)).

(** A stateless transport whose [onmessage] accepts every message. *)
Definition quiet_handler_world : World :=
  run [Do_set_onmessage (Some Examples.quiet_onmessage)]
    (new_world (Examples.stateless false)).

End ExampleRuns.


(* ================================================================== *)
(** * Properties *)

(* ------------------------------------------------------------------ *)
(** ** Facts about [Map] *)

Module JSMapFacts.
Section Facts.
Context {K V : Type} `{SameValueZero K}.
Implicit Types (k : K) (v : V) (m : JSMap.t K V).

Lemma get_set_same k v m : JSMap.get k (JSMap.set k v m) = Some v.
Proof.
  induction m as [|[k' v'] m IH]; simpl.
  - destruct (same_value_zero k k); congruence.
  - destruct (same_value_zero k k') as [E|N]; simpl.
    + destruct (same_value_zero k k); congruence.
    + destruct (same_value_zero k k'); congruence.
Qed.

Lemma get_set_other k k' v m :
  k <> k' -> JSMap.get k' (JSMap.set k v m) = JSMap.get k' m.
Proof.
  intros N. induction m as [|[k0 v0] m IH]; simpl.
  - destruct (same_value_zero k' k); congruence.
  - destruct (same_value_zero k k0) as [E|N0]; simpl.
    + subst k0. destruct (same_value_zero k' k); congruence.
    + destruct (same_value_zero k' k0); congruence.
Qed.

Lemma get_delete_same k m : JSMap.get k (JSMap.delete k m) = None.
Proof.
  induction m as [|[k' v'] m IH]; simpl; auto.
  destruct (same_value_zero k k') as [E|N]; simpl; auto.
  destruct (same_value_zero k k'); congruence.
Qed.

Lemma get_delete_other k k' m :
  k <> k' -> JSMap.get k' (JSMap.delete k m) = JSMap.get k' m.
Proof.
  intros N. induction m as [|[k0 v0] m IH]; simpl; auto.
  destruct (same_value_zero k k0) as [E|N0]; simpl.
  - subst k0. destruct (same_value_zero k' k); congruence.
  - destruct (same_value_zero k' k0); congruence.
Qed.

Lemma get_delete_None k k' m :
  JSMap.get k' m = None -> JSMap.get k' (JSMap.delete k m) = None.
Proof.
  intros E. destruct (same_value_zero k k') as [->|N].
  - apply get_delete_same.
  - rewrite get_delete_other; auto.
Qed.

Lemma get_set_None k k' v m :
  JSMap.get k' (JSMap.set k v m) = None -> JSMap.get k' m = None.
Proof.
  destruct (same_value_zero k k') as [->|N].
  - rewrite get_set_same. discriminate.
  - rewrite get_set_other by exact N. auto.
Qed.

Lemma get_In k v m : JSMap.get k m = Some v -> In (k, v) m.
Proof.
  induction m as [|[k' v'] m IH]; simpl; [discriminate|].
  destruct (same_value_zero k k') as [E|N]; intros E'.
  - left. congruence.
  - right. auto.
Qed.

Lemma get_None_not_In k m :
  JSMap.get k m = None <-> ~ In k (JSMap.keys m).
Proof.
  induction m as [|[k' v'] m IH]; simpl.
  - tauto.
  - destruct (same_value_zero k k') as [E|N].
    + split; [discriminate|]. intros X. exfalso. apply X. left. auto.
    + rewrite IH. split; intros X; [intros [Y|Y]; auto; congruence|tauto].
Qed.

Lemma In_keys_get k m :
  In k (JSMap.keys m) -> exists v, JSMap.get k m = Some v.
Proof.
  intros I. destruct (JSMap.get k m) eqn:E; eauto.
  apply get_None_not_In in E. tauto.
Qed.


Lemma has_false k m : JSMap.has k m = false <-> JSMap.get k m = None.
Proof.
  unfold JSMap.has. destruct (JSMap.get k m); split; congruence.
Qed.

(** [set] on an absent key appends the entry. *)
Lemma set_absent k v m :
  JSMap.get k m = None -> JSMap.set k v m = m ++ [(k, v)].
Proof.
  induction m as [|[k' v'] m IH]; simpl; auto.
  destruct (same_value_zero k k') as [E|N]; [discriminate|].
  intros E. rewrite IH; auto.
Qed.

(** [set] never changes the order of the keys already present. *)
Lemma keys_set_present k v m :
  In k (JSMap.keys m) -> JSMap.keys (JSMap.set k v m) = JSMap.keys m.
Proof.
  induction m as [|[k' v'] m IH]; simpl; [tauto|].
  destruct (same_value_zero k k') as [E|N]; simpl; [congruence|].
  intros [X|X]; [congruence|]. f_equal. auto.
Qed.

Lemma delete_absent k m : JSMap.get k m = None -> JSMap.delete k m = m.
Proof.
  induction m as [|[k' v'] m IH]; simpl; auto.
  destruct (same_value_zero k k') as [E|N]; [discriminate|].
  intros E. f_equal. auto.
Qed.

Lemma In_delete k k' v m :
  In (k', v) (JSMap.delete k m) <-> In (k', v) m /\ k <> k'.
Proof.
  induction m as [|[k0 v0] m IH]; simpl; [tauto|].
  destruct (same_value_zero k k0) as [E|N]; simpl; rewrite IH.
  - subst k0. split; [tauto|]. intros [[X|X] Y]; [congruence|tauto].
  - split; [|tauto]. intros [X|X]; [|tauto].
    split; [tauto|]. congruence.
Qed.
End Facts.
End JSMapFacts.

(* ------------------------------------------------------------------ *)
(** ** Properties of the methods *)

Section Properties.

Context `{Imports}.

#[local] Arguments String.eqb : simpl never.

(** *** [send] to an unknown request *)

(** C9. A [send] whose effective request id is defined but is not a key
    of the request-to-stream index throws
    ["No stream found for request ID: " + String(id)] and leaves the
    whole world, hence every mapping of the transport, as it was. *)
Theorem send_unknown_request_id :
  forall (message : JSONRPCMessage) (relatedRequestId : option RequestId)
         (requestId : RequestId) (w : World),
    effective_request_id message relatedRequestId = Some requestId ->
    JSMap.get requestId (_requestToStreamMapping (this w)) = None ->
    send message relatedRequestId w =
      (Raise (Error ("No stream found for request ID: "
                     ++ String_of_RequestId requestId)%string), w).
Proof.
  intros message relatedRequestId requestId w Hid Habsent.
  unfold send. rewrite Hid.
  unfold bind, get_this. rewrite Habsent. reflexivity.
Qed.

(** *** Running a method step by step *)

Lemma bind_ok {A B : Type} (m : M A) (k : A -> M B) w a w' :
  m w = (Ok a, w') -> bind m k w = k a w'.
Proof. unfold bind. intros ->. reflexivity. Qed.

Lemma bind_raise {A B : Type} (m : M A) (k : A -> M B) w e w' :
  m w = (Raise e, w') -> bind m k w = (Raise e, w').
Proof. unfold bind. intros ->. reflexivity. Qed.

Lemma try_catch_ok {A : Type} (m : M A) (h : Exn -> M A) w a w' :
  m w = (Ok a, w') -> try_catch m h w = (Ok a, w').
Proof. unfold try_catch. intros ->. reflexivity. Qed.

Lemma try_catch_raise {A : Type} (m : M A) (h : Exn -> M A) w e w' :
  m w = (Raise e, w') -> try_catch m h w = h e w'.
Proof. unfold try_catch. intros ->. reflexivity. Qed.

(** *** Session validation *)

Lemma validateSession_verdict (request : Request) (w : World) :
  validateSession request w =
    (Ok (verdict_response (session_rules (this w) request)), w).
Proof.
  unfold validateSession, session_rules, bind, get_this, ret.
  destruct (sessionIdGenerator (this w)); [|reflexivity].
  destruct (_initialized (this w)); [|reflexivity]. simpl.
  destruct (Headers_get "mcp-session-id" (req_headers request))
    as [[|ch value]|]; simpl; try reflexivity.
  unfold same_session.
  destruct (sessionId (this w)) as [current|]; [|reflexivity].
  destruct (String.eqb (String ch value) current); reflexivity.
Qed.

Lemma content_type_is_json_truthy (request : Request) :
  content_type_is_json request = true ->
  optional_falsy (Headers_get "content-type" (req_headers request))
  || negb (optional_includes
             (Headers_get "content-type" (req_headers request))
             "application/json") = false.
Proof.
  unfold content_type_is_json.
  destruct (Headers_get "content-type" (req_headers request))
    as [[|ch s]|]; simpl; try discriminate.
  intros ->. reflexivity.
Qed.

(** A POST that passes the header and size gates runs the rest of the
    [try] block. *)
Lemma handlePostRequest_gated request body authInfo uuid w :
  accepts_json_and_event_stream request = true ->
  content_type_is_json request = true ->
  js_length body <= MAXIMUM_MESSAGE_SIZE ->
  handlePostRequest request body authInfo uuid w =
    try_catch
      (messages <- lift (parse_messages body) ;;
       early <- (if existsb isInitializeRequest messages
                 then initialize messages
                 else validateSession request) ;;
       match early with
       | Some r => ret (Returned r)
       | None => dispatch messages authInfo uuid
       end)
      (fun error => ret (Returned (parse_error_response error))) w.
Proof.
  intros Ha Hc Hl. unfold handlePostRequest.
  unfold accepts_json_and_event_stream in Ha.
  apply andb_true_iff in Ha. destruct Ha as [Ha1 Ha2].
  unfold try_catch at 1. rewrite Ha1, Ha2. simpl negb. simpl orb.
  rewrite (content_type_is_json_truthy _ Hc).
  destruct (Z.gtb_spec (js_length body) MAXIMUM_MESSAGE_SIZE); [lia|].
  reflexivity.
Qed.

(** C6. Session validation follows its rules in order — no generator:
    valid; not initialized: 400, code -32000; [Mcp-Session-Id] absent or
    empty: 400, code -32000; a value other than the current session id:
    404, code -32001; otherwise valid — and leaves the world as it was.
    A rejection is the response of a DELETE, of a GET that accepts
    [text/event-stream], and of a POST that passes the gates and holds
    no initialize request, each leaving the world as it was. *)
Theorem validateSession_rules :
  forall (request : Request) (w : World),
    validateSession request w =
      (Ok (verdict_response (session_rules (this w) request)), w)
    /\ forall r : Response,
        verdict_response (session_rules (this w) request) = Some r ->
        handleDeleteRequest request w = (Ok (Returned r), w)
        /\ (optional_includes (Headers_get "accept" (req_headers request))
              "text/event-stream" = true ->
            handleGetRequest request w = (Ok (Returned r), w))
        /\ forall body authInfo uuid messages,
            accepts_json_and_event_stream request = true ->
            content_type_is_json request = true ->
            js_length body <= MAXIMUM_MESSAGE_SIZE ->
            parse_messages body = Ok messages ->
            existsb isInitializeRequest messages = false ->
            handlePostRequest request body authInfo uuid w =
              (Ok (Returned r), w).
Proof.
  intros request w. split; [apply validateSession_verdict|].
  intros r Hr. repeat split.
  - unfold handleDeleteRequest.
    erewrite bind_ok by apply validateSession_verdict.
    rewrite Hr. reflexivity.
  - intros Ha. unfold handleGetRequest. rewrite Ha.
    change (negb true) with false. cbv iota.
    erewrite bind_ok by apply validateSession_verdict.
    rewrite Hr. reflexivity.
  - intros body authInfo uuid messages Ha Hc Hl Hp Hi.
    rewrite handlePostRequest_gated by assumption.
    apply try_catch_ok.
    erewrite bind_ok by (unfold lift; rewrite Hp; reflexivity).
    rewrite Hi.
    erewrite bind_ok by apply validateSession_verdict.
    rewrite Hr. reflexivity.
Qed.

(** *** The gates of a POST *)

Lemma parse_all_fails before j after cause :
  (forall x, In x before ->
     exists m, JSONRPCMessageSchema_parse x = Ok m) ->
  JSONRPCMessageSchema_parse j = Raise cause ->
  parse_all (before ++ j :: after) = Raise cause.
Proof.
  intros Hb Hj. induction before as [|x before IH]; simpl.
  - rewrite Hj. reflexivity.
  - destruct (Hb x) as [m Hm]; [left; reflexivity|]. rewrite Hm.
    rewrite IH; [reflexivity|]. intros y Hy. apply Hb. right. exact Hy.
Qed.

Lemma parse_messages_fails body cause :
  JSON_parse body = Raise cause
  \/ (exists raw, JSON_parse body = Ok raw /\ validation_fails raw cause) ->
  parse_messages body = Raise cause.
Proof.
  unfold parse_messages. intros [E|[raw [E V]]]; rewrite E; [reflexivity|].
  destruct raw; simpl in V; try (rewrite V; reflexivity).
  destruct V as (before & j & after & -> & Hb & Hj).
  apply parse_all_fails; assumption.
Qed.

Lemma error_response_shape st code message :
  jsonrpc_error (error_response st code message) st code message None.
Proof. unfold jsonrpc_error. simpl. auto. Qed.

Lemma parse_error_response_shape cause :
  jsonrpc_error (parse_error_response cause) 400 (-32700) "Parse error"
    (Some (JString (String_of_exn cause))).
Proof. unfold jsonrpc_error. simpl. auto. Qed.

(** X29. The gates of a POST, in order, each failure answering at once
    and leaving the world as it was: [Accept] must include both
    [application/json] and [text/event-stream], else 406 with code
    -32000; [Content-Type] must include [application/json], else 415
    with code -32000; the length of the body, counted in UTF-16 code
    units as [bodyText.length] does, must be at most 4 * 1024 * 1024,
    else 413 with code -32000, so a body of 4 * 1024 * 1024 + 1 code
    units yields 413; the body must parse as JSON and every element
    must validate as a JSON-RPC message, else 400 with code -32700,
    message "Parse error" and the stringified cause as error data. *)
Theorem post_gates_in_order :
  forall (request : Request) (body : string) (authInfo : option AuthInfo)
         (uuid : string) (w : World),
    (accepts_json_and_event_stream request = false ->
     exists r,
       handlePostRequest request body authInfo uuid w = (Ok (Returned r), w)
       /\ jsonrpc_error r 406 (-32000)
            "Not Acceptable: Client must accept both application/json and text/event-stream"
            None)
    /\ (accepts_json_and_event_stream request = true ->
        content_type_is_json request = false ->
        exists r,
          handlePostRequest request body authInfo uuid w =
            (Ok (Returned r), w)
          /\ jsonrpc_error r 415 (-32000)
               "Unsupported Media Type: Content-Type must be application/json"
               None)
    /\ (accepts_json_and_event_stream request = true ->
        content_type_is_json request = true ->
        MAXIMUM_MESSAGE_SIZE < js_length body ->
        exists r,
          handlePostRequest request body authInfo uuid w =
            (Ok (Returned r), w)
          /\ jsonrpc_error r 413 (-32000) "Request too large" None)
    /\ (accepts_json_and_event_stream request = true ->
        content_type_is_json request = true ->
        js_length body = 4 * 1024 * 1024 + 1 ->
        exists r,
          handlePostRequest request body authInfo uuid w =
            (Ok (Returned r), w)
          /\ status r = 413)
    /\ (accepts_json_and_event_stream request = true ->
        content_type_is_json request = true ->
        js_length body <= MAXIMUM_MESSAGE_SIZE ->
        forall cause : Exn,
          JSON_parse body = Raise cause
          \/ (exists raw,
                JSON_parse body = Ok raw /\ validation_fails raw cause) ->
          exists r,
            handlePostRequest request body authInfo uuid w =
              (Ok (Returned r), w)
            /\ jsonrpc_error r 400 (-32700) "Parse error"
                 (Some (JString (String_of_exn cause)))).
Proof.
  intros request body authInfo uuid w.
  assert (G413 : accepts_json_and_event_stream request = true ->
                 content_type_is_json request = true ->
                 MAXIMUM_MESSAGE_SIZE < js_length body ->
                 handlePostRequest request body authInfo uuid w =
                   (Ok (Returned
                          (error_response 413 (-32000) "Request too large")),
                    w)).
  { intros Ha Hc Hl. unfold handlePostRequest.
    unfold accepts_json_and_event_stream in Ha.
    apply andb_true_iff in Ha. destruct Ha as [Ha1 Ha2].
    apply try_catch_ok. rewrite Ha1, Ha2.
    change (negb true || negb true) with false. cbv iota.
    rewrite (content_type_is_json_truthy _ Hc).
    destruct (Z.gtb_spec (js_length body) MAXIMUM_MESSAGE_SIZE); [|lia].
    reflexivity. }
  repeat split.
  - intros Ha. eexists. split; [|apply error_response_shape].
    unfold handlePostRequest. apply try_catch_ok.
    unfold accepts_json_and_event_stream in Ha.
    apply andb_false_iff in Ha.
    destruct Ha as [-> | ->]; [reflexivity|].
    rewrite orb_true_r. reflexivity.
  - intros Ha Hc. eexists. split; [|apply error_response_shape].
    unfold handlePostRequest. apply try_catch_ok.
    unfold accepts_json_and_event_stream in Ha.
    apply andb_true_iff in Ha. destruct Ha as [Ha1 Ha2].
    rewrite Ha1, Ha2. change (negb true || negb true) with false. cbv iota.
    unfold content_type_is_json in Hc. rewrite Hc.
    rewrite orb_true_r. reflexivity.
  - intros Ha Hc Hl. eexists. split; [|apply error_response_shape].
    apply G413; assumption.
  - intros Ha Hc Hl. eexists. split; [apply G413; auto|reflexivity].
    rewrite Hl. unfold MAXIMUM_MESSAGE_SIZE. lia.
  - intros Ha Hc Hl cause Hcause.
    eexists. split; [|apply parse_error_response_shape].
    rewrite handlePostRequest_gated by assumption.
    erewrite try_catch_raise; [reflexivity|].
    apply bind_raise. unfold lift.
    rewrite (parse_messages_fails _ _ Hcause). reflexivity.
Qed.

(** *** Dispatch of a payload without requests *)

Lemma call_onmessage_returns authInfo cb m w :
  onmessage (this w) = Some cb ->
  cb m authInfo (history w) = Ok tt ->
  call_onmessage authInfo m w =
    (Ok tt, with_history (history w ++ [Call_onmessage m authInfo]) w).
Proof.
  intros Hcb Hok. unfold call_onmessage, bind, get_this, invoke.
  rewrite Hcb, Hok. reflexivity.
Qed.

Lemma call_onmessage_throws authInfo cb m cause w :
  onmessage (this w) = Some cb ->
  cb m authInfo (history w) = Raise cause ->
  call_onmessage authInfo m w =
    (Raise cause,
     with_history (history w ++ [Call_onmessage m authInfo]) w).
Proof.
  intros Hcb Hok. unfold call_onmessage, bind, get_this, invoke.
  rewrite Hcb, Hok. reflexivity.
Qed.

Lemma for_each_onmessage_throws authInfo cb before m after cause :
  forall w,
    onmessage (this w) = Some cb ->
    (forall done x rest,
       before = done ++ x :: rest ->
       cb x authInfo (history w ++ calls_onmessage authInfo done) = Ok tt) ->
    cb m authInfo (history w ++ calls_onmessage authInfo before)
      = Raise cause ->
    for_each (call_onmessage authInfo) (before ++ m :: after) w =
      (Raise cause,
       with_history
         (history w ++ calls_onmessage authInfo (before ++ [m])) w).
Proof.
  induction before as [|x before IH]; intros w Hcb Hbefore Hm.
  - simpl in *. rewrite app_nil_r in Hm.
    erewrite bind_raise; [reflexivity|].
    eapply call_onmessage_throws; eassumption.
  - simpl app. simpl for_each.
    erewrite bind_ok.
    2:{ eapply call_onmessage_returns; [eassumption|].
        specialize (Hbefore [] x before eq_refl).
        simpl in Hbefore. rewrite app_nil_r in Hbefore. exact Hbefore. }
    rewrite IH.
    + simpl. rewrite <- app_assoc. reflexivity.
    + exact Hcb.
    + intros done y rest E. simpl. rewrite <- app_assoc.
      apply (Hbefore (x :: done) y rest). simpl. congruence.
    + simpl. rewrite <- app_assoc. exact Hm.
Qed.

(** C10. A POST passes every gate and its payload holds no request.
    If [onmessage] throws [cause] at some message, having returned for
    the messages before it, the POST does not answer 202: it answers
    400 with code -32700, message "Parse error" and [String(cause)] as
    data, and [onmessage] has been called for the messages up to and
    including the one that threw. *)
Theorem onmessage_throw_is_parse_error :
  forall (request : Request) (body : string) (authInfo : option AuthInfo)
         (uuid : string) (w w1 : World) (messages : list JSONRPCMessage)
         (cb : JSONRPCMessage -> option AuthInfo -> History
               -> Completion unit)
         (before after : list JSONRPCMessage) (m : JSONRPCMessage)
         (cause : Exn),
    accepts_json_and_event_stream request = true ->
    content_type_is_json request = true ->
    js_length body <= MAXIMUM_MESSAGE_SIZE ->
    parse_messages body = Ok messages ->
    (if existsb isInitializeRequest messages then initialize messages
     else validateSession request) w = (Ok None, w1) ->
    existsb isJSONRPCRequest messages = false ->
    onmessage (this w1) = Some cb ->
    messages = before ++ m :: after ->
    (forall done x rest,
       before = done ++ x :: rest ->
       cb x authInfo (history w1 ++ calls_onmessage authInfo done)
         = Ok tt) ->
    cb m authInfo (history w1 ++ calls_onmessage authInfo before)
      = Raise cause ->
    exists r,
      handlePostRequest request body authInfo uuid w =
        (Ok (Returned r),
         with_history
           (history w1 ++ calls_onmessage authInfo (before ++ [m])) w1)
      /\ jsonrpc_error r 400 (-32700) "Parse error"
           (Some (JString (String_of_exn cause)))
      /\ status r <> 202.
Proof.
  intros request body authInfo uuid w w1 messages cb before after m cause
    Ha Hc Hl Hp Hgate Hreq Hcb Hsplit Hbefore Hm.
  exists (parse_error_response cause).
  split; [|split; [apply parse_error_response_shape|discriminate]].
  rewrite handlePostRequest_gated by assumption.
  erewrite try_catch_raise; [reflexivity|].
  erewrite bind_ok by (unfold lift; rewrite Hp; reflexivity).
  erewrite bind_ok by exact Hgate.
  unfold dispatch. rewrite Hreq. change (negb false) with true. cbv iota.
  apply bind_raise. subst messages.
  eapply for_each_onmessage_throws; eassumption.
Qed.

(** *** [close] *)

Lemma with_streams_same w : with_streams (streams w) w = w.
Proof. destruct w. reflexivity. Qed.

Lemma close_one c w :
  try_catch (controller_close c) (fun _error => ret tt) w =
    (Ok tt, with_streams (close_stream c (streams w)) w).
Proof.
  unfold try_catch, controller_close, close_stream, ret.
  destruct (nth_error (streams w) c) as [s|].
  - destruct (closed s); [|reflexivity].
    rewrite with_streams_same. reflexivity.
  - rewrite with_streams_same. reflexivity.
Qed.

Lemma close_each (l : list (string * Controller)) :
  forall w,
    for_each
      (fun '(_, controller) =>
         try_catch (controller_close controller) (fun _error => ret tt))
      l w =
      (Ok tt, with_streams (close_streams (map snd l) (streams w)) w).
Proof.
  induction l as [|[sid c] l IH]; intros w; simpl.
  - unfold ret. rewrite with_streams_same. reflexivity.
  - erewrite bind_ok by apply close_one. rewrite IH. reflexivity.
Qed.

(** What [close] does to the world. *)
Lemma close_world w :
  close w =
    (match onclose (this w) with
     | Some cb => cb (history w)
     | None => Ok tt
     end,
     mkWorld
       (set_pendingResponses []
          (set_requestResponseMap []
             (set_streamMapping [] (this w))))
       (close_streams (map snd (_streamMapping (this w))) (streams w))
       (promises w) (timers w)
       (match onclose (this w) with
        | Some _ => history w ++ [Call_onclose]
        | None => history w
        end)).
Proof.
  unfold close. unfold bind at 1. unfold get_this at 1.
  erewrite bind_ok by apply close_each.
  unfold bind, update_this, get_this, invoke, ret. simpl.
  destruct (onclose (this w)); reflexivity.
Qed.

(** C1. After [close], whether it returned or [onclose] threw: the
    stream registry, the request-to-response buffer and the pending JSON
    resolvers are empty; [onclose], when set, has been called once, and
    [close] ends as that call ends; the session id and the initialized
    flag are what they were before. *)
Theorem close_clears_mappings :
  forall w : World,
    _streamMapping (this (snd (close w))) = []
    /\ _requestResponseMap (this (snd (close w))) = []
    /\ _pendingResponses (this (snd (close w))) = []
    /\ sessionId (this (snd (close w))) = sessionId (this w)
    /\ _initialized (this (snd (close w))) = _initialized (this w)
    /\ match onclose (this w) with
       | Some cb =>
           history (snd (close w)) = history w ++ [Call_onclose]
           /\ fst (close w) = cb (history w)
       | None =>
           history (snd (close w)) = history w /\ fst (close w) = Ok tt
       end.
Proof.
  intros w. rewrite close_world. simpl.
  destruct (onclose (this w)); auto 10.
Qed.

Lemma nth_error_list_update_other {A : Type} (l : list A) n m x :
  n <> m -> nth_error (list_update n x l) m = nth_error l m.
Proof.
  revert n m. induction l as [|y l IH]; intros [|n] [|m] N; simpl; auto;
    congruence.
Qed.

Lemma nth_error_list_update_same {A : Type} (l : list A) n x y :
  nth_error l n = Some y -> nth_error (list_update n x l) n = Some x.
Proof.
  revert n. induction l as [|z l IH]; intros [|n]; simpl;
    try discriminate; auto.
Qed.

Lemma close_stream_at c c' ss s :
  nth_error ss c' = Some s ->
  exists s',
    nth_error (close_stream c ss) c' = Some s'
    /\ queue s' = queue s
    /\ (closed s = true \/ c = c' -> closed s' = true).
Proof.
  intros Hs. unfold close_stream.
  destruct (Nat.eq_dec c c') as [->|N].
  - rewrite Hs. destruct (closed s) eqn:Hc.
    + exists s. auto.
    + exists (mkSSEStream true (queue s)).
      rewrite (nth_error_list_update_same _ _ _ _ Hs). auto.
  - destruct (nth_error ss c) as [sc|] eqn:Hsc.
    + destruct (closed sc).
      * exists s. intuition congruence.
      * exists s. rewrite nth_error_list_update_other by exact N.
        intuition congruence.
    + exists s. intuition congruence.
Qed.

Lemma close_streams_at cs :
  forall c' ss s,
    nth_error ss c' = Some s ->
    exists s',
      nth_error (close_streams cs ss) c' = Some s'
      /\ queue s' = queue s
      /\ (closed s = true \/ In c' cs -> closed s' = true).
Proof.
  induction cs as [|c cs IH]; intros c' ss s Hs; simpl.
  - exists s. intuition.
  - destruct (close_stream_at c c' ss s Hs) as (s1 & H1 & Q1 & C1).
    destruct (IH c' _ s1 H1) as (s2 & H2 & Q2 & C2).
    exists s2. split; [exact H2|]. split; [congruence|].
    intros [Hc|[->|Hin]]; apply C2; auto.
Qed.

(** [close] closes every stream that was registered, and keeps what was
    enqueued on it. *)
Lemma close_closes_registered w streamId c s :
  JSMap.get streamId (_streamMapping (this w)) = Some c ->
  nth_error (streams w) c = Some s ->
  exists s',
    nth_error (streams (snd (close w))) c = Some s'
    /\ closed s' = true
    /\ queue s' = queue s.
Proof.
  intros Hget Hs. rewrite close_world. simpl.
  destruct (close_streams_at
              (map snd (_streamMapping (this w))) c (streams w) s Hs)
    as (s' & H' & Q & C).
  exists s'. split; [exact H'|]. split; [|exact Q].
  apply C. right. apply JSMapFacts.get_In in Hget.
  apply in_map_iff. exists (streamId, c). auto.
Qed.

(** *** The cancel hook *)

(** The hook deregisters the standalone stream id, whichever stream it
    belongs to. *)
Lemma cancel_hook_world w :
  cancel_hook w =
    (Ok tt,
     with_this
       (set_streamMapping
          (JSMap.delete _standaloneSseStreamId (_streamMapping (this w)))
          (this w)) w).
Proof. reflexivity. Qed.

Lemma cancel_hook_keeps_others w (streamId : string) :
  streamId <> _standaloneSseStreamId ->
  JSMap.get streamId (_streamMapping (this (snd (cancel_hook w)))) =
  JSMap.get streamId (_streamMapping (this w)).
Proof.
  intros N. rewrite cancel_hook_world. simpl.
  apply JSMapFacts.get_delete_other. congruence.
Qed.

(** *** The shape of error responses *)

Lemma yields_ret {A : Type} (a : A) (P : A -> Prop) :
  P a -> yields (ret a) P.
Proof. intros Pa w a' w' E. inversion E. subst. exact Pa. Qed.

Lemma yields_throw {A : Type} (e : Exn) (P : A -> Prop) :
  yields (throw e) P.
Proof. intros w a' w' E. inversion E. Qed.

Lemma yields_bind {A B : Type} (m : M A) (k : A -> M B)
  (Q : A -> Prop) (P : B -> Prop) :
  yields m Q -> (forall a, Q a -> yields (k a) P) -> yields (bind m k) P.
Proof.
  intros Hm Hk w b w' E. unfold bind in E.
  destruct (m w) as [[a|e] w1] eqn:Em; [|inversion E].
  eapply Hk; [|exact E]. eapply Hm. exact Em.
Qed.

Lemma yields_any {A : Type} (m : M A) : yields m (fun _ => True).
Proof. intros w a w' E. exact I. Qed.

Lemma yields_try_catch {A : Type} (m : M A) (h : Exn -> M A)
  (P : A -> Prop) :
  yields m P -> (forall e, yields (h e) P) -> yields (try_catch m h) P.
Proof.
  intros Hm Hh w a w' E. unfold try_catch in E.
  destruct (m w) as [[a0|e] w1] eqn:Em.
  - inversion E. subst. eapply Hm. exact Em.
  - eapply Hh. exact E.
Qed.

Lemma error_response_envelope st code message :
  In code [-32000; -32001; -32600; -32700] ->
  has_error_envelope (error_response st code message).
Proof. intros Hc. exists code, message, None. split; [reflexivity|exact Hc]. Qed.

Lemma parse_error_response_envelope cause :
  has_error_envelope (parse_error_response cause).
Proof.
  exists (-32700), "Parse error", (Some (JString (String_of_exn cause))).
  split; [reflexivity|]. simpl. auto.
Qed.

Ltac envelope :=
  first [ apply error_response_envelope; simpl; tauto
        | apply parse_error_response_envelope ].

Lemma validateSession_rejection request :
  yields (validateSession request) rejection.
Proof.
  intros w a w' E. rewrite validateSession_verdict in E.
  inversion E; subst; clear E.
  unfold session_rules.
  destruct (sessionIdGenerator (this w')); simpl; auto.
  destruct (_initialized (this w')); simpl; [|envelope].
  destruct (Headers_get "mcp-session-id" (req_headers request))
    as [[|ch value]|]; simpl; try envelope.
  destruct (same_session (String ch value) (sessionId (this w')));
    simpl; [auto|envelope].
Qed.

Lemma initialize_rejection messages :
  yields (initialize messages) rejection.
Proof.
  unfold initialize.
  eapply yields_bind; [apply yields_any|]. intros t _.
  destruct (_initialized t
            && match sessionId t with Some _ => true | None => false end).
  { apply yields_ret. simpl. envelope. }
  destruct (1 <? List.length messages)%nat.
  { apply yields_ret. simpl. envelope. }
  repeat (eapply yields_bind; [apply yields_any|]; intros ? _).
  apply yields_ret. exact I.
Qed.

Lemma dispatch_enveloped messages authInfo uuid :
  yields (dispatch messages authInfo uuid) enveloped_reply.
Proof.
  unfold dispatch.
  destruct (negb (existsb isJSONRPCRequest messages)).
  { eapply yields_bind; [apply yields_any|]. intros _ _.
    apply yields_ret. left. unfold successful. simpl. lia. }
  eapply yields_bind; [apply yields_any|]. intros t _.
  destruct (negb (_enableJsonResponse t));
    repeat (eapply yields_bind; [apply yields_any|]; intros ? _);
    apply yields_ret; simpl; auto.
  left. unfold successful. simpl. lia.
Qed.

Lemma handlePostRequest_enveloped request body authInfo uuid :
  yields (handlePostRequest request body authInfo uuid) enveloped_reply.
Proof.
  unfold handlePostRequest. apply yields_try_catch.
  - cbv zeta.
    destruct (negb _ || negb _).
    { apply yields_ret. right. envelope. }
    destruct (optional_falsy _ || negb _).
    { apply yields_ret. right. envelope. }
    destruct (js_length body >? MAXIMUM_MESSAGE_SIZE).
    { apply yields_ret. right. envelope. }
    eapply yields_bind; [apply yields_any|]. intros messages _.
    eapply yields_bind with (Q := rejection).
    { destruct (existsb isInitializeRequest messages);
        [apply initialize_rejection|apply validateSession_rejection]. }
    intros [r|] Hr.
    + apply yields_ret. right. exact Hr.
    + apply dispatch_enveloped.
  - intros e. apply yields_ret. right. envelope.
Qed.

(** Turn a goal about one run of [m] into a goal about all of them. *)
Ltac by_yields :=
  match goal with
  | |- ?m ?w = (Ok ?a, ?w') -> ?P ?a =>
      refine ((_ : yields m P) w a w')
  end.

Ltac skip_steps :=
  repeat (eapply yields_bind; [apply yields_any|]; intros ? _).

Lemma replayEvents_well_formed lastEventId store w reply w' :
  _eventStore (this w) = Some store ->
  replayEvents lastEventId w = (Ok reply, w') ->
  well_formed_reply reply.
Proof.
  intros Hs. unfold replayEvents. unfold bind at 1. unfold get_this at 1.
  rewrite Hs. by_yields.
  apply yields_try_catch.
  - skip_steps. apply yields_ret. left. unfold successful. simpl. lia.
  - intros e. skip_steps. apply yields_ret. right. right. reflexivity.
Qed.

Lemma handleGetRequest_well_formed request :
  yields (handleGetRequest request) well_formed_reply.
Proof.
  intros w reply w'. unfold handleGetRequest.
  destruct (negb _).
  { intros E. inversion E. subst. right. left. envelope. }
  erewrite bind_ok by apply validateSession_verdict.
  pose proof (validateSession_rejection request w _ _
                (validateSession_verdict request w)) as Hr.
  destruct (verdict_response (session_rules (this w) request)) as [r|].
  { intros E. inversion E. subst. right. left. exact Hr. }
  unfold bind at 1. unfold get_this at 1.
  destruct (match _eventStore (this w) with
            | Some _ => optional_truthy _
            | None => None
            end) as [lastEventId|] eqn:Hresume.
  { destruct (_eventStore (this w)) as [store|] eqn:Hs; [|discriminate].
    apply replayEvents_well_formed with (store := store). exact Hs. }
  destruct (JSMap.has _ _).
  { intros E. inversion E. subst. right. left. envelope. }
  by_yields. skip_steps.
  apply yields_ret. left. unfold successful. simpl. lia.
Qed.

Lemma handleDeleteRequest_enveloped request :
  yields (handleDeleteRequest request) enveloped_reply.
Proof.
  unfold handleDeleteRequest.
  eapply yields_bind; [apply validateSession_rejection|].
  intros [r|] Hr.
  - apply yields_ret. right. exact Hr.
  - eapply yields_bind; [apply yields_any|]. intros _ _.
    apply yields_ret. left. unfold successful. simpl. lia.
Qed.

(** C8. Every response of [handleRequest] whose status is not 2xx
    either has a body of the shape [{ jsonrpc: "2.0", error: { code,
    message, data? }, id: null }] with a code among -32000, -32001,
    -32600 and -32700, or is the 500 of a failed replay, whose body is
    the text "Internal Server Error"; the latter only answers a GET. *)
Theorem error_responses_are_enveloped :
  forall (request : Request) (body : string) (authInfo : option AuthInfo)
         (uuid : string) (w w' : World) (r : Response),
    handleRequest request body authInfo uuid w = (Ok (Returned r), w') ->
    ~ successful r ->
    has_error_envelope r
    \/ (r = replay_failure /\ req_method request = "GET").
Proof.
  intros request body authInfo uuid w w' r E Hns.
  unfold handleRequest in E. cbv zeta in E.
  destruct (String.eqb (req_method request) "POST").
  { apply handlePostRequest_enveloped in E. simpl in E. tauto. }
  destruct (String.eqb (req_method request) "GET") eqn:Eget.
  { apply handleGetRequest_well_formed in E. simpl in E.
    apply String.eqb_eq in Eget. tauto. }
  destruct (String.eqb (req_method request) "DELETE").
  { apply handleDeleteRequest_enveloped in E. simpl in E. tauto. }
  unfold handleUnsupportedRequest, ret in E. inversion E; subst.
  left. exists (-32000), "Method not allowed.", None.
  split; [reflexivity|]. simpl. auto.
Qed.

(** *** [send]: recording a response *)

Lemma cleanup_loop (ids : list RequestId) :
  forall w,
    for_each
      (fun id =>
         update_this (fun t =>
           set_requestResponseMap
             (JSMap.delete id (_requestResponseMap t)) t) ;;
         update_this (fun t =>
           set_requestToStreamMapping
             (JSMap.delete id (_requestToStreamMapping t)) t))
      ids w =
      (Ok tt, with_this (cleanup ids (this w)) w).
Proof.
  induction ids as [|id ids IH]; intros w.
  - destruct w as [[] ? ? ? ?]. reflexivity.
  - simpl for_each. unfold bind at 1. unfold bind at 1.
    unfold update_this at 1 2. rewrite IH. reflexivity.
Qed.

Lemma resolve_world p r w :
  resolve p r w = (Ok tt, with_promises (settle p r (promises w)) w).
Proof.
  unfold resolve, settle.
  destruct (nth_error (promises w) p) as [[|]|]; try reflexivity;
    destruct w; reflexivity.
Qed.

Lemma record_response_world requestId streamId controller message w :
  record_response requestId streamId controller message w =
    (Ok tt, recorded requestId streamId controller message w).
Proof.
  unfold record_response, recorded.
  erewrite bind_ok by reflexivity.
  erewrite bind_ok by reflexivity.
  cbv zeta. cbn [this with_this].
  set (t := set_requestResponseMap _ (this w)).
  destruct (forallb _ _); [|reflexivity].
  destruct (_enableJsonResponse t) eqn:Ej.
  - destruct (JSMap.get streamId (_pendingResponses t)) as [p|] eqn:Ep.
    + erewrite bind_ok.
      2:{ erewrite bind_ok by apply resolve_world. reflexivity. }
      erewrite bind_ok by apply cleanup_loop.
      unfold update_this, completed. rewrite Ej. reflexivity.
    + erewrite bind_ok by reflexivity.
      erewrite bind_ok by apply cleanup_loop.
      unfold update_this, completed. rewrite Ej.
      rewrite (JSMapFacts.delete_absent _ _ Ep).
      destruct w as [[] ? ? ? ?]. reflexivity.
  - destruct controller as [c|].
    + erewrite bind_ok by apply close_one.
      erewrite bind_ok by apply cleanup_loop.
      unfold update_this, completed. rewrite Ej. reflexivity.
    + erewrite bind_ok by reflexivity.
      erewrite bind_ok by apply cleanup_loop.
      unfold update_this, completed. rewrite Ej.
      destruct w as [[] ? ? ? ?]. reflexivity.
Qed.

Lemma recorded_transport requestId streamId controller message w :
  this (recorded requestId streamId controller message w) =
    recorded_this requestId streamId message (this w).
Proof.
  unfold recorded, recorded_this. cbv zeta.
  destruct (forallb _ _); reflexivity.
Qed.

(** *** [send]: delivering a message *)

Lemma same_transport_refl w : same_transport w w.
Proof. unfold same_transport. auto. Qed.

Lemma same_transport_trans w1 w2 w3 :
  same_transport w1 w2 -> same_transport w2 w3 -> same_transport w1 w3.
Proof. unfold same_transport. intuition congruence. Qed.

Lemma call_onerror_frame error w :
  same_transport w (snd (call_onerror error w)).
Proof.
  unfold call_onerror, bind, get_this, invoke, ret, same_transport.
  destruct (onerror (this w)); simpl; auto.
Qed.

Lemma controller_enqueue_frame c chunk w :
  same_transport w (snd (controller_enqueue c chunk w)).
Proof.
  unfold controller_enqueue, same_transport.
  destruct (nth_error (streams w) c) as [s|];
    [destruct (closed s)|]; simpl; auto.
Qed.

Lemma writeSSEEvent_frame c message eventId w :
  same_transport w (snd (writeSSEEvent c message eventId w)).
Proof.
  unfold writeSSEEvent. cbv zeta. unfold try_catch.
  match goal with
  | |- context [controller_enqueue c ?chunk w] =>
      pose proof (controller_enqueue_frame c chunk w) as F;
      destruct (controller_enqueue c chunk w) as [[[]|e] w1]
  end; simpl in *; auto.
  eapply same_transport_trans; [exact F|apply call_onerror_frame].
Qed.

Lemma store_event_frame t streamId message w :
  same_transport w (snd (store_event t streamId message w)).
Proof.
  unfold store_event, bind, invoke, ret, same_transport.
  destruct (_eventStore t) as [store|]; [|simpl; auto].
  destruct (storeEvent store (history w) streamId message); simpl; auto.
Qed.

(** The write of [send] onto the stream of a request. *)
Lemma deliver_frame t (target : option Controller) streamId message w :
  same_transport w
    (snd (match target with
          | Some c =>
              eventId <- store_event t streamId message ;;
              writeSSEEvent c message eventId
          | None => ret tt
          end w)).
Proof.
  destruct target as [c|]; [|apply same_transport_refl].
  unfold bind.
  pose proof (store_event_frame t streamId message w) as F.
  destruct (store_event t streamId message w) as [[eventId|e] w1];
    simpl in *; auto.
  eapply same_transport_trans; [exact F|apply writeSSEEvent_frame].
Qed.

(** A [send] that throws leaves the transport object as it was. *)
Lemma send_throws message relatedRequestId w e w' :
  send message relatedRequestId w = (Raise e, w') ->
  same_transport w w'.
Proof.
  unfold send.
  destruct (effective_request_id message relatedRequestId) as [requestId|].
  - unfold bind at 1. unfold get_this at 1.
    destruct (optional_truthy _) as [streamId|].
    + cbv zeta. unfold bind at 1.
      match goal with
      | |- context [match ?target with Some c => @?k c | None => ret tt end w]
        => pose proof (deliver_frame (this w) target streamId message w) as F
      end.
      match type of F with
      | same_transport _ (snd ?x) => destruct x as [[[]|e1] w1]
      end; simpl in F.
      * destruct (terminal message).
        -- rewrite record_response_world. discriminate.
        -- discriminate.
      * intros E. inversion E. subst. exact F.
    + intros E. inversion E. apply same_transport_refl.
  - destruct (terminal message).
    + intros E. inversion E. apply same_transport_refl.
    + unfold bind at 1. unfold get_this at 1.
      destruct (JSMap.get _ _) as [c|].
      * intros E.
        pose proof (deliver_frame (this w) (Some c) _standaloneSseStreamId
                      message w) as F.
        cbv iota in F. rewrite E in F. exact F.
      * discriminate.
Qed.

(** A [send] for a known request that returns has written the message
    (in SSE mode, onto a registered stream) and, for a response or an
    error, recorded it. *)
Lemma send_returns message relatedRequestId requestId w w' :
  effective_request_id message relatedRequestId = Some requestId ->
  send message relatedRequestId w = (Ok tt, w') ->
  exists streamId w1,
    optional_truthy
      (JSMap.get requestId (_requestToStreamMapping (this w)))
      = Some streamId
    /\ same_transport w w1
    /\ w' = if terminal message
            then recorded requestId streamId
                   (JSMap.get streamId (_streamMapping (this w))) message w1
            else w1.
Proof.
  intros Hid. unfold send. rewrite Hid.
  unfold bind at 1. unfold get_this at 1.
  destruct (optional_truthy _) as [streamId|]; [|discriminate].
  cbv zeta. unfold bind at 1.
  match goal with
  | |- context [match ?target with Some c => @?k c | None => ret tt end w]
    => pose proof (deliver_frame (this w) target streamId message w) as F
  end.
  match type of F with
  | same_transport _ (snd ?x) => destruct x as [[[]|e1] w1]
  end; simpl in F; [|discriminate].
  intros E. exists streamId, w1. split; [reflexivity|]. split; [exact F|].
  destruct (terminal message).
  - rewrite record_response_world in E. inversion E. reflexivity.
  - inversion E. reflexivity.
Qed.

(** In JSON response mode a [send] for a known request writes nothing,
    so it always returns. *)
Lemma send_json message relatedRequestId requestId streamId w :
  _enableJsonResponse (this w) = true ->
  effective_request_id message relatedRequestId = Some requestId ->
  optional_truthy (JSMap.get requestId (_requestToStreamMapping (this w)))
    = Some streamId ->
  send message relatedRequestId w =
    (Ok tt,
     if terminal message
     then recorded requestId streamId
            (JSMap.get streamId (_streamMapping (this w))) message w
     else w).
Proof.
  intros Hj Hid Hs. unfold send. rewrite Hid.
  unfold bind at 1. unfold get_this at 1. rewrite Hs, Hj. cbv zeta.
  erewrite bind_ok by reflexivity.
  destruct (terminal message); [|reflexivity].
  apply record_response_world.
Qed.

(** The transport object after a [send], however it ends. *)
Lemma send_transport message relatedRequestId w :
  this (snd (send message relatedRequestId w)) = this w
  \/ exists requestId streamId,
       effective_request_id message relatedRequestId = Some requestId
       /\ optional_truthy
            (JSMap.get requestId (_requestToStreamMapping (this w)))
            = Some streamId
       /\ terminal message = true
       /\ this (snd (send message relatedRequestId w)) =
            recorded_this requestId streamId message (this w).
Proof.
  destruct (send message relatedRequestId w) as [[[]|e] w'] eqn:E.
  - destruct (effective_request_id message relatedRequestId)
      as [requestId|] eqn:Hid.
    + destruct (send_returns _ _ _ _ _ Hid E)
        as (streamId & w1 & Hs & (F & _) & ->).
      destruct (terminal message) eqn:Ht.
      * right. exists requestId, streamId. repeat split; auto.
        simpl. rewrite recorded_transport, F. reflexivity.
      * left. exact F.
    + left. unfold send in E. rewrite Hid in E.
      destruct (terminal message); [discriminate|].
      unfold bind at 1 in E. unfold get_this at 1 in E.
      destruct (JSMap.get _ _) as [c|].
      * pose proof (deliver_frame (this w) (Some c) _standaloneSseStreamId
                      message w) as F.
        cbv iota in F. rewrite E in F. apply F.
      * inversion E. reflexivity.
  - left. apply (send_throws _ _ _ _ _ E).
Qed.

(** *** Invariants of the transport object *)

Section Preservation.

Variable I : Transport -> Prop.

Lemma preserves_ret {A : Type} (a : A) : preserves I (ret a).
Proof. intros w Hw. exact Hw. Qed.

Lemma preserves_throw {A : Type} (e : Exn) : preserves I (@throw A e).
Proof. intros w Hw. exact Hw. Qed.

Lemma preserves_lift {A : Type} (c : Completion A) : preserves I (lift c).
Proof. intros w Hw. exact Hw. Qed.

Lemma preserves_invoke {A : Type} (c : HostCall)
  (f : History -> Completion A) : preserves I (invoke c f).
Proof. intros w Hw. exact Hw. Qed.

Lemma preserves_new_ReadableStream : preserves I new_ReadableStream.
Proof. intros w Hw. exact Hw. Qed.

Lemma preserves_new_Promise : preserves I new_Promise.
Proof. intros w Hw. exact Hw. Qed.

Lemma preserves_setTimeout task : preserves I (setTimeout task).
Proof. intros w Hw. exact Hw. Qed.

Lemma preserves_resolve p r : preserves I (resolve p r).
Proof. intros w Hw. rewrite resolve_world. exact Hw. Qed.

Lemma preserves_controller_close c : preserves I (controller_close c).
Proof.
  intros w Hw. unfold controller_close.
  destruct (nth_error (streams w) c) as [s|]; [destruct (closed s)|];
    exact Hw.
Qed.

Lemma preserves_controller_enqueue c chunk :
  preserves I (controller_enqueue c chunk).
Proof.
  intros w Hw. unfold controller_enqueue.
  destruct (nth_error (streams w) c) as [s|]; [destruct (closed s)|];
    exact Hw.
Qed.

Lemma preserves_get_this : preserves I get_this.
Proof. intros w Hw. exact Hw. Qed.

Lemma preserves_update (f : Transport -> Transport) :
  (forall t, I t -> I (f t)) -> preserves I (update_this f).
Proof. intros Hf w Hw. apply Hf. exact Hw. Qed.

Lemma preserves_bind {A B : Type} (m : M A) (k : A -> M B) :
  preserves I m -> (forall a, preserves I (k a)) ->
  preserves I (bind m k).
Proof.
  intros Hm Hk w Hw. unfold bind. specialize (Hm w Hw).
  destruct (m w) as [[a|e] w1]; simpl in Hm; [|exact Hm].
  apply Hk. exact Hm.
Qed.

(** After reading [this], the continuation may use the invariant of
    what it read. *)
Lemma preserves_get_this_bind {B : Type} (k : Transport -> M B) :
  (forall t, I t -> preserves I (k t)) -> preserves I (bind get_this k).
Proof. intros Hk w Hw. unfold bind, get_this. apply Hk; exact Hw. Qed.

Lemma preserves_try_catch {A : Type} (m : M A) (h : Exn -> M A) :
  preserves I m -> (forall e, preserves I (h e)) ->
  preserves I (try_catch m h).
Proof.
  intros Hm Hh w Hw. unfold try_catch. specialize (Hm w Hw).
  destruct (m w) as [[a|e] w1]; simpl in Hm; [exact Hm|].
  apply Hh. exact Hm.
Qed.

Lemma preserves_for_each {A : Type} (f : A -> M unit) (l : list A) :
  (forall x, preserves I (f x)) -> preserves I (for_each f l).
Proof.
  intros Hf. induction l as [|x l IH]; simpl.
  - apply preserves_ret.
  - apply preserves_bind; [apply Hf|intros _; exact IH].
Qed.

End Preservation.

(** Reduce the preservation of an invariant by a method to its
    preservation by each assignment to a field. *)
Ltac preserve_step :=
  lazymatch goal with
  | |- preserves _ _ =>
      first
        [ apply preserves_ret
        | apply preserves_throw
        | apply preserves_lift
        | apply preserves_invoke
        | apply preserves_new_ReadableStream
        | apply preserves_new_Promise
        | apply preserves_setTimeout
        | apply preserves_resolve
        | apply preserves_controller_close
        | apply preserves_controller_enqueue
        | apply preserves_get_this_bind; intros ? ?
        | apply preserves_bind; [|intros ?]
        | apply preserves_try_catch; [|intros ?]
        | apply preserves_for_each; intros ?
        | apply preserves_update; intros ? ?
        | progress cbv beta zeta
        | match goal with
          | |- preserves _ (if ?c then _ else _) => destruct c eqn:?
          | |- preserves _ (match ?c with _ => _ end) => destruct c eqn:?
          end
        | progress unfold validateSession, initialize, dispatch,
            call_onmessage, call_onerror, writeSSEEvent, createSSEStream,
            store_request_mapping, replayEvents, handleGetRequest,
            handlePostRequest, handleDeleteRequest,
            handleUnsupportedRequest, handleRequest, close, start,
            cancel_hook, store_event ]
  end.

Ltac preserve := repeat preserve_step.

Lemma send_preserves (I : Transport -> Prop) message relatedRequestId :
  (forall requestId streamId t,
     I t ->
     optional_truthy (JSMap.get requestId (_requestToStreamMapping t))
       = Some streamId ->
     I (recorded_this requestId streamId message t)) ->
  preserves I (send message relatedRequestId).
Proof.
  intros HI w Hw.
  destruct (send_transport message relatedRequestId w)
    as [->|(requestId & streamId & _ & Hs & _ & ->)]; auto.
Qed.

Lemma run_timer_preserves (I : Transport -> Prop) : preserves I run_timer.
Proof.
  intros w Hw. unfold run_timer.
  destruct (timers w) as [|task rest]; [exact Hw|].
  apply preserves_for_each; [|exact Hw].
  intros m. unfold call_onmessage.
  apply preserves_get_this_bind. intros t _.
  destruct (onmessage t); [apply preserves_invoke|apply preserves_ret].
Qed.

Lemma readable_cancel_preserves (I : Transport -> Prop) c :
  preserves I cancel_hook -> preserves I (readable_cancel c).
Proof.
  intros Hc w Hw. unfold readable_cancel.
  destruct (nth_error (streams w) c) as [s|]; [|exact Hw].
  destruct (closed s); [exact Hw|].
  apply Hc. exact Hw.
Qed.

(** An invariant of the transport object that every method and every
    assignment of a callback preserves holds after every action. *)
Lemma perform_preserves (I : Transport -> Prop) :
  preserves I start ->
  (forall request body authInfo uuid,
     preserves I (handleRequest request body authInfo uuid)) ->
  (forall message relatedRequestId,
     preserves I (send message relatedRequestId)) ->
  preserves I close ->
  preserves I cancel_hook ->
  (forall f t, I t -> I (set_onclose f t)) ->
  (forall f t, I t -> I (set_onerror f t)) ->
  (forall f t, I t -> I (set_onmessage f t)) ->
  forall a w, I (this w) -> I (this (perform a w)).
Proof.
  intros Hstart Hreq Hsend Hclose Hcancel Hc He Hm a w Hw.
  destruct a; simpl.
  - apply Hstart; exact Hw.
  - apply Hreq; exact Hw.
  - apply Hsend; exact Hw.
  - apply Hclose; exact Hw.
  - apply readable_cancel_preserves; assumption.
  - apply run_timer_preserves; exact Hw.
  - apply Hc; exact Hw.
  - apply He; exact Hw.
  - apply Hm; exact Hw.
Qed.

(** **** The response mode *)





Lemma reachable_run actions :
  forall w, reachable w -> reachable (run actions w).
Proof.
  induction actions as [|a actions IH]; intros w Hw; simpl; auto.
  apply IH. apply reachable_step. exact Hw.
Qed.

(** *** Completion of a stream *)

Lemma In_relatedIds id streamId (index : JSMap.t RequestId string) :
  In id (relatedIds_of streamId index) <-> In (id, streamId) index.
Proof.
  unfold relatedIds_of, JSMap.entries. rewrite in_map_iff. split.
  - intros [[id' sid] [E Hin]]. simpl in E. subst id'.
    apply filter_In in Hin. destruct Hin as [Hin Heq].
    apply String.eqb_eq in Heq. subst sid. exact Hin.
  - intros Hin. exists (id, streamId). split; [reflexivity|].
    apply filter_In. split; [exact Hin|]. apply String.eqb_refl.
Qed.

Lemma In_delete_all {V : Type} id (v : V) ids (m : JSMap.t RequestId V) :
  In (id, v) (delete_all ids m) <-> In (id, v) m /\ ~ In id ids.
Proof.
  revert m. induction ids as [|x ids IH]; intros m; simpl.
  - tauto.
  - unfold delete_all in *. simpl. rewrite IH.
    rewrite JSMapFacts.In_delete. intuition congruence.
Qed.

Lemma get_delete_all_In {V : Type} id ids (m : JSMap.t RequestId V) :
  In id ids -> JSMap.get id (delete_all ids m) = None.
Proof.
  intros Hin. apply JSMapFacts.get_None_not_In. intros Hk.
  apply JSMapFacts.In_keys_get in Hk. destruct Hk as [v Hv].
  apply JSMapFacts.get_In in Hv. apply In_delete_all in Hv. tauto.
Qed.

Lemma get_delete_all_other {V : Type} id ids (m : JSMap.t RequestId V) :
  ~ In id ids -> JSMap.get id (delete_all ids m) = JSMap.get id m.
Proof.
  revert m. induction ids as [|x ids IH]; intros m Hn; simpl; auto.
  unfold delete_all in *. simpl. rewrite IH by (simpl in Hn; tauto).
  apply JSMapFacts.get_delete_other. simpl in Hn. intuition congruence.
Qed.

Lemma optional_truthy_Some (v : option string) s :
  optional_truthy v = Some s -> v = Some s.
Proof.
  destruct v as [[|ch v]|]; simpl; intros E; inversion E; reflexivity.
Qed.



(** *** The session *)

Ltac session_solve :=
  unfold session_established in *; simpl in *;
  repeat match goal with
         | H : _ /\ _ |- _ => destruct H
         end;
  try match goal with
      | G : _ && _ = false, E1 : _initialized ?t = true,
        E2 : sessionId ?t = Some _ |- _ =>
          rewrite E1, E2 in G; discriminate G
      end;
  try (split; assumption).

Lemma session_established_recorded s requestId streamId message t :
  session_established s t ->
  session_established s (recorded_this requestId streamId message t).
Proof.
  intros [Hi Hs]. unfold recorded_this, completed, cleanup. cbv zeta.
  destruct (forallb _ _); [|split; simpl; auto].
  split; simpl; destruct (_enableJsonResponse t); simpl; assumption.
Qed.

(** An established session stays established, under the same id,
    whatever happens to the transport. *)
Lemma session_established_perform s a w :
  session_established s (this w) ->
  session_established s (this (perform a w)).
Proof.
  apply perform_preserves.
  - preserve.
  - intros. preserve. all: session_solve.
  - intros. apply send_preserves. intros.
    apply session_established_recorded. assumption.
  - preserve.
  - preserve.
  - intros. session_solve.
  - intros. session_solve.
  - intros. session_solve.
Qed.

Lemma session_established_run s actions :
  forall w,
    session_established s (this w) ->
    session_established s (this (run actions w)).
Proof.
  induction actions as [|a actions IH]; intros w Hw; simpl; auto.
  apply IH. apply session_established_perform. exact Hw.
Qed.

Lemma dispatch_keeps_session s messages authInfo uuid :
  preserves (session_established s) (dispatch messages authInfo uuid).
Proof. preserve. Qed.

(** How the initialize step of a POST can end. *)
Lemma initialize_outcome messages w c w' :
  initialize messages w = (c, w') ->
  match c with
  | Ok (Some r) => status r = 400
  | Ok None =>
      forall generator,
        sessionIdGenerator (this w) = Some generator ->
        exists s, session_established s (this w')
  | Raise _ => True
  end.
Proof.
  unfold initialize. unfold bind at 1. unfold get_this at 1.
  destruct (_initialized (this w) && _).
  { intros E. inversion E. reflexivity. }
  destruct (1 <? List.length messages)%nat.
  { intros E. inversion E. reflexivity. }
  destruct (sessionIdGenerator (this w)) as [g|].
  - unfold bind at 1. unfold bind at 1. unfold invoke at 1.
    destruct (g (history w)) as [s|e].
    + unfold ret at 1. unfold bind at 1. unfold update_this at 1.
      unfold bind at 1. unfold update_this at 1.
      unfold bind at 1. unfold get_this at 1.
      cbn [this with_this with_history].
      unfold bind.
      match goal with
      | |- context [match ?x ?w0 with (_, _) => _ end] =>
          destruct (x w0) as [[[]|e] w1] eqn:Ex
      end.
      * intros E. inversion E; subst. intros generator _. exists s.
        simpl in Ex. unfold invoke, ret in Ex.
        destruct (truthy s);
          [destruct (_onsessioninitialized (this w))|];
          inversion Ex; split; reflexivity.
      * intros E. inversion E. exact I.
    + intros E. inversion E. exact I.
  - intros E. destruct c as [[r|]|e]; auto.
    + exfalso. revert E. unfold bind, ret, update_this, get_this. simpl.
      discriminate.
    + intros generator Hg. discriminate Hg.
Qed.

Lemma error_response_not_accepted st code message :
  ~ 200 <= st < 300 ->
  ~ accepted (Returned (error_response st code message)).
Proof. intros Hst Hacc. apply Hst. exact Hacc. Qed.

(** A POST with an initialize request that is answered without an
    error has established a session, when sessions are managed. *)
Lemma initialize_post_establishes
  request body authInfo uuid w reply w1 messages generator :
  sessionIdGenerator (this w) = Some generator ->
  parse_messages body = Ok messages ->
  existsb isInitializeRequest messages = true ->
  handlePostRequest request body authInfo uuid w = (Ok reply, w1) ->
  accepted reply ->
  exists s, session_established s (this w1).
Proof.
  intros Hg Hp Hi. unfold handlePostRequest, try_catch. cbv zeta.
  destruct (negb _ || negb _).
  { intros E Hacc. inversion E; subst.
    exfalso. revert Hacc. apply error_response_not_accepted. lia. }
  destruct (optional_falsy _ || negb _).
  { intros E Hacc. inversion E; subst.
    exfalso. revert Hacc. apply error_response_not_accepted. lia. }
  destruct (js_length body >? MAXIMUM_MESSAGE_SIZE).
  { intros E Hacc. inversion E; subst.
    exfalso. revert Hacc. apply error_response_not_accepted. lia. }
  unfold bind at 1. unfold lift at 1. rewrite Hp, Hi.
  unfold bind at 1.
  destruct (initialize messages w) as [[[r|]|e] w0] eqn:Einit.
  - apply initialize_outcome in Einit.
    intros E Hacc. inversion E; subst.
    exfalso. unfold accepted, successful in Hacc. lia.
  - apply initialize_outcome in Einit.
    destruct (Einit generator Hg) as [s Hs].
    pose proof (dispatch_keeps_session s messages authInfo uuid w0 Hs)
      as Hd.
    destruct (dispatch messages authInfo uuid w0) as [[reply'|e] w1'];
      simpl in Hd; intros E Hacc; inversion E; subst;
      exists s; exact Hd.
  - intros E Hacc. inversion E; subst.
    exfalso. unfold accepted, successful in Hacc. simpl in Hacc. lia.
Qed.

(** With a session established, the initialize step refuses. *)
Lemma initialize_refused s messages w :
  session_established s (this w) ->
  initialize messages w =
    (Ok (Some (error_response 400 (-32600)
                 "Invalid Request: Server already initialized")), w).
Proof.
  intros [Hi Hs]. unfold initialize, bind, get_this.
  rewrite Hi, Hs. reflexivity.
Qed.

(** C5. With a session id generator, after one POST with an initialize
    request has been answered without an error, every later POST that
    passes the header, size and parse gates and whose payload holds an
    initialize request is answered 400 with code -32600 and message
    "Invalid Request: Server already initialized", and leaves the world,
    hence the session id, as it was. *)
Theorem initialize_is_unique :
  forall (w0 w1 : World) (generator : History -> Completion string)
         (request1 : Request) (body1 : string)
         (authInfo1 : option AuthInfo) (uuid1 : string) (reply1 : Reply)
         (messages1 : list JSONRPCMessage),
    sessionIdGenerator (this w0) = Some generator ->
    parse_messages body1 = Ok messages1 ->
    existsb isInitializeRequest messages1 = true ->
    handlePostRequest request1 body1 authInfo1 uuid1 w0 = (Ok reply1, w1) ->
    accepted reply1 ->
    forall (actions : list Action) (request2 : Request) (body2 : string)
           (authInfo2 : option AuthInfo) (uuid2 : string)
           (messages2 : list JSONRPCMessage),
      accepts_json_and_event_stream request2 = true ->
      content_type_is_json request2 = true ->
      js_length body2 <= MAXIMUM_MESSAGE_SIZE ->
      parse_messages body2 = Ok messages2 ->
      existsb isInitializeRequest messages2 = true ->
      exists r,
        handlePostRequest request2 body2 authInfo2 uuid2 (run actions w1) =
          (Ok (Returned r), run actions w1)
        /\ jsonrpc_error r 400 (-32600)
             "Invalid Request: Server already initialized" None
        /\ sessionId (this (run actions w1)) = sessionId (this w1).
Proof.
  intros w0 w1 generator request1 body1 authInfo1 uuid1 reply1 messages1
    Hg Hp1 Hi1 Hpost1 Hacc
    actions request2 body2 authInfo2 uuid2 messages2 Ha Hc Hl Hp2 Hi2.
  destruct (initialize_post_establishes _ _ _ _ _ _ _ _ _
              Hg Hp1 Hi1 Hpost1 Hacc) as [s Hs].
  pose proof (session_established_run s actions w1 Hs) as Hs2.
  eexists. split; [|split; [apply error_response_shape|]].
  - rewrite handlePostRequest_gated by assumption.
    apply try_catch_ok.
    erewrite bind_ok by (unfold lift; rewrite Hp2; reflexivity).
    rewrite Hi2.
    erewrite bind_ok by (apply (initialize_refused s); exact Hs2).
    reflexivity.
  - destruct Hs as [_ Hs]. destruct Hs2 as [_ Hs2]. congruence.
Qed.

(** *** The buffer and the index *)

Lemma buffer_within_index_recorded requestId streamId message t :
  buffer_within_index t ->
  optional_truthy (JSMap.get requestId (_requestToStreamMapping t))
    = Some streamId ->
  buffer_within_index (recorded_this requestId streamId message t).
Proof.
  intros Hb Hs. apply optional_truthy_Some in Hs.
  assert (Hb1 : forall id,
             JSMap.get id (_requestToStreamMapping t) = None ->
             JSMap.get id
               (JSMap.set requestId message (_requestResponseMap t))
               = None).
  { intros id Hid. destruct (same_value_zero requestId id) as [<-|N].
    - congruence.
    - rewrite JSMapFacts.get_set_other by exact N. apply Hb. exact Hid. }
  unfold recorded_this. cbv zeta.
  destruct (forallb _ _); [|exact Hb1].
  unfold completed, cleanup. cbv zeta.
  intros id. simpl.
  set (ids := relatedIds_of streamId (_requestToStreamMapping t)).
  assert (Hgoal :
            JSMap.get id (delete_all ids (_requestToStreamMapping t)) = None ->
            JSMap.get id
              (delete_all ids
                 (JSMap.set requestId message (_requestResponseMap t)))
              = None).
  { destruct (in_dec same_value_zero id ids) as [Hin|Hn].
    - intros _. apply get_delete_all_In. exact Hin.
    - rewrite !get_delete_all_other by exact Hn. apply Hb1. }
  destruct (_enableJsonResponse t); simpl; exact Hgoal.
Qed.

Ltac buffer_solve :=
  unfold buffer_within_index in *; simpl in *;
  intros;
  repeat match goal with
         | H : JSMap.get _ (JSMap.set _ _ _) = None |- _ =>
             apply JSMapFacts.get_set_None in H
         end;
  auto.

Lemma buffer_within_index_perform a w :
  buffer_within_index (this w) -> buffer_within_index (this (perform a w)).
Proof.
  apply perform_preserves.
  - preserve.
  - intros. preserve. all: buffer_solve.
  - intros. apply send_preserves. intros.
    apply buffer_within_index_recorded; assumption.
  - preserve. all: buffer_solve.
  - preserve.
  - intros. buffer_solve.
  - intros. buffer_solve.
  - intros. buffer_solve.
Qed.

Lemma reachable_buffer_within_index w :
  reachable w -> buffer_within_index (this w).
Proof.
  induction 1 as [options|w a Hw IH].
  - intros id _. reflexivity.
  - apply buffer_within_index_perform. exact IH.
Qed.

(** *** A POST in JSON response mode *)

Lemma store_mapping_loop uuid messages :
  forall w,
    for_each (store_request_mapping uuid) messages w =
      (Ok tt,
       with_this
         (set_requestToStreamMapping
            (register uuid (request_ids messages)
               (_requestToStreamMapping (this w)))
            (this w)) w).
Proof.
  induction messages as [|m messages IH]; intros w.
  - destruct w as [[] ? ? ? ?]. reflexivity.
  - simpl for_each. destruct m; simpl request_ids.
    + erewrite bind_ok by reflexivity. rewrite IH. reflexivity.
    + erewrite bind_ok by reflexivity. apply IH.
    + erewrite bind_ok by reflexivity. apply IH.
    + erewrite bind_ok by reflexivity. apply IH.
Qed.

Lemma dispatch_json messages authInfo uuid w :
  _enableJsonResponse (this w) = true ->
  existsb isJSONRPCRequest messages = true ->
  dispatch messages authInfo uuid w =
    (Ok (Promised (List.length (promises w))),
     awaiting messages authInfo uuid w).
Proof.
  intros Hj Hr. unfold dispatch. rewrite Hr. cbv zeta.
  change (negb true) with false. cbv iota.
  erewrite bind_ok by reflexivity. rewrite Hj.
  change (negb true) with false. cbv iota.
  erewrite bind_ok by apply store_mapping_loop.
  reflexivity.
Qed.

Lemma dispatch_promised messages authInfo uuid w p w' :
  dispatch messages authInfo uuid w = (Ok (Promised p), w') ->
  existsb isJSONRPCRequest messages = true.
Proof.
  unfold dispatch. destruct (existsb isJSONRPCRequest messages); auto.
  cbv zeta. change (negb false) with true. cbv iota. unfold bind.
  destruct (for_each _ _ _) as [[[]|e] w1]; discriminate.
Qed.

Lemma same_mappings_refl w : same_mappings w w.
Proof. unfold same_mappings. auto 10. Qed.

(** Split on the innermost test of the goal. *)
Ltac destruct_inner :=
  match goal with
  | |- context [match ?x with _ => _ end] =>
      lazymatch x with
      | context [match _ with _ => _ end] => fail
      | _ => destruct x eqn:?
      end
  end.

Lemma initialize_frame messages w c w' :
  initialize messages w = (c, w') -> same_mappings w w'.
Proof.
  unfold initialize, bind, get_this, update_this, invoke, ret.
  repeat (destruct_inner; simpl);
    intros E; inversion E; unfold same_mappings; simpl; auto 10.
Qed.

(** What a POST answered with a promise has done. *)
Lemma post_promised request body authInfo uuid w p w1 messages :
  parse_messages body = Ok messages ->
  handlePostRequest request body authInfo uuid w = (Ok (Promised p), w1) ->
  exists w0,
    same_mappings w w0
    /\ existsb isJSONRPCRequest messages = true
    /\ (_enableJsonResponse (this w) = true ->
        p = List.length (promises w)
        /\ w1 = awaiting messages authInfo uuid w0).
Proof.
  intros Hp. unfold handlePostRequest, try_catch. cbv zeta.
  destruct (negb _ || negb _); [discriminate|].
  destruct (optional_falsy _ || negb _); [discriminate|].
  destruct (js_length body >? MAXIMUM_MESSAGE_SIZE); [discriminate|].
  unfold bind at 1. unfold lift at 1. rewrite Hp.
  unfold bind at 1.
  match goal with
  | |- context [(if ?b then initialize messages else ?v) w] =>
      destruct ((if b then initialize messages else v) w)
        as [[[r|]|e] w0] eqn:Eearly
  end; try discriminate.
  assert (Hframe : same_mappings w w0).
  { destruct (existsb isInitializeRequest messages).
    - eapply initialize_frame. exact Eearly.
    - rewrite validateSession_verdict in Eearly. inversion Eearly.
      apply same_mappings_refl. }
  destruct (dispatch messages authInfo uuid w0) as [[reply|e] w1'] eqn:Ed;
    [|discriminate].
  intros E. inversion E; subst. exists w0.
  pose proof (dispatch_promised _ _ _ _ _ _ Ed) as Hreq.
  split; [exact Hframe|]. split; [exact Hreq|].
  intros Hj. destruct Hframe as (_ & _ & _ & _ & Hj0 & Hpr).
  rewrite dispatch_json in Ed by congruence.
  inversion Ed. rewrite Hpr. auto.
Qed.

(** *** Responses to a batch, in JSON response mode *)

Lemma forallb_ext_In {A : Type} (f g : A -> bool) (l : list A) :
  (forall x, In x l -> f x = g x) -> forallb f l = forallb g l.
Proof.
  induction l as [|x l IH]; intros Hfg; simpl; auto.
  rewrite Hfg by (left; reflexivity).
  rewrite IH; [reflexivity|]. intros y Hy. apply Hfg. right. exact Hy.
Qed.

Lemma response_to_app id done m :
  response_to id (done ++ [m]) =
    match response_to id done with
    | Some x => Some x
    | None =>
        match message_id m with
        | Some id' => if same_value_zero id id' then Some m else None
        | None => None
        end
    end.
Proof.
  unfold response_to. induction done as [|x done IH]; simpl.
  - destruct (message_id m) as [id'|]; [|reflexivity].
    destruct (same_value_zero id id'); reflexivity.
  - destruct (message_id x) as [id'|]; [|exact IH].
    destruct (same_value_zero id id'); [reflexivity|exact IH].
Qed.

Lemma response_to_None id responses :
  ~ In (Some id) (map message_id responses) ->
  response_to id responses = None.
Proof.
  intros Hn. unfold response_to.
  destruct (find _ responses) as [x|] eqn:E; [|reflexivity].
  apply find_some in E. destruct E as [Hin Hx].
  exfalso. apply Hn. apply in_map_iff. exists x. split; [|exact Hin].
  destruct (message_id x) as [id'|]; [|discriminate].
  destruct (same_value_zero id id'); [congruence|discriminate].
Qed.

Lemma response_to_Some id responses m :
  In m responses -> message_id m = Some id ->
  exists x, response_to id responses = Some x.
Proof.
  intros Hin Hm. unfold response_to.
  destruct (find _ responses) as [x|] eqn:E; [eauto|].
  exfalso. pose proof (find_none _ _ E m Hin) as Hf. simpl in Hf.
  rewrite Hm in Hf. destruct (same_value_zero id id); congruence.
Qed.

(** The buffer after one more response of the batch. *)
Lemma buffer_after_response uuid p ids done w m r :
  batch_pending uuid p ids done w ->
  message_id m = Some r ->
  response_to r done = None ->
  forall id,
    In id ids ->
    JSMap.get id (JSMap.set r m (_requestResponseMap (this w)))
      = response_to id (done ++ [m]).
Proof.
  intros (_ & _ & _ & Hbuf & _) Hm Hr id Hid.
  rewrite response_to_app, Hm.
  destruct (same_value_zero id r) as [->|N].
  - rewrite JSMapFacts.get_set_same, Hr. reflexivity.
  - rewrite JSMapFacts.get_set_other by congruence.
    rewrite Hbuf by exact Hid.
    destruct (response_to id done); reflexivity.
Qed.

(** One [send] of a response of the batch: it completes the batch when
    this was the last response missing, and only then. *)
Lemma send_batch_step uuid p ids done w m r :
  truthy uuid = true ->
  batch_pending uuid p ids done w ->
  terminal m = true ->
  message_id m = Some r ->
  In r ids ->
  response_to r done = None ->
  exists w',
    send m None w = (Ok tt, w')
    /\ if all_answered ids (done ++ [m])
       then promise_value p w' =
              Some (batch_response (this w) ids (done ++ [m]))
       else batch_pending uuid p ids (done ++ [m]) w'
            /\ session_header (this w') = session_header (this w).
Proof.
  intros Hu Hb Ht Hm Hin Hr.
  pose proof (buffer_after_response _ _ _ _ _ _ _ Hb Hm Hr) as Hbuf.
  destruct Hb as (Hj & Hrel & Hidx & _ & Hpend & Hprom).
  assert (Hid : effective_request_id m None = Some r).
  { unfold effective_request_id. rewrite Ht. exact Hm. }
  assert (Hs : optional_truthy
                 (JSMap.get r (_requestToStreamMapping (this w)))
               = Some uuid).
  { rewrite (Hidx r Hin). simpl. rewrite Hu. reflexivity. }
  eexists. split; [rewrite (send_json _ _ _ _ _ Hj Hid Hs), Ht; reflexivity|].
  unfold recorded. cbv zeta.
  cbn [_requestToStreamMapping _requestResponseMap _enableJsonResponse
       _pendingResponses set_requestResponseMap].
  rewrite Hrel.
  assert (Hall :
            forallb
              (fun id =>
                 JSMap.has id
                   (JSMap.set r m (_requestResponseMap (this w)))) ids
            = all_answered ids (done ++ [m])).
  { unfold all_answered. apply forallb_ext_In.
    intros id Hid'. unfold JSMap.has. rewrite Hbuf by exact Hid'.
    reflexivity. }
  rewrite Hall. destruct (all_answered ids (done ++ [m])).
  - unfold promise_value. cbn [promises]. rewrite Hj, Hpend.
    unfold settle. rewrite Hprom.
    rewrite (nth_error_list_update_same _ _ _ _ Hprom).
    f_equal. unfold json_response, batch_response. f_equal.
    f_equal. f_equal. f_equal.
    unfold responses_of, in_order_of. cbn [_requestResponseMap].
    apply map_ext_in. intros id Hid'. rewrite Hbuf by exact Hid'.
    reflexivity.
  - split; [|reflexivity].
    unfold batch_pending. simpl. auto 10.
Qed.

Lemma all_answered_complete ids responses :
  (forall id, In id ids ->
     exists m, In m responses /\ message_id m = Some id) ->
  all_answered ids responses = true.
Proof.
  intros Hcover. apply forallb_forall. intros id Hid.
  destruct (Hcover id Hid) as (m & Hin & Hm).
  destruct (response_to_Some _ _ _ Hin Hm) as [x ->]. reflexivity.
Qed.

Lemma all_answered_incomplete ids responses id :
  In id ids ->
  ~ In (Some id) (map message_id responses) ->
  all_answered ids responses = false.
Proof.
  intros Hid Hn. apply not_true_is_false. intros Hall.
  unfold all_answered in Hall. rewrite forallb_forall in Hall.
  specialize (Hall id Hid).
  rewrite (response_to_None _ _ Hn) in Hall. discriminate.
Qed.

(** The index after registering new, distinct requests. *)
Lemma get_app_absent {V : Type} id (m1 m2 : JSMap.t RequestId V) :
  JSMap.get id m1 = None -> JSMap.get id (m1 ++ m2) = JSMap.get id m2.
Proof.
  induction m1 as [|[k v] m1 IH]; simpl; auto.
  destruct (same_value_zero id k); [discriminate|]. exact IH.
Qed.

Lemma get_registered (uuid : string) (ids : list RequestId) id :
  In id ids ->
  @JSMap.get RequestId string _ id (map (fun id => (id, uuid)) ids)
    = Some uuid.
Proof.
  induction ids as [|x ids IH]; simpl; [tauto|].
  destruct (same_value_zero id x) as [E|N]; [reflexivity|].
  intros [E|Hin]; [congruence|]. apply IH. exact Hin.
Qed.

Lemma register_new uuid ids :
  NoDup ids ->
  forall index,
    (forall id, In id ids -> JSMap.get id index = None) ->
    register uuid ids index = index ++ map (fun id => (id, uuid)) ids.
Proof.
  induction 1 as [|x ids Hx Hnd IH]; intros index Hnew; simpl.
  - rewrite app_nil_r. reflexivity.
  - unfold register in *. simpl.
    rewrite JSMapFacts.set_absent by (apply Hnew; left; reflexivity).
    rewrite IH.
    + rewrite <- app_assoc. reflexivity.
    + intros id Hid. rewrite get_app_absent by (apply Hnew; right; exact Hid).
      simpl. destruct (same_value_zero id x) as [->|N]; [tauto|reflexivity].
Qed.

Lemma relatedIds_new uuid ids index :
  (forall id, ~ In (id, uuid) index) ->
  relatedIds_of uuid (index ++ map (fun id => (id, uuid)) ids) = ids.
Proof.
  intros Hnone. unfold relatedIds_of, JSMap.entries.
  rewrite filter_app, map_app.
  replace (filter (fun '(_, sid) => String.eqb sid uuid) index)
    with (@nil (RequestId * string)).
  - simpl. induction ids as [|x ids IH]; simpl; [reflexivity|].
    rewrite String.eqb_refl. simpl. f_equal. exact IH.
  - symmetry. induction index as [|[k v] index IH]; simpl; [reflexivity|].
    destruct (String.eqb v uuid) eqn:E.
    + apply String.eqb_eq in E. subst v.
      exfalso. apply (Hnone k). left. reflexivity.
    + apply IH. intros id Hin. apply (Hnone id). right. exact Hin.
Qed.

Lemma request_ids_nonempty messages :
  existsb isJSONRPCRequest messages = true -> request_ids messages <> [].
Proof.
  induction messages as [|m messages IH]; simpl; [discriminate|].
  destruct m; simpl; auto; discriminate.
Qed.

Lemma nth_error_new {A : Type} (l : list A) x :
  nth_error (l ++ [x]) (List.length l) = Some x.
Proof. induction l as [|y l IH]; simpl; auto. Qed.

(** The world right after a POST in JSON response mode with new,
    distinct request ids awaits their responses. *)
Lemma awaiting_batch_pending messages authInfo uuid w w0 :
  reachable w ->
  _enableJsonResponse (this w) = true ->
  same_mappings w w0 ->
  NoDup (request_ids messages) ->
  (forall id, In id (request_ids messages) ->
     JSMap.get id (_requestToStreamMapping (this w)) = None) ->
  (forall id,
     ~ In (id, uuid) (JSMap.entries (_requestToStreamMapping (this w)))) ->
  batch_pending uuid (List.length (promises w)) (request_ids messages) []
    (awaiting messages authInfo uuid w0).
Proof.
  intros Hreach Hj (_ & Hidx & Hbuf & _ & Hj0 & Hprom) Hnd Hnew Hfresh.
  unfold batch_pending, awaiting. simpl.
  rewrite Hidx, Hbuf, Hj0, Hprom.
  rewrite register_new by assumption.
  split; [exact Hj|]. split; [apply relatedIds_new; exact Hfresh|].
  split.
  { intros id Hid. rewrite get_app_absent by (apply Hnew; exact Hid).
    apply get_registered. exact Hid. }
  split.
  { intros id Hid. apply (reachable_buffer_within_index w Hreach).
    apply Hnew. exact Hid. }
  split; [apply JSMapFacts.get_set_same|apply nth_error_new].
Qed.

(** *** Settings that [send] never touches *)

Lemma recorded_this_settings requestId streamId message t :
  sessionIdGenerator (recorded_this requestId streamId message t)
    = sessionIdGenerator t
  /\ _started (recorded_this requestId streamId message t) = _started t
  /\ _initialized (recorded_this requestId streamId message t)
     = _initialized t
  /\ _enableJsonResponse (recorded_this requestId streamId message t)
     = _enableJsonResponse t
  /\ _eventStore (recorded_this requestId streamId message t)
     = _eventStore t
  /\ sessionId (recorded_this requestId streamId message t) = sessionId t
  /\ onclose (recorded_this requestId streamId message t) = onclose t
  /\ onerror (recorded_this requestId streamId message t) = onerror t
  /\ onmessage (recorded_this requestId streamId message t) = onmessage t.
Proof.
  unfold recorded_this, completed, cleanup. cbv zeta.
  destruct (forallb _ _); simpl;
    [destruct (_enableJsonResponse t) eqn:E; simpl; rewrite ?E|];
    repeat split; reflexivity.
Qed.

(** *** [start] *)

Lemma started_perform a w :
  _started (this w) = true -> _started (this (perform a w)) = true.
Proof.
  apply (perform_preserves (fun t => _started t = true)).
  - preserve. all: simpl; auto.
  - intros. preserve. all: simpl; auto.
  - intros. apply send_preserves. intros requestId streamId t Ht _.
    destruct (recorded_this_settings requestId streamId message t)
      as (_ & -> & _). exact Ht.
  - preserve. all: simpl; auto.
  - preserve. all: simpl; auto.
  - intros. simpl. assumption.
  - intros. simpl. assumption.
  - intros. simpl. assumption.
Qed.

Lemma started_run actions :
  forall w,
    _started (this w) = true -> _started (this (run actions w)) = true.
Proof.
  induction actions as [|a actions IH]; intros w Hw; simpl; auto.
  apply IH. apply started_perform. exact Hw.
Qed.

(** X1.  [start] succeeds at most once in the life of a transport:
    after a first call, and whatever has been done to the transport
    since (requests, sends, [close], cancelled streams, due tasks, new
    callbacks), [start] throws [Transport already started] and changes
    nothing. *)
Theorem start_succeeds_at_most_once :
  forall (w : World) (actions : list Action),
    start (run actions (snd (start w))) =
      (Raise (Error "Transport already started"),
       run actions (snd (start w))).
Proof.
  intros w actions.
  assert (Hs : _started (this (snd (start w))) = true).
  { unfold start, bind, get_this.
    destruct (_started (this w)) eqn:E; simpl; auto. }
  apply (started_run actions) in Hs.
  set (w1 := run actions (snd (start w))) in *.
  unfold start, bind, get_this. rewrite Hs. reflexivity.
Qed.

(** *** Methods other than POST, GET and DELETE *)

(** X2.  A request whose method is none of [POST], [GET], [DELETE]
    (compared as written, so [post] is not [POST]) is answered 405 with
    the header [Allow: GET, POST, DELETE] and the JSON-RPC error -32000
    [Method not allowed.]; the transport is left as it was and no
    callback runs. *)
Theorem unsupported_method_is_405 :
  forall (request : Request) (bodyText : string)
         (authInfo : option AuthInfo) (uuid : string) (w : World),
    req_method request <> "POST" ->
    req_method request <> "GET" ->
    req_method request <> "DELETE" ->
    exists r,
      handleRequest request bodyText authInfo uuid w = (Ok (Returned r), w)
      /\ jsonrpc_error r 405 (-32000) "Method not allowed." None
      /\ In ("Allow", "GET, POST, DELETE") (resp_headers r).
Proof.
  intros request bodyText authInfo uuid w Hp Hg Hd.
  unfold handleRequest. cbv zeta.
  apply String.eqb_neq in Hp, Hg, Hd. rewrite Hp, Hg, Hd.
  eexists. split; [reflexivity|].
  split; [|simpl; auto].
  unfold jsonrpc_error. simpl. auto.
Qed.

(** *** [handlePostRequest] catches everything *)

(** X3.  [handlePostRequest] never throws: whatever the request, the
    body, the state of the transport and the behaviour of the callbacks
    it runs, it ends with a reply. *)
Theorem handlePostRequest_never_throws :
  forall (request : Request) (bodyText : string)
         (authInfo : option AuthInfo) (uuid : string) (w : World),
    exists reply,
      fst (handlePostRequest request bodyText authInfo uuid w) = Ok reply.
Proof.
  intros. unfold handlePostRequest, try_catch.
  match goal with
  | |- context [match ?m w with _ => _ end] =>
      destruct (m w) as [[reply|e] w']
  end.
  - exists reply. reflexivity.
  - eexists. reflexivity.
Qed.

(** *** [close], again *)

(** X4.  A second [close] finds nothing left to close: it changes
    neither the transport object nor any stream, promise or timer; it
    only calls [onclose] once more. *)
Theorem close_is_idempotent :
  forall w : World,
    this (snd (close (snd (close w)))) = this (snd (close w))
    /\ streams (snd (close (snd (close w)))) = streams (snd (close w))
    /\ promises (snd (close (snd (close w)))) = promises w
    /\ timers (snd (close (snd (close w)))) = timers w
    /\ history (snd (close (snd (close w)))) =
         history w ++ calls_onclose (this w) ++ calls_onclose (this w).
Proof.
  intros w. rewrite (close_world (snd (close w))). rewrite (close_world w).
  unfold calls_onclose. simpl.
  repeat split.
  destruct (onclose (this w)); simpl.
  - rewrite <- app_assoc. reflexivity.
  - rewrite app_nil_r. reflexivity.
Qed.

(** *** DELETE *)

(** X5.  A DELETE that passes session validation is [close] followed
    by an empty 200 response (and it throws what [onclose] throws); the
    session is not ended by it: every later request is validated
    exactly as before. *)
Theorem delete_closes_and_keeps_the_session :
  forall (request : Request) (w : World),
    session_rules (this w) request = Valid ->
    handleDeleteRequest request w =
      (match fst (close w) with
       | Ok _ => Ok (Returned (empty_response 200))
       | Raise e => Raise e
       end, snd (close w))
    /\ forall request' : Request,
         session_rules (this (snd (handleDeleteRequest request w))) request'
         = session_rules (this w) request'.
Proof.
  intros request w Hv.
  assert (E : handleDeleteRequest request w =
              (match fst (close w) with
               | Ok _ => Ok (Returned (empty_response 200))
               | Raise e => Raise e
               end, snd (close w))).
  { unfold handleDeleteRequest.
    erewrite bind_ok by apply validateSession_verdict.
    rewrite Hv. change (verdict_response Valid) with (@None Response).
    cbv beta iota.
    unfold bind. destruct (close w) as [[[]|e] w1]; reflexivity. }
  split; [exact E|].
  intros request'. rewrite E. simpl snd. rewrite close_world.
  unfold session_rules. simpl. reflexivity.
Qed.

(** *** [writeSSEEvent] *)

Lemma append_assoc (a b c : string) :
  ((a ++ b) ++ c = a ++ (b ++ c))%string.
Proof.
  induction a as [|x a IH]; simpl; [reflexivity|]. rewrite IH. reflexivity.
Qed.

Lemma with_history_same w : with_history (history w) w = w.
Proof. destruct w; reflexivity. Qed.

Lemma call_onerror_world error w :
  call_onerror error w =
    (onerror_outcome error w,
     with_history (history w ++ calls_onerror error (this w)) w).
Proof.
  unfold call_onerror, onerror_outcome, calls_onerror, bind, get_this.
  destruct (onerror (this w)); simpl.
  - reflexivity.
  - rewrite app_nil_r, with_history_same. reflexivity.
Qed.

Lemma writeSSEEvent_open c message eventId w :
  is_open c (streams w) ->
  writeSSEEvent c message eventId w =
    (Ok tt,
     with_streams (enqueued c [sse_frame message eventId] (streams w)) w).
Proof.
  intros (s & Hs & Ho).
  unfold writeSSEEvent, try_catch, controller_enqueue, enqueued.
  cbv zeta. rewrite Hs, Ho. reflexivity.
Qed.

Lemma writeSSEEvent_not_open c message eventId w :
  ~ is_open c (streams w) ->
  writeSSEEvent c message eventId w =
    call_onerror (Thrown "TypeError: Invalid state") w.
Proof.
  intros Hn.
  unfold writeSSEEvent, try_catch, controller_enqueue. cbv zeta.
  destruct (nth_error (streams w) c) as [s|] eqn:Hs; [|reflexivity].
  destruct (closed s) eqn:Ho; [reflexivity|].
  exfalso. apply Hn. exists s. auto.
Qed.

(** X6.  [writeSSEEvent] on an open stream enqueues exactly one frame,
    [event: message], an [id:] line when the event id is a non-empty
    string, and the [data:] line with the stringified message, ended by
    a blank line; it touches nothing else.  On a stream that is closed
    (or was cancelled) it enqueues nothing: the failure is passed to
    [onerror] when there is one and is otherwise swallowed, so the call
    throws only what [onerror] throws. *)
Theorem writeSSEEvent_outcome :
  forall (c : Controller) (message : JSONRPCMessage)
         (eventId : option string) (w : World),
    (is_open c (streams w) ->
     writeSSEEvent c message eventId w =
       (Ok tt,
        with_streams
          (enqueued c [sse_frame message eventId] (streams w)) w))
    /\ (~ is_open c (streams w) ->
        exists error,
          writeSSEEvent c message eventId w =
            (onerror_outcome error w,
             with_history (history w ++ calls_onerror error (this w)) w))
    /\ sse_frame message eventId =
         ("event: message" ++ LF
          ++ match optional_truthy eventId with
             | Some e => "id: " ++ e ++ LF
             | None => EmptyString
             end
          ++ "data: " ++ JSON_stringify (toJSON message) ++ LF ++ LF)%string.
Proof.
  intros c message eventId w. split; [|split].
  - apply writeSSEEvent_open.
  - intros Hn. eexists. rewrite writeSSEEvent_not_open by exact Hn.
    apply call_onerror_world.
  - unfold sse_frame. cbv zeta.
    destruct (optional_truthy eventId) as [e|].
    + rewrite !append_assoc. reflexivity.
    + rewrite !append_assoc. reflexivity.
Qed.


(** *** [send]: what is written, and where *)

Lemma store_event_world t streamId message w c w1 :
  store_event t streamId message w = (c, w1) ->
  this w1 = this w /\ streams w1 = streams w
  /\ promises w1 = promises w /\ timers w1 = timers w.
Proof.
  unfold store_event. destruct (_eventStore t) as [store|].
  - unfold bind, invoke.
    destruct (storeEvent store (history w) streamId message);
      intros E; inversion E; subst; simpl; auto.
  - intros E. inversion E. subst. auto.
Qed.

Lemma store_event_none t streamId message w :
  _eventStore t = None ->
  store_event t streamId message w = (Ok None, w).
Proof. intros E. unfold store_event. rewrite E. reflexivity. Qed.

Lemma is_open_dec c ss : is_open c ss \/ ~ is_open c ss.
Proof.
  unfold is_open. destruct (nth_error ss c) as [s|] eqn:E.
  - destruct (closed s) eqn:Ec.
    + right. intros (s' & Hs & Ho). congruence.
    + left. exists s. auto.
  - right. intros (s' & Hs & _). discriminate.
Qed.

Lemma is_open_enqueued c c' chunks ss :
  is_open c' ss -> is_open c' (enqueued c chunks ss).
Proof.
  intros (s & Hs & Ho). unfold enqueued.
  destruct (nth_error ss c) as [s0|] eqn:E; [|exists s; auto].
  destruct (Nat.eq_dec c c') as [->|Hne].
  - eexists. split; [eapply nth_error_list_update_same; exact E|].
    reflexivity.
  - exists s. split; [|exact Ho].
    rewrite nth_error_list_update_other by exact Hne. exact Hs.
Qed.

Lemma writeSSEEvent_keeps_open c message eventId c' w :
  is_open c' (streams w) ->
  is_open c' (streams (snd (writeSSEEvent c message eventId w))).
Proof.
  intros Ho.
  destruct (is_open_dec c (streams w)) as [Hc|Hc].
  - rewrite writeSSEEvent_open by exact Hc. simpl.
    apply is_open_enqueued. exact Ho.
  - rewrite writeSSEEvent_not_open by exact Hc.
    rewrite call_onerror_world. exact Ho.
Qed.

(** [send] for a known request is [deliver] followed, for a response
    or an error, by its recording. *)
Lemma send_known message relatedRequestId requestId streamId w :
  effective_request_id message relatedRequestId = Some requestId ->
  optional_truthy (JSMap.get requestId (_requestToStreamMapping (this w)))
    = Some streamId ->
  send message relatedRequestId w =
    match deliver streamId message w with
    | (Ok _, w1) =>
        (Ok tt,
         if terminal message
         then recorded requestId streamId
                (JSMap.get streamId (_streamMapping (this w))) message w1
         else w1)
    | (Raise e, w1) => (Raise e, w1)
    end.
Proof.
  intros Hid Hsid. unfold send, deliver. rewrite Hid.
  unfold bind at 1. unfold get_this at 1. rewrite Hsid.
  cbv zeta. unfold bind at 1.
  unfold bind at 2. unfold get_this at 1.
  match goal with
  | |- match ?d with _ => _ end = _ => destruct d as [[[]|e] w1]
  end; [|reflexivity].
  destruct (terminal message).
  - rewrite record_response_world. reflexivity.
  - reflexivity.
Qed.

Lemma deliver_same_transport streamId message w :
  same_transport w (snd (deliver streamId message w)).
Proof.
  unfold deliver. unfold bind at 1. unfold get_this at 1.
  apply deliver_frame.
Qed.

Lemma deliver_keeps_open streamId message c' w :
  is_open c' (streams w) ->
  is_open c' (streams (snd (deliver streamId message w))).
Proof.
  intros Ho. unfold deliver. unfold bind at 1. unfold get_this at 1.
  destruct (if _enableJsonResponse (this w) then None else _) as [c|];
    [|exact Ho].
  unfold bind.
  destruct (store_event (this w) streamId message w) as [[e|err] w1] eqn:E;
    apply store_event_world in E as (_ & Hs & _); simpl.
  - apply writeSSEEvent_keeps_open. rewrite Hs. exact Ho.
  - rewrite Hs. exact Ho.
Qed.

(** Without an event store and without an [onerror] handler, nothing
    in the writing of a message can throw. *)
Lemma write_quiet streamId message c w :
  _eventStore (this w) = None ->
  onerror (this w) = None ->
  exists w1,
    (eventId <- store_event (this w) streamId message ;;
     writeSSEEvent c message eventId) w = (Ok tt, w1).
Proof.
  intros Hst Hon.
  erewrite bind_ok by (apply store_event_none; exact Hst).
  destruct (is_open_dec c (streams w)) as [Hc|Hc].
  - rewrite writeSSEEvent_open by exact Hc. eexists. reflexivity.
  - rewrite writeSSEEvent_not_open by exact Hc.
    rewrite call_onerror_world. unfold onerror_outcome. rewrite Hon.
    eexists. reflexivity.
Qed.

Lemma deliver_quiet streamId message w :
  _eventStore (this w) = None ->
  onerror (this w) = None ->
  exists w1, deliver streamId message w = (Ok tt, w1).
Proof.
  intros Hst Hon. unfold deliver. unfold bind at 1. unfold get_this at 1.
  destruct (if _enableJsonResponse (this w) then None else _) as [c|];
    [|eexists; reflexivity].
  apply write_quiet; assumption.
Qed.

Lemma terminal_has_id message :
  terminal message = true -> exists id, message_id message = Some id.
Proof.
  destruct message; simpl; intros E; try discriminate; eexists; reflexivity.
Qed.

Lemma effective_terminal message relatedRequestId requestId :
  terminal message = true ->
  message_id message = Some requestId ->
  effective_request_id message relatedRequestId = Some requestId.
Proof. intros Ht Hm. unfold effective_request_id. rewrite Ht. exact Hm. Qed.

(** X7.  A [send] that throws has recorded nothing: the transport
    object, the promises and the timers are as before.  And without an
    event store and without an [onerror] handler there is only one way
    for [send] to throw: the message is addressed to a request that no
    stream is waiting for; the world is then unchanged. *)
Theorem send_throws_only_for_unknown_request :
  forall (message : JSONRPCMessage) (relatedRequestId : option RequestId)
         (w w' : World) (e : Exn),
    send message relatedRequestId w = (Raise e, w') ->
    (this w' = this w /\ promises w' = promises w /\ timers w' = timers w)
    /\ (_eventStore (this w) = None ->
        onerror (this w) = None ->
        w' = w
        /\ exists requestId,
             effective_request_id message relatedRequestId = Some requestId
             /\ optional_truthy
                  (JSMap.get requestId (_requestToStreamMapping (this w)))
                = None
             /\ e = Error ("No stream found for request ID: "
                           ++ String_of_RequestId requestId)%string).
Proof.
  intros message relatedRequestId w w' e E.
  split; [apply send_throws in E; exact E|].
  intros Hst Hon.
  destruct (effective_request_id message relatedRequestId)
    as [requestId|] eqn:Hid.
  - destruct (optional_truthy
                (JSMap.get requestId (_requestToStreamMapping (this w))))
      as [streamId|] eqn:Hsid.
    + rewrite (send_known _ _ _ _ _ Hid Hsid) in E.
      destruct (deliver_quiet streamId message w Hst Hon) as [w1 F].
      rewrite F in E. discriminate.
    + unfold send in E. rewrite Hid in E.
      unfold bind, get_this in E. rewrite Hsid in E.
      inversion E. subst. split; [reflexivity|].
      exists requestId. auto.
  - exfalso. unfold send in E. rewrite Hid in E.
    destruct (terminal message) eqn:Ht.
    + destruct (terminal_has_id _ Ht) as [id Hm].
      unfold effective_request_id in Hid. rewrite Ht, Hm in Hid.
      discriminate.
    + unfold bind at 1 in E. unfold get_this at 1 in E.
      destruct (JSMap.get _standaloneSseStreamId _) as [c|];
        [|discriminate].
      destruct (write_quiet _standaloneSseStreamId message c w Hst Hon)
        as [w1 F].
      rewrite F in E. discriminate.
Qed.

(** X8.  A server-to-client request or notification without a related
    request goes to the standalone GET stream, in either response mode:
    with no such stream registered it is discarded without a trace;
    with one, the event is first stored (when there is an event store)
    and then written with the id the store gave it; and if the store
    throws, [send] throws the same and nothing is written. *)
Theorem send_on_standalone_stream :
  forall (message : JSONRPCMessage) (w : World),
    terminal message = false ->
    (JSMap.get _standaloneSseStreamId (_streamMapping (this w)) = None ->
     send message None w = (Ok tt, w))
    /\ (forall c eventId w1,
          JSMap.get _standaloneSseStreamId (_streamMapping (this w))
            = Some c ->
          is_open c (streams w) ->
          store_event (this w) _standaloneSseStreamId message w
            = (Ok eventId, w1) ->
          send message None w =
            (Ok tt,
             with_streams
               (enqueued c [sse_frame message eventId] (streams w)) w1))
    /\ (forall c error w1,
          JSMap.get _standaloneSseStreamId (_streamMapping (this w))
            = Some c ->
          store_event (this w) _standaloneSseStreamId message w
            = (Raise error, w1) ->
          send message None w = (Raise error, w1)
          /\ streams w1 = streams w).
Proof.
  intros message w Ht.
  assert (Hid : effective_request_id message None = None).
  { unfold effective_request_id. rewrite Ht. reflexivity. }
  split; [|split].
  - intros Hg. unfold send. rewrite Hid, Ht.
    unfold bind, get_this. rewrite Hg. reflexivity.
  - intros c eventId w1 Hg Ho Hs. unfold send. rewrite Hid, Ht.
    unfold bind at 1. unfold get_this at 1. rewrite Hg.
    erewrite bind_ok by exact Hs.
    apply store_event_world in Hs as (_ & Hstr & _).
    rewrite writeSSEEvent_open by (rewrite Hstr; exact Ho).
    rewrite Hstr. reflexivity.
  - intros c error w1 Hg Hs. unfold send. rewrite Hid, Ht.
    unfold bind at 1. unfold get_this at 1. rewrite Hg.
    erewrite bind_raise by exact Hs.
    apply store_event_world in Hs as (_ & Hstr & _).
    split; [reflexivity|exact Hstr].
Qed.

Lemma nth_error_enqueued c chunks ss s :
  nth_error ss c = Some s ->
  nth_error (enqueued c chunks ss) c
    = Some (mkSSEStream false (queue s ++ chunks)).
Proof.
  intros Hs. unfold enqueued. rewrite Hs.
  eapply nth_error_list_update_same. exact Hs.
Qed.

Lemma nth_error_close_stream c ss s :
  nth_error ss c = Some s ->
  nth_error (close_stream c ss) c = Some (mkSSEStream true (queue s)).
Proof.
  intros Hs. unfold close_stream. rewrite Hs.
  destruct (closed s) eqn:Ec.
  - rewrite Hs. destruct s; simpl in *. subst. reflexivity.
  - eapply nth_error_list_update_same. exact Hs.
Qed.

(** X9.  Outside JSON response mode, a response to a request whose
    stream is registered and open is written onto that stream, with the
    event id of the store if there is one, and then recorded; the
    stream is closed by this [send] exactly when every request of the
    stream now has its response, and the frame of the last response is
    in the queue when the stream closes. *)
Theorem response_is_written_then_stream_closed :
  forall (message : JSONRPCMessage) (relatedRequestId : option RequestId)
         (requestId : RequestId) (streamId : string) (c : Controller)
         (s : SSEStream) (eventId : option string) (w w1 : World),
    _enableJsonResponse (this w) = false ->
    terminal message = true ->
    message_id message = Some requestId ->
    optional_truthy (JSMap.get requestId (_requestToStreamMapping (this w)))
      = Some streamId ->
    JSMap.get streamId (_streamMapping (this w)) = Some c ->
    nth_error (streams w) c = Some s ->
    closed s = false ->
    store_event (this w) streamId message w = (Ok eventId, w1) ->
    exists w',
      send message relatedRequestId w = (Ok tt, w')
      /\ this w' = recorded_this requestId streamId message (this w)
      /\ history w' = history w1
      /\ promises w' = promises w
      /\ nth_error (streams w') c =
           Some (mkSSEStream
                   (forallb
                      (fun id =>
                         JSMap.has id
                           (JSMap.set requestId message
                              (_requestResponseMap (this w))))
                      (relatedIds_of streamId
                         (_requestToStreamMapping (this w))))
                   (queue s ++ [sse_frame message eventId])).
Proof.
  intros message relatedRequestId requestId streamId c s eventId w w1
    Hjson Ht Hm Hsid Hreg Hs Hc Hst.
  rewrite (send_known _ _ _ _ _ (effective_terminal _ _ _ Ht Hm) Hsid).
  assert (D : deliver streamId message w =
              (Ok tt,
               with_streams
                 (enqueued c [sse_frame message eventId] (streams w)) w1)).
  { unfold deliver. unfold bind at 1. unfold get_this at 1.
    rewrite Hjson, Hreg. erewrite bind_ok by exact Hst.
    apply store_event_world in Hst as (_ & Hstr & _).
    rewrite writeSSEEvent_open by (rewrite Hstr; exists s; auto).
    rewrite Hstr. reflexivity. }
  rewrite D, Ht, Hreg.
  apply store_event_world in Hst as (Hthis & Hstr & Hp & _).
  eexists. split; [reflexivity|].
  split; [rewrite recorded_transport; simpl; rewrite Hthis; reflexivity|].
  unfold recorded. cbn [this with_streams streams promises history timers].
  rewrite Hthis. simpl _enableJsonResponse. simpl _requestToStreamMapping.
  simpl _requestResponseMap. rewrite Hjson.
  destruct (forallb _ _); cbn [history streams promises with_this].
  - split; [reflexivity|]. split; [exact Hp|].
    erewrite nth_error_close_stream
      by (apply nth_error_enqueued; exact Hs).
    reflexivity.
  - split; [reflexivity|]. split; [exact Hp|].
    apply nth_error_enqueued. exact Hs.
Qed.

(** X10.  In JSON response mode, and in any mode once the stream of
    the request is no longer registered (its consumer cancelled it, or
    [close] ran), [send] for a known request writes nothing and does
    not consult the event store: it returns, the streams and the
    history are untouched, and a response is still recorded, so that
    the request is cleaned up when its stream completes. *)
Theorem send_without_stream_is_silent :
  forall (message : JSONRPCMessage) (relatedRequestId : option RequestId)
         (requestId : RequestId) (streamId : string) (w : World),
    effective_request_id message relatedRequestId = Some requestId ->
    optional_truthy (JSMap.get requestId (_requestToStreamMapping (this w)))
      = Some streamId ->
    _enableJsonResponse (this w) = true
    \/ JSMap.get streamId (_streamMapping (this w)) = None ->
    exists w',
      send message relatedRequestId w = (Ok tt, w')
      /\ streams w' = streams w
      /\ history w' = history w
      /\ timers w' = timers w
      /\ this w' = if terminal message
                   then recorded_this requestId streamId message (this w)
                   else this w.
Proof.
  intros message relatedRequestId requestId streamId w Hid Hsid Hmode.
  rewrite (send_known _ _ _ _ _ Hid Hsid).
  assert (D : deliver streamId message w = (Ok tt, w)).
  { unfold deliver. unfold bind at 1. unfold get_this at 1.
    destruct Hmode as [-> | ->]; [reflexivity|].
    destruct (_enableJsonResponse (this w)); reflexivity. }
  rewrite D. eexists. split; [reflexivity|].
  destruct (terminal message); [|auto].
  rewrite recorded_transport.
  unfold recorded. cbv zeta. simpl _enableJsonResponse.
  destruct (forallb _ _); [|simpl; auto].
  cbn [streams history timers].
  destruct Hmode as [-> | ->]; auto.
  destruct (_enableJsonResponse (this w)); auto.
Qed.

(** *** Responses to an incomplete batch *)

(** X11.  The response to one request of a stream on which another
    request is still unanswered is only buffered: no mapping is cleaned
    up, no promise is resolved, and no open stream is closed. *)
Theorem partial_response_is_only_buffered :
  forall (message : JSONRPCMessage) (relatedRequestId : option RequestId)
         (requestId other : RequestId) (streamId : string) (w w' : World),
    terminal message = true ->
    message_id message = Some requestId ->
    optional_truthy (JSMap.get requestId (_requestToStreamMapping (this w)))
      = Some streamId ->
    In (other, streamId) (JSMap.entries (_requestToStreamMapping (this w))) ->
    other <> requestId ->
    JSMap.has other (_requestResponseMap (this w)) = false ->
    send message relatedRequestId w = (Ok tt, w') ->
    this w' =
      set_requestResponseMap
        (JSMap.set requestId message (_requestResponseMap (this w)))
        (this w)
    /\ promises w' = promises w
    /\ timers w' = timers w
    /\ forall c, is_open c (streams w) -> is_open c (streams w').
Proof.
  intros message relatedRequestId requestId other streamId w w'
    Ht Hm Hsid Hin Hne Hhas E.
  rewrite (send_known _ _ _ _ _ (effective_terminal _ _ _ Ht Hm) Hsid) in E.
  pose proof (deliver_same_transport streamId message w) as (Hthis & Hp & Hq).
  pose proof (fun c => deliver_keeps_open streamId message c w) as Hopen.
  destruct (deliver streamId message w) as [[[]|e] w1]; [|discriminate].
  simpl in Hthis, Hp, Hq, Hopen. rewrite Ht in E. inversion E. subst w'.
  clear E.
  assert (Hno :
    forallb
      (fun id =>
         JSMap.has id
           (JSMap.set requestId message (_requestResponseMap (this w1))))
      (relatedIds_of streamId (_requestToStreamMapping (this w1))) = false).
  { rewrite Hthis. apply not_true_is_false. intros Hall.
    rewrite forallb_forall in Hall.
    specialize (Hall other (proj2 (In_relatedIds _ _ _) Hin)).
    unfold JSMap.has in Hall, Hhas.
    rewrite JSMapFacts.get_set_other in Hall by congruence.
    congruence. }
  unfold recorded. cbv zeta. simpl _requestToStreamMapping.
  simpl _requestResponseMap. rewrite Hno.
  cbn [this with_this promises timers streams].
  rewrite Hthis. auto.
Qed.


(** *** After [close] *)

Lemma call_onmessage_frame authInfo m w :
  this (snd (call_onmessage authInfo m w)) = this w
  /\ promises (snd (call_onmessage authInfo m w)) = promises w
  /\ streams (snd (call_onmessage authInfo m w)) = streams w.
Proof.
  unfold call_onmessage, bind, get_this.
  destruct (onmessage (this w)); simpl; auto.
Qed.

Lemma for_each_onmessage_frame authInfo messages :
  forall w,
    this (snd (for_each (call_onmessage authInfo) messages w)) = this w
    /\ promises (snd (for_each (call_onmessage authInfo) messages w))
       = promises w
    /\ streams (snd (for_each (call_onmessage authInfo) messages w))
       = streams w.
Proof.
  induction messages as [|m messages IH]; intros w; [simpl; auto|].
  simpl for_each. unfold bind.
  pose proof (call_onmessage_frame authInfo m w) as (Ht & Hp & Hs).
  destruct (call_onmessage authInfo m w) as [[[]|e] w1]; simpl in *.
  - destruct (IH w1) as (-> & -> & ->). auto.
  - auto.
Qed.

Lemma send_standalone_frame message relatedRequestId w :
  effective_request_id message relatedRequestId = None ->
  same_transport w (snd (send message relatedRequestId w)).
Proof.
  intros Hid. unfold send. rewrite Hid.
  destruct (terminal message); [apply same_transport_refl|].
  unfold bind at 1. unfold get_this at 1.
  destruct (JSMap.get _standaloneSseStreamId _) as [c|];
    [|apply same_transport_refl].
  apply (deliver_frame (this w) (Some c) _standaloneSseStreamId message w).
Qed.

(** With no resolver pending, [send] resolves no promise and leaves no
    resolver behind. *)
Lemma send_resolves_nothing message relatedRequestId w :
  _pendingResponses (this w) = [] ->
  _pendingResponses (this (snd (send message relatedRequestId w))) = []
  /\ promises (snd (send message relatedRequestId w)) = promises w.
Proof.
  intros Hp.
  destruct (effective_request_id message relatedRequestId)
    as [requestId|] eqn:Hid.
  - destruct (send message relatedRequestId w) as [[[]|e] w'] eqn:E.
    + destruct (send_returns _ _ _ _ _ Hid E)
        as (streamId & w1 & _ & (Ht & Hpr & _) & ->).
      simpl snd. destruct (terminal message).
      * unfold recorded. cbv zeta. simpl _enableJsonResponse.
        simpl _pendingResponses. rewrite Ht, Hp. simpl JSMap.get.
        destruct (forallb _ _).
        -- cbn [this promises]. unfold completed, cleanup. cbv zeta.
           simpl _enableJsonResponse.
           destruct (_enableJsonResponse (this w)); simpl; rewrite ?Hp;
             auto.
        -- simpl. rewrite ?Ht. auto.
      * rewrite ?Ht. auto.
    + apply send_throws in E as (Ht & Hpr & _). simpl. rewrite Ht. auto.
  - destruct (send_standalone_frame _ _ w Hid) as (Ht & Hpr & _).
    rewrite Ht. auto.
Qed.

Lemma quiet_step a w :
  no_request a = true ->
  _pendingResponses (this w) = [] ->
  _pendingResponses (this (perform a w)) = []
  /\ promises (perform a w) = promises w.
Proof.
  intros Ha Hp. destruct a; try discriminate Ha; simpl perform.
  - unfold start, bind, get_this.
    destruct (_started (this w)); simpl; auto.
  - apply send_resolves_nothing. exact Hp.
  - rewrite close_world. simpl. auto.
  - unfold readable_cancel.
    destruct (nth_error (streams w) c) as [s|]; [|auto].
    destruct (closed s); [auto|].
    rewrite cancel_hook_world. simpl. auto.
  - unfold run_timer. destruct (timers w) as [|task rest]; [auto|].
    destruct (for_each_onmessage_frame (task_authInfo task)
                (task_messages task) (with_timers rest w))
      as (-> & -> & _).
    simpl. auto.
  - simpl. auto.
  - simpl. auto.
  - simpl. auto.
Qed.

Lemma quiet_run actions :
  forall w,
    forallb no_request actions = true ->
    _pendingResponses (this w) = [] ->
    promises (run actions w) = promises w
    /\ _pendingResponses (this (run actions w)) = [].
Proof.
  induction actions as [|a actions IH]; intros w Hall Hp; simpl.
  - auto.
  - simpl in Hall. apply andb_true_iff in Hall as [Ha Hall].
    destruct (quiet_step a w Ha Hp) as [Hp' Hpr'].
    rewrite <- Hpr'. apply IH; auto.
Qed.

(** X12.  [close] drops the resolvers of the POSTs that are waiting
    for their JSON response and resolves none of them; and as long as
    no new request arrives, nothing that happens afterwards ([send] of
    the missing responses included) resolves any promise: a POST that
    was pending at [close] is never answered. *)
Theorem no_answer_after_close :
  forall (w : World) (actions : list Action),
    forallb no_request actions = true ->
    promises (run actions (snd (close w))) = promises w
    /\ _pendingResponses (this (run actions (snd (close w)))) = [].
Proof.
  intros w actions Hall.
  assert (H0 : _pendingResponses (this (snd (close w))) = []
               /\ promises (snd (close w)) = promises w).
  { rewrite close_world. simpl. auto. }
  destruct H0 as [Hp Hpr].
  destruct (quiet_run actions (snd (close w)) Hall Hp) as [E1 E2].
  rewrite E1, Hpr. auto.
Qed.

(** *** A POST that is let through *)

Lemma handlePostRequest_admitted request bodyText authInfo uuid messages w :
  post_admitted request bodyText messages (this w) ->
  handlePostRequest request bodyText authInfo uuid w =
    try_catch (dispatch messages authInfo uuid)
      (fun error => ret (Returned (parse_error_response error))) w.
Proof.
  intros (Ha & Hc & Hl & Hp & Hi & Hv).
  rewrite handlePostRequest_gated by assumption.
  unfold try_catch. unfold bind at 1. unfold lift at 1. rewrite Hp, Hi.
  erewrite bind_ok by apply validateSession_verdict.
  rewrite Hv. reflexivity.
Qed.

Lemma for_each_onmessage_returns authInfo messages :
  forall w,
    onmessage_returns authInfo messages w ->
    for_each (call_onmessage authInfo) messages w =
      (Ok tt,
       with_history (history w ++ delivered authInfo messages (this w)) w).
Proof.
  induction messages as [|m messages IH]; intros w Hr.
  - unfold delivered, calls_onmessage. simpl.
    destruct (onmessage (this w)); rewrite app_nil_r, with_history_same;
      reflexivity.
  - simpl for_each. unfold delivered.
    destruct (onmessage (this w)) as [cb|] eqn:Hcb.
    + erewrite bind_ok.
      2:{ apply (call_onmessage_returns authInfo cb m w Hcb).
          specialize (Hr cb [] m messages Hcb eq_refl).
          simpl in Hr. rewrite app_nil_r in Hr. exact Hr. }
      rewrite IH.
      * unfold delivered. cbn [this with_history history]. rewrite Hcb.
        unfold with_history. simpl. rewrite <- app_assoc. reflexivity.
      * intros cb' done x rest Hcb' ->.
        cbn [this with_history history] in *.
        rewrite <- app_assoc.
        apply (Hr cb' (m :: done) x rest Hcb' eq_refl).
    + erewrite bind_ok.
      2:{ unfold call_onmessage, bind, get_this. rewrite Hcb. reflexivity. }
      rewrite IH.
      * unfold delivered. rewrite Hcb. reflexivity.
      * intros cb' done x rest Hcb'. congruence.
Qed.

(** X13.  A POST that is let through and carries no request (only
    notifications and responses, or an empty batch) is handled while
    the request is being answered: [onmessage] is called for each
    message, in payload order, and the reply is an empty 202; nothing
    is registered and nothing is scheduled. *)
Theorem notifications_are_dispatched_at_once :
  forall (request : Request) (bodyText : string)
         (authInfo : option AuthInfo) (uuid : string)
         (messages : list JSONRPCMessage) (w : World),
    post_admitted request bodyText messages (this w) ->
    existsb isJSONRPCRequest messages = false ->
    onmessage_returns authInfo messages w ->
    handlePostRequest request bodyText authInfo uuid w =
      (Ok (Returned (empty_response 202)),
       with_history (history w ++ delivered authInfo messages (this w)) w).
Proof.
  intros request bodyText authInfo uuid messages w Hadm Hreq Hret.
  rewrite (handlePostRequest_admitted _ _ _ _ _ _ Hadm).
  unfold try_catch, dispatch. rewrite Hreq. cbv zeta.
  change (negb false) with true. cbv iota.
  erewrite bind_ok by (apply for_each_onmessage_returns; exact Hret).
  reflexivity.
Qed.

Lemma dispatch_sse messages authInfo uuid w :
  _enableJsonResponse (this w) = false ->
  existsb isJSONRPCRequest messages = true ->
  dispatch messages authInfo uuid w =
    (Ok (Returned
           (mkResponse 200 (sse_headers "no-cache" (this w))
              (BodyReadable (List.length (streams w))))),
     streaming messages authInfo uuid w).
Proof.
  intros Hj Hr. unfold dispatch. rewrite Hr. cbv zeta.
  change (negb true) with false. cbv iota.
  erewrite bind_ok by reflexivity. rewrite Hj.
  change (negb false) with true. cbv iota.
  erewrite bind_ok by reflexivity.
  erewrite bind_ok by reflexivity.
  erewrite bind_ok by apply store_mapping_loop.
  reflexivity.
Qed.

(** X14.  Outside JSON response mode, a POST that is let through and
    carries a request opens one new stream, registers it under the
    stream id drawn for this POST, maps every request id of the payload
    to that stream id, schedules the dispatch of the payload, and
    answers 200 with the stream as body and the SSE headers (cache
    control [no-cache]), with the session id when there is one.  No
    callback runs before the reply. *)
Theorem post_with_requests_opens_a_stream :
  forall (request : Request) (bodyText : string)
         (authInfo : option AuthInfo) (uuid : string)
         (messages : list JSONRPCMessage) (w : World),
    post_admitted request bodyText messages (this w) ->
    existsb isJSONRPCRequest messages = true ->
    _enableJsonResponse (this w) = false ->
    handlePostRequest request bodyText authInfo uuid w =
      (Ok (Returned
             (mkResponse 200
                ([("Content-Type", "text/event-stream");
                  ("Cache-Control", "no-cache");
                  ("Connection", "keep-alive")]
                 ++ session_header (this w))
                (BodyReadable (List.length (streams w))))),
       streaming messages authInfo uuid w).
Proof.
  intros request bodyText authInfo uuid messages w Hadm Hreq Hj.
  rewrite (handlePostRequest_admitted _ _ _ _ _ _ Hadm).
  unfold try_catch. rewrite dispatch_sse by assumption. reflexivity.
Qed.

(** X15.  The messages of a POST with requests are not handled while
    the request is being answered, in either response mode: the reply
    is given with the history of host calls unchanged and one new task
    scheduled; when that task runs, [onmessage] is called for each
    message of the payload, notifications and responses included, in
    payload order. *)
Theorem dispatch_of_requests_is_deferred :
  forall (request : Request) (bodyText : string)
         (authInfo : option AuthInfo) (uuid : string)
         (messages : list JSONRPCMessage) (w : World),
    post_admitted request bodyText messages (this w) ->
    existsb isJSONRPCRequest messages = true ->
    exists reply w1,
      handlePostRequest request bodyText authInfo uuid w = (Ok reply, w1)
      /\ history w1 = history w
      /\ timers w1 = timers w ++ [mkTask messages authInfo]
      /\ (timers w = [] ->
          onmessage_returns authInfo messages w ->
          run_timer w1 =
            (Ok tt,
             with_history
               (history w ++ delivered authInfo messages (this w))
               (with_timers [] w1))).
Proof.
  intros request bodyText authInfo uuid messages w Hadm Hreq.
  rewrite (handlePostRequest_admitted _ _ _ _ _ _ Hadm).
  unfold try_catch.
  destruct (_enableJsonResponse (this w)) eqn:Hj.
  - rewrite dispatch_json by assumption.
    eexists. eexists. split; [reflexivity|].
    split; [reflexivity|]. split; [reflexivity|].
    intros Ht Hret. unfold run_timer, awaiting. cbn [timers].
    rewrite Ht. cbn [app task_authInfo task_messages].
    rewrite for_each_onmessage_returns; [reflexivity|].
    exact Hret.
  - rewrite dispatch_sse by assumption.
    eexists. eexists. split; [reflexivity|].
    split; [reflexivity|]. split; [reflexivity|].
    intros Ht Hret. unfold run_timer, streaming. cbn [timers].
    rewrite Ht. cbn [app task_authInfo task_messages].
    rewrite for_each_onmessage_returns; [reflexivity|].
    exact Hret.
Qed.


(** *** What a POST has done when it answers *)

Lemma session_rules_status t request st code message :
  session_rules t request = Rejected st code message ->
  st = 400 \/ st = 404.
Proof.
  unfold session_rules.
  destruct (sessionIdGenerator t); [|discriminate].
  destruct (negb (_initialized t)); [intros E; inversion E; auto|].
  destruct (Headers_get _ _) as [[|ch value]|];
    try (intros E; inversion E; auto; fail).
  destruct (same_session _ _); [discriminate|].
  intros E. inversion E. auto.
Qed.

Lemma initialize_refusal messages w r w' :
  initialize messages w = (Ok (Some r), w') ->
  exists message, r = error_response 400 (-32600) message.
Proof.
  unfold initialize. unfold bind at 1. unfold get_this at 1.
  destruct (_initialized (this w) && _).
  { intros E. inversion E. eexists. reflexivity. }
  destruct (1 <? List.length messages)%nat.
  { intros E. inversion E. eexists. reflexivity. }
  unfold bind, ret, update_this, get_this, invoke.
  repeat (destruct_inner; simpl); discriminate.
Qed.

(** The three ways in which [handlePostRequest] comes to its reply:
    one of its own error responses, the response of the [catch], or
    the reply of the dispatch. *)
Lemma post_cases request bodyText authInfo uuid w reply w1 :
  handlePostRequest request bodyText authInfo uuid w = (Ok reply, w1) ->
  (exists st code message,
     reply = Returned (error_response st code message)
     /\ ~ 200 <= st < 300)
  \/ (exists e, reply = Returned (parse_error_response e))
  \/ (exists messages w0,
        parse_messages bodyText = Ok messages
        /\ (if existsb isInitializeRequest messages
            then initialize messages
            else validateSession request) w = (Ok None, w0)
        /\ dispatch messages authInfo uuid w0 = (Ok reply, w1)).
Proof.
  unfold handlePostRequest, try_catch. cbv zeta.
  destruct (negb _ || negb _).
  { intros E. inversion E. left. do 3 eexists. split; [reflexivity|lia]. }
  destruct (optional_falsy _ || negb _).
  { intros E. inversion E. left. do 3 eexists. split; [reflexivity|lia]. }
  destruct (js_length bodyText >? MAXIMUM_MESSAGE_SIZE).
  { intros E. inversion E. left. do 3 eexists. split; [reflexivity|lia]. }
  unfold bind at 1. unfold lift at 1.
  destruct (parse_messages bodyText) as [messages|e] eqn:Hp.
  2:{ intros E. inversion E. right. left. eexists. reflexivity. }
  unfold bind at 1.
  match goal with
  | |- context [(if ?b then initialize messages else ?v) w] =>
      destruct ((if b then initialize messages else v) w)
        as [[[r|]|e] w0] eqn:Eearly
  end.
  - intros E. inversion E. subst. left.
    destruct (existsb isInitializeRequest messages).
    + apply initialize_refusal in Eearly as [message ->].
      do 3 eexists. split; [reflexivity|lia].
    + rewrite validateSession_verdict in Eearly. inversion Eearly as [[Hv Hw]].
      destruct (session_rules (this w) request) as [|st code message] eqn:Hr;
        [discriminate|].
      simpl in Hv. inversion Hv. subst.
      apply session_rules_status in Hr.
      do 3 eexists. split; [reflexivity|lia].
  - destruct (dispatch messages authInfo uuid w0) as [[reply'|e] w1'] eqn:Ed.
    + intros E. inversion E. subst. right. right.
      exists messages, w0. auto.
    + intros E. inversion E. right. left. eexists. reflexivity.
  - intros E. inversion E. right. left. eexists. reflexivity.
Qed.

Lemma post_accepted request bodyText authInfo uuid w reply w1 :
  handlePostRequest request bodyText authInfo uuid w = (Ok reply, w1) ->
  accepted reply ->
  exists messages w0,
    parse_messages bodyText = Ok messages
    /\ (if existsb isInitializeRequest messages
        then initialize messages
        else validateSession request) w = (Ok None, w0)
    /\ dispatch messages authInfo uuid w0 = (Ok reply, w1).
Proof.
  intros E Hacc.
  destruct (post_cases _ _ _ _ _ _ _ E)
    as [(st & code & message & -> & Hst)|[(e & ->)|Hd]].
  - exfalso. revert Hacc. apply error_response_not_accepted. exact Hst.
  - exfalso. unfold accepted, successful in Hacc. simpl in Hacc. lia.
  - exact Hd.
Qed.

Lemma initialize_streams messages w c w' :
  initialize messages w = (c, w') -> streams w' = streams w.
Proof.
  unfold initialize, bind, get_this, update_this, invoke, ret.
  repeat (destruct_inner; simpl);
    intros E; inversion E; reflexivity.
Qed.

Lemma early_frame (request : Request) messages w w0 :
  (if existsb isInitializeRequest messages
   then initialize messages
   else validateSession request) w = (Ok None, w0) ->
  same_mappings w w0 /\ streams w0 = streams w.
Proof.
  destruct (existsb isInitializeRequest messages); intros E.
  - split; [eapply initialize_frame|eapply initialize_streams]; exact E.
  - rewrite validateSession_verdict in E. inversion E.
    split; [apply same_mappings_refl|reflexivity].
Qed.

Lemma get_register_other (uuid : string) ids :
  forall (index : JSMap.t RequestId string) id,
    ~ In id ids ->
    JSMap.get id (register uuid ids index) = JSMap.get id index.
Proof.
  induction ids as [|x ids IH]; intros index id Hn; [reflexivity|].
  change (register uuid (x :: ids) index)
    with (register uuid ids (JSMap.set x uuid index)).
  rewrite IH.
  - apply JSMapFacts.get_set_other. intros ->. apply Hn. left. reflexivity.
  - intros Hin. apply Hn. right. exact Hin.
Qed.

Lemma get_register_In (uuid : string) ids :
  forall (index : JSMap.t RequestId string) id,
    In id ids ->
    JSMap.get id (register uuid ids index) = Some uuid.
Proof.
  induction ids as [|x ids IH]; intros index id Hin; [contradiction|].
  change (register uuid (x :: ids) index)
    with (register uuid ids (JSMap.set x uuid index)).
  destruct (in_dec same_value_zero id ids) as [Hi|Hn].
  - apply IH. exact Hi.
  - destruct Hin as [->|Hi]; [|contradiction].
    rewrite (get_register_other uuid ids _ id Hn).
    apply JSMapFacts.get_set_same.
Qed.

Lemma is_open_new ss : is_open (List.length ss) (ss ++ [mkSSEStream false []]).
Proof. eexists. split; [apply nth_error_new|reflexivity]. Qed.

(** X16.  Once a POST with requests has been accepted (a 2xx response
    or the promise of one), every request id of its payload is mapped
    to the stream id drawn for this POST, whether the POST carried the
    initialize request or not, and the other request ids are mapped as
    before; outside JSON response mode that stream id is registered
    with a new, open stream, and in JSON response mode with a pending
    promise.  So [send] finds where the response to each of these
    requests goes. *)
Theorem accepted_post_registers_its_requests :
  forall (request : Request) (bodyText : string)
         (authInfo : option AuthInfo) (uuid : string) (w w1 : World)
         (reply : Reply) (messages : list JSONRPCMessage),
    parse_messages bodyText = Ok messages ->
    existsb isJSONRPCRequest messages = true ->
    handlePostRequest request bodyText authInfo uuid w = (Ok reply, w1) ->
    accepted reply ->
    (forall id,
       In id (request_ids messages) ->
       JSMap.get id (_requestToStreamMapping (this w1)) = Some uuid)
    /\ (forall id,
          ~ In id (request_ids messages) ->
          JSMap.get id (_requestToStreamMapping (this w1))
          = JSMap.get id (_requestToStreamMapping (this w)))
    /\ (_enableJsonResponse (this w) = false ->
        JSMap.get uuid (_streamMapping (this w1))
          = Some (List.length (streams w))
        /\ is_open (List.length (streams w)) (streams w1))
    /\ (_enableJsonResponse (this w) = true ->
        JSMap.get uuid (_pendingResponses (this w1))
          = Some (List.length (promises w))
        /\ nth_error (promises w1) (List.length (promises w)) = Some None).
Proof.
  intros request bodyText authInfo uuid w w1 reply messages Hp Hreq E Hacc.
  destruct (post_accepted _ _ _ _ _ _ _ E Hacc)
    as (messages' & w0 & Hp' & Hearly & Hd).
  assert (messages' = messages) by congruence. subst messages'.
  destruct (early_frame _ _ _ _ Hearly)
    as ((Hsm & Hidx & _ & Hpend & Hj & Hprom) & Hstr).
  destruct (_enableJsonResponse (this w)) eqn:Hjson.
  - rewrite dispatch_json in Hd by congruence. inversion Hd. subst.
    unfold awaiting. cbn [this promises]. simpl _requestToStreamMapping.
    simpl _pendingResponses. rewrite Hidx, Hprom.
    split; [intros; apply get_register_In; assumption|].
    split; [intros; apply get_register_other; assumption|].
    split; [discriminate|]. intros _.
    split; [apply JSMapFacts.get_set_same|apply nth_error_new].
  - rewrite dispatch_sse in Hd by congruence. inversion Hd. subst.
    unfold streaming. cbn [this streams]. simpl _requestToStreamMapping.
    simpl _streamMapping. rewrite Hidx, Hstr.
    split; [intros; apply get_register_In; assumption|].
    split; [intros; apply get_register_other; assumption|].
    split; [|discriminate]. intros _.
    split; [apply JSMapFacts.get_set_same|apply is_open_new].
Qed.


(** *** Promised replies *)

Ltac returns_only :=
  repeat
    lazymatch goal with
    | |- yields _ _ =>
        first
          [ apply yields_ret; eexists; reflexivity
          | apply yields_throw
          | apply yields_try_catch; [|intros ?]
          | match goal with
            | |- yields (if ?c then _ else _) _ => destruct c
            | |- yields (match ?c with _ => _ end) _ => destruct c
            end
          | eapply yields_bind; [apply yields_any|]; intros ? _
          | progress cbv beta zeta ]
    end.

Lemma handleGetRequest_returns_a_response request :
  yields (handleGetRequest request) (fun reply => exists r, reply = Returned r).
Proof. unfold handleGetRequest, replayEvents. returns_only. Qed.

Lemma handleDeleteRequest_returns_a_response request :
  yields (handleDeleteRequest request)
    (fun reply => exists r, reply = Returned r).
Proof. unfold handleDeleteRequest. returns_only. Qed.

(** X17.  [handleRequest] answers with a promise instead of a response
    in one case only: a POST with requests in JSON response mode.  The
    promise is new and pending, and its resolver is registered under
    the stream id of the POST. *)
Theorem promise_only_for_post_in_json_mode :
  forall (request : Request) (bodyText : string)
         (authInfo : option AuthInfo) (uuid : string) (w w1 : World)
         (p : PromiseRef),
    handleRequest request bodyText authInfo uuid w = (Ok (Promised p), w1) ->
    req_method request = "POST"
    /\ _enableJsonResponse (this w) = true
    /\ (exists messages,
          parse_messages bodyText = Ok messages
          /\ existsb isJSONRPCRequest messages = true)
    /\ p = List.length (promises w)
    /\ nth_error (promises w1) p = Some None
    /\ JSMap.get uuid (_pendingResponses (this w1)) = Some p.
Proof.
  intros request bodyText authInfo uuid w w1 p. unfold handleRequest.
  cbv zeta.
  destruct (String.eqb (req_method request) "POST") eqn:Hm.
  - apply String.eqb_eq in Hm. intros E.
    destruct (post_accepted _ _ _ _ _ _ _ E I)
      as (messages & w0 & Hp & Hearly & Hd).
    destruct (early_frame _ _ _ _ Hearly)
      as ((_ & _ & _ & Hpend & Hj & Hprom) & _).
    pose proof (dispatch_promised _ _ _ _ _ _ Hd) as Hreq.
    destruct (_enableJsonResponse (this w)) eqn:Hjson.
    + rewrite dispatch_json in Hd by congruence. inversion Hd. subst.
      unfold awaiting. cbn [this promises]. simpl _pendingResponses.
      rewrite Hprom.
      split; [exact Hm|]. split; [reflexivity|].
      split; [exists messages; auto|]. split; [reflexivity|].
      split; [apply nth_error_new|apply JSMapFacts.get_set_same].
    + rewrite dispatch_sse in Hd by congruence. discriminate.
  - destruct (String.eqb (req_method request) "GET").
    { intros E. apply handleGetRequest_returns_a_response in E.
      destruct E. discriminate. }
    destruct (String.eqb (req_method request) "DELETE").
    { intros E. apply handleDeleteRequest_returns_a_response in E.
      destruct E. discriminate. }
    discriminate.
Qed.

(** *** The initialize step *)

Lemma handlePostRequest_initialize request bodyText authInfo uuid messages w :
  initialize_admitted request bodyText messages (this w) ->
  handlePostRequest request bodyText authInfo uuid w =
    try_catch
      (early <- initialize messages ;;
       match early with
       | Some r => ret (Returned r)
       | None => dispatch messages authInfo uuid
       end)
      (fun error => ret (Returned (parse_error_response error))) w.
Proof.
  intros (Ha & Hc & Hl & Hp & Hi & _).
  rewrite handlePostRequest_gated by assumption.
  unfold try_catch. unfold bind at 1. unfold lift at 1. rewrite Hp, Hi.
  reflexivity.
Qed.

Lemma not_yet_initialized t :
  _initialized t = false \/ sessionId t = None ->
  _initialized t
  && match sessionId t with Some _ => true | None => false end = false.
Proof.
  intros [-> | ->]; [reflexivity|apply andb_false_r].
Qed.

(** X18.  An initialize request must come alone: on a transport that
    can still be initialized, a batch of more than one message that
    contains an initialize request is refused with 400 and the JSON-RPC
    error -32600 [Only one initialization request is allowed]; no
    session id is generated and nothing changes. *)
Theorem initialize_in_a_batch_is_refused :
  forall (request : Request) (bodyText : string)
         (authInfo : option AuthInfo) (uuid : string)
         (messages : list JSONRPCMessage) (w : World),
    initialize_admitted request bodyText messages (this w) ->
    (1 < List.length messages)%nat ->
    exists r,
      handlePostRequest request bodyText authInfo uuid w
      = (Ok (Returned r), w)
      /\ jsonrpc_error r 400 (-32600)
           "Invalid Request: Only one initialization request is allowed"
           None.
Proof.
  intros request bodyText authInfo uuid messages w Hadm Hlen.
  rewrite (handlePostRequest_initialize _ _ _ _ _ _ Hadm).
  destruct Hadm as (_ & _ & _ & _ & _ & Hfresh).
  unfold try_catch, initialize. unfold bind at 1. unfold bind at 1.
  unfold get_this at 1.
  rewrite (not_yet_initialized _ Hfresh).
  apply Nat.ltb_lt in Hlen. rewrite Hlen.
  eexists. split; [reflexivity|]. apply error_response_shape.
Qed.

Lemma initialize_generator_fails messages w g e :
  _initialized (this w) = false \/ sessionId (this w) = None ->
  (List.length messages <= 1)%nat ->
  sessionIdGenerator (this w) = Some g ->
  g (history w) = Raise e ->
  initialize messages w =
    (Raise e, with_history (history w ++ [Call_sessionIdGenerator]) w).
Proof.
  intros Hfresh Hlen Hg He.
  unfold initialize. unfold bind at 1. unfold get_this at 1.
  rewrite (not_yet_initialized _ Hfresh).
  apply Nat.ltb_ge in Hlen. rewrite Hlen. rewrite Hg.
  unfold bind, invoke. rewrite He. reflexivity.
Qed.

Lemma initialize_generates messages w g s :
  _initialized (this w) = false \/ sessionId (this w) = None ->
  (List.length messages <= 1)%nat ->
  sessionIdGenerator (this w) = Some g ->
  g (history w) = Ok s ->
  initialize messages w =
    (match optional_truthy (Some s), _onsessioninitialized (this w) with
     | Some s', Some cb =>
         match cb s' (history w ++ [Call_sessionIdGenerator]) with
         | Ok _ => Ok None
         | Raise e => Raise e
         end
     | _, _ => Ok None
     end,
     initialized_with s w).
Proof.
  intros Hfresh Hlen Hg Hs.
  unfold initialize. unfold bind at 1. unfold get_this at 1.
  rewrite (not_yet_initialized _ Hfresh).
  apply Nat.ltb_ge in Hlen. rewrite Hlen. rewrite Hg.
  unfold initialized_with, session_announcement.
  unfold bind, invoke, ret, update_this, get_this. rewrite Hs.
  cbn [this with_this with_history history streams promises timers].
  unfold optional_truthy, with_this, with_history. simpl.
  destruct (truthy s);
    [destruct (_onsessioninitialized (this w)) as [cb|]|]; simpl.
  - destruct (cb s (history w ++ [Call_sessionIdGenerator])) as [[]|e'];
      rewrite <- app_assoc; reflexivity.
  - rewrite ?app_nil_r. reflexivity.
  - rewrite ?app_nil_r. reflexivity.
Qed.

(** X19.  If the session id generator throws, the initialize POST is
    answered 400 with the JSON-RPC error -32700 [Parse error] and the
    stringified exception as data; the transport object is untouched,
    so it is still uninitialized and the client can try again. *)
Theorem failing_generator_leaves_transport_uninitialized :
  forall (request : Request) (bodyText : string)
         (authInfo : option AuthInfo) (uuid : string)
         (messages : list JSONRPCMessage) (w : World)
         (generator : History -> Completion string) (e : Exn),
    initialize_admitted request bodyText messages (this w) ->
    (List.length messages <= 1)%nat ->
    sessionIdGenerator (this w) = Some generator ->
    generator (history w) = Raise e ->
    handlePostRequest request bodyText authInfo uuid w =
      (Ok (Returned (parse_error_response e)),
       with_history (history w ++ [Call_sessionIdGenerator]) w)
    /\ jsonrpc_error (parse_error_response e) 400 (-32700) "Parse error"
         (Some (JString (String_of_exn e))).
Proof.
  intros request bodyText authInfo uuid messages w generator e
    Hadm Hlen Hg He.
  rewrite (handlePostRequest_initialize _ _ _ _ _ _ Hadm).
  destruct Hadm as (_ & _ & _ & _ & _ & Hfresh).
  split; [|apply parse_error_response_shape].
  unfold try_catch.
  erewrite bind_raise
    by exact (initialize_generator_fails messages w generator e
                Hfresh Hlen Hg He).
  reflexivity.
Qed.

(** X20.  If [onsessioninitialized] throws, the initialize POST is
    answered 400 [Parse error] although the session has been
    established: the transport is initialized under the generated id,
    no stream is opened and no message dispatched, and a second
    initialize POST is refused with [Server already initialized]. *)
Theorem failing_onsessioninitialized_keeps_the_session :
  forall (request : Request) (bodyText : string)
         (authInfo : option AuthInfo) (uuid : string)
         (messages : list JSONRPCMessage) (w : World)
         (generator : History -> Completion string) (s : string)
         (cb : string -> History -> Completion unit) (e : Exn),
    initialize_admitted request bodyText messages (this w) ->
    (List.length messages <= 1)%nat ->
    sessionIdGenerator (this w) = Some generator ->
    generator (history w) = Ok s ->
    truthy s = true ->
    _onsessioninitialized (this w) = Some cb ->
    cb s (history w ++ [Call_sessionIdGenerator]) = Raise e ->
    handlePostRequest request bodyText authInfo uuid w =
      (Ok (Returned (parse_error_response e)), initialized_with s w)
    /\ session_established s (this (initialized_with s w))
    /\ forall uuid',
         exists r,
           handlePostRequest request bodyText authInfo uuid'
             (initialized_with s w)
           = (Ok (Returned r), initialized_with s w)
           /\ jsonrpc_error r 400 (-32600)
                "Invalid Request: Server already initialized" None.
Proof.
  intros request bodyText authInfo uuid messages w generator s cb e
    Hadm Hlen Hg Hs Ht Hcb He.
  assert (Hest : session_established s (this (initialized_with s w))).
  { split; reflexivity. }
  split; [|split; [exact Hest|]].
  - rewrite (handlePostRequest_initialize _ _ _ _ _ _ Hadm).
    destruct Hadm as (_ & _ & _ & _ & _ & Hfresh).
    assert (Hinit : initialize messages w = (Raise e, initialized_with s w)).
    { rewrite (initialize_generates messages w generator s
                 Hfresh Hlen Hg Hs).
      unfold optional_truthy. rewrite Ht, Hcb, He. reflexivity. }
    unfold try_catch. erewrite bind_raise by exact Hinit. reflexivity.
  - intros uuid'.
    destruct Hadm as (Ha & Hc & Hl & Hp & Hi & _).
    rewrite handlePostRequest_gated by assumption.
    unfold try_catch. unfold bind at 1. unfold lift at 1. rewrite Hp, Hi.
    erewrite bind_ok by (apply (initialize_refused s); exact Hest).
    eexists. split; [reflexivity|]. apply error_response_shape.
Qed.

Lemma dispatch_outcome_keeps_session s messages authInfo uuid w :
  session_established s (this w) ->
  session_established s
    (this (snd (try_catch (dispatch messages authInfo uuid)
                  (fun error => ret (Returned (parse_error_response error)))
                  w))).
Proof.
  intros Hs.
  pose proof (dispatch_keeps_session s messages authInfo uuid w Hs) as Hd.
  unfold try_catch.
  destruct (dispatch messages authInfo uuid w) as [[reply|e] w1]; exact Hd.
Qed.

(** X21.  A successful initialize step: the generator is called once,
    its result becomes the session id, the transport is initialized,
    and [onsessioninitialized] is told the id (if the id is not empty);
    then the payload is dispatched like that of any POST.  Outside JSON
    response mode, the response to an initialize request carries the
    new session id in its [mcp-session-id] header. *)
Theorem initialize_establishes_the_generated_session :
  forall (request : Request) (bodyText : string)
         (authInfo : option AuthInfo) (uuid : string)
         (messages : list JSONRPCMessage) (w : World)
         (generator : History -> Completion string) (s : string),
    initialize_admitted request bodyText messages (this w) ->
    (List.length messages <= 1)%nat ->
    sessionIdGenerator (this w) = Some generator ->
    generator (history w) = Ok s ->
    (forall cb,
       _onsessioninitialized (this w) = Some cb ->
       truthy s = true ->
       cb s (history w ++ [Call_sessionIdGenerator]) = Ok tt) ->
    handlePostRequest request bodyText authInfo uuid w =
      try_catch (dispatch messages authInfo uuid)
        (fun error => ret (Returned (parse_error_response error)))
        (initialized_with s w)
    /\ session_established s
         (this (snd (handlePostRequest request bodyText authInfo uuid w)))
    /\ (_enableJsonResponse (this w) = false ->
        existsb isJSONRPCRequest messages = true ->
        handlePostRequest request bodyText authInfo uuid w =
          (Ok (Returned
                 (mkResponse 200
                    [("Content-Type", "text/event-stream");
                     ("Cache-Control", "no-cache");
                     ("Connection", "keep-alive");
                     ("mcp-session-id", s)]
                    (BodyReadable (List.length (streams w))))),
           streaming messages authInfo uuid (initialized_with s w))).
Proof.
  intros request bodyText authInfo uuid messages w generator s
    Hadm Hlen Hg Hs Hcb.
  assert (E : handlePostRequest request bodyText authInfo uuid w =
              try_catch (dispatch messages authInfo uuid)
                (fun error => ret (Returned (parse_error_response error)))
                (initialized_with s w)).
  { rewrite (handlePostRequest_initialize _ _ _ _ _ _ Hadm).
    destruct Hadm as (_ & _ & _ & _ & _ & Hfresh).
    assert (Hinit : initialize messages w = (Ok None, initialized_with s w)).
    { rewrite (initialize_generates messages w generator s
                 Hfresh Hlen Hg Hs).
      unfold optional_truthy.
      destruct (truthy s) eqn:Ht; [|reflexivity].
      destruct (_onsessioninitialized (this w)) as [cb|] eqn:Ecb;
        [|reflexivity].
      rewrite (Hcb cb eq_refl eq_refl). reflexivity. }
    unfold try_catch. erewrite bind_ok by exact Hinit. reflexivity. }
  split; [exact E|]. split.
  - rewrite E. apply dispatch_outcome_keeps_session. split; reflexivity.
  - intros Hj Hreq. rewrite E. unfold try_catch.
    rewrite dispatch_sse by assumption. reflexivity.
Qed.


(** *** A session id must not be empty *)

Lemma generator_perform G a w :
  sessionIdGenerator (this w) = G ->
  sessionIdGenerator (this (perform a w)) = G.
Proof.
  apply (perform_preserves (fun t => sessionIdGenerator t = G)).
  - preserve. all: simpl; auto.
  - intros. preserve. all: simpl; auto.
  - intros. apply send_preserves. intros requestId streamId t Ht _.
    destruct (recorded_this_settings requestId streamId message t)
      as (-> & _). exact Ht.
  - preserve. all: simpl; auto.
  - preserve. all: simpl; auto.
  - intros. simpl. assumption.
  - intros. simpl. assumption.
  - intros. simpl. assumption.
Qed.

Lemma generator_run G actions :
  forall w,
    sessionIdGenerator (this w) = G ->
    sessionIdGenerator (this (run actions w)) = G.
Proof.
  induction actions as [|a actions IH]; intros w Hw; simpl; auto.
  apply IH. apply generator_perform. exact Hw.
Qed.

Lemma empty_session_rejects t g request :
  sessionIdGenerator t = Some g ->
  session_established EmptyString t ->
  exists st code message,
    session_rules t request = Rejected st code message
    /\ (st = 400 \/ st = 404).
Proof.
  intros Hg [Hi Hs]. unfold session_rules. rewrite Hg, Hi, Hs. simpl.
  destruct (Headers_get "mcp-session-id" (req_headers request))
    as [[|ch value]|]; do 3 eexists; split; try reflexivity; auto.
Qed.

(** X22.  The session id generator must not return the empty string.
    If it does, [onsessioninitialized] is not called, the transport
    is initialized under the empty id, and from then on no request can
    join the session: whatever its [Mcp-Session-Id] header and whatever
    has happened to the transport since, session validation rejects it
    with 400 or 404. *)
Theorem empty_session_id_locks_out_every_request :
  forall (request : Request) (bodyText : string)
         (authInfo : option AuthInfo) (uuid : string)
         (messages : list JSONRPCMessage) (w : World)
         (generator : History -> Completion string),
    initialize_admitted request bodyText messages (this w) ->
    (List.length messages <= 1)%nat ->
    sessionIdGenerator (this w) = Some generator ->
    generator (history w) = Ok EmptyString ->
    session_announcement EmptyString (this w) = []
    /\ forall (actions : list Action) (request' : Request),
         exists r,
           validateSession request'
             (run actions
                (snd (handlePostRequest request bodyText authInfo uuid w)))
           = (Ok (Some r),
              run actions
                (snd (handlePostRequest request bodyText authInfo uuid w)))
           /\ (status r = 400 \/ status r = 404).
Proof.
  intros request bodyText authInfo uuid messages w generator
    Hadm Hlen Hg Hs.
  split; [reflexivity|].
  intros actions request'.
  assert (E : handlePostRequest request bodyText authInfo uuid w =
              try_catch (dispatch messages authInfo uuid)
                (fun error => ret (Returned (parse_error_response error)))
                (initialized_with EmptyString w)).
  { rewrite (handlePostRequest_initialize _ _ _ _ _ _ Hadm).
    destruct Hadm as (_ & _ & _ & _ & _ & Hfresh).
    assert (Hinit : initialize messages w
                    = (Ok None, initialized_with EmptyString w)).
    { rewrite (initialize_generates messages w generator EmptyString
                 Hfresh Hlen Hg Hs).
      reflexivity. }
    unfold try_catch. erewrite bind_ok by exact Hinit. reflexivity. }
  set (w1 := snd (handlePostRequest request bodyText authInfo uuid w)).
  assert (Hest : session_established EmptyString (this w1)).
  { unfold w1. rewrite E. apply dispatch_outcome_keeps_session.
    split; reflexivity. }
  assert (Hgen : sessionIdGenerator (this w1) = Some generator).
  { unfold w1.
    assert (Hpost : preserves
                      (fun t => sessionIdGenerator t = Some generator)
                      (handlePostRequest request bodyText authInfo uuid)).
    { preserve. all: simpl; auto. }
    apply Hpost. exact Hg. }
  apply (session_established_run EmptyString actions) in Hest.
  apply (generator_run (Some generator) actions) in Hgen.
  destruct (empty_session_rejects _ _ request' Hgen Hest)
    as (st & code & message & Hr & Hst).
  exists (error_response st code message).
  rewrite validateSession_verdict, Hr. split; [reflexivity|exact Hst].
Qed.

(** *** GET: the standalone stream *)

Lemma handleGetRequest_standalone request w :
  opens_standalone_stream request (this w) ->
  handleGetRequest request w =
    if JSMap.has _standaloneSseStreamId (_streamMapping (this w))
    then (Ok (Returned
                (error_response 409 (-32000)
                   "Conflict: Only one SSE stream is allowed per session")),
          w)
    else (Ok (Returned
                (mkResponse 200
                   (sse_headers "no-cache, no-transform" (this w))
                   (BodyReadable (List.length (streams w))))),
          mkWorld
            (set_streamMapping
               (JSMap.set _standaloneSseStreamId (List.length (streams w))
                  (_streamMapping (this w)))
               (this w))
            (streams w ++ [mkSSEStream false []])
            (promises w) (timers w) (history w)).
Proof.
  intros (Ha & Hv & Hr). unfold handleGetRequest. cbv zeta.
  rewrite Ha. change (negb true) with false. cbv iota.
  erewrite bind_ok by apply validateSession_verdict.
  rewrite Hv. change (verdict_response Valid) with (@None Response).
  cbv iota. unfold bind at 1. unfold get_this at 1. rewrite Hr.
  destruct (JSMap.has _ _); reflexivity.
Qed.

(** X23.  A GET that accepts [text/event-stream], passes session
    validation and asks for no replay opens the standalone stream when
    none is registered: a new, open stream is registered under
    [_GET_stream] and returned as the body of a 200 response with the
    SSE headers (cache control [no-cache, no-transform]) and the
    session id, if any.  A GET that does not accept
    [text/event-stream] is refused with 406 before its session is even
    looked at. *)
Theorem get_opens_the_standalone_stream :
  forall (request : Request) (w : World),
    (optional_includes (Headers_get "accept" (req_headers request))
       "text/event-stream" = false ->
     exists r,
       handleGetRequest request w = (Ok (Returned r), w)
       /\ jsonrpc_error r 406 (-32000)
            "Not Acceptable: Client must accept text/event-stream" None)
    /\ (opens_standalone_stream request (this w) ->
        JSMap.has _standaloneSseStreamId (_streamMapping (this w)) = false ->
        handleGetRequest request w =
          (Ok (Returned
                 (mkResponse 200
                    ([("Content-Type", "text/event-stream");
                      ("Cache-Control", "no-cache, no-transform");
                      ("Connection", "keep-alive")]
                     ++ session_header (this w))
                    (BodyReadable (List.length (streams w))))),
           mkWorld
             (set_streamMapping
                (JSMap.set _standaloneSseStreamId (List.length (streams w))
                   (_streamMapping (this w)))
                (this w))
             (streams w ++ [mkSSEStream false []])
             (promises w) (timers w) (history w))).
Proof.
  intros request w. split.
  - intros Ha. unfold handleGetRequest. cbv zeta. rewrite Ha.
    eexists. split; [reflexivity|]. apply error_response_shape.
  - intros Hopen Hhas.
    rewrite (handleGetRequest_standalone _ _ Hopen), Hhas. reflexivity.
Qed.

Lemma length_list_update {A : Type} n (x : A) l :
  List.length (list_update n x l) = List.length l.
Proof.
  revert n. induction l as [|y l IH]; intros [|n]; simpl; auto.
Qed.

Lemma length_close_stream c ss :
  List.length (close_stream c ss) = List.length ss.
Proof.
  unfold close_stream. destruct (nth_error ss c) as [s|]; [|reflexivity].
  destruct (closed s); [reflexivity|apply length_list_update].
Qed.

Lemma length_close_streams cs :
  forall ss, List.length (close_streams cs ss) = List.length ss.
Proof.
  induction cs as [|c cs IH]; intros ss; [reflexivity|].
  unfold close_streams in *. simpl. rewrite IH. apply length_close_stream.
Qed.

Lemma has_set_same (k : string) (c : Controller) m :
  JSMap.has k (JSMap.set k c m) = true.
Proof. unfold JSMap.has. rewrite JSMapFacts.get_set_same. reflexivity. Qed.

Lemma has_delete_same (k : string) (m : JSMap.t string Controller) :
  JSMap.has k (JSMap.delete k m) = false.
Proof. unfold JSMap.has. rewrite JSMapFacts.get_delete_same. reflexivity. Qed.

Lemma readable_cancel_open c w :
  is_open c (streams w) ->
  readable_cancel c w =
    (Ok tt,
     mkWorld
       (set_streamMapping
          (JSMap.delete _standaloneSseStreamId (_streamMapping (this w)))
          (this w))
       (close_stream c (streams w)) (promises w) (timers w) (history w)).
Proof.
  intros (s & Hs & Ho). unfold readable_cancel, close_stream.
  rewrite Hs, Ho. rewrite cancel_hook_world. reflexivity.
Qed.

Lemma is_open_close_stream_other c c0 ss :
  c <> c0 -> is_open c0 ss -> is_open c0 (close_stream c ss).
Proof.
  intros Hne (s & Hs & Ho). exists s. split; [|exact Ho].
  unfold close_stream. destruct (nth_error ss c) as [s'|]; [|exact Hs].
  destruct (closed s'); [exact Hs|].
  rewrite nth_error_list_update_other by exact Hne. exact Hs.
Qed.

Lemma is_open_app c ss more : is_open c ss -> is_open c (ss ++ more).
Proof.
  intros (s & Hs & Ho). exists s. split; [|exact Ho].
  rewrite nth_error_app1; [exact Hs|].
  apply nth_error_Some. congruence.
Qed.

(** X24.  The conflict gate of GET follows the registry entry
    [_GET_stream], not the streams.  A GET that would open the
    standalone stream is refused with 409, with nothing changed,
    whenever the entry is registered; otherwise it opens a new stream
    and registers it.  [close] removes the entry, and so does the
    cancellation of any open stream, the standalone stream or another
    one: the same GET is then answered 200 with a new open stream,
    while every stream that was open and was not cancelled, the
    standalone stream of an earlier GET among them, is still open.  So
    the gate does not ensure that at most one standalone stream is
    open. *)
Theorem get_conflict_follows_the_registry :
  forall (request : Request) (w : World),
    opens_standalone_stream request (this w) ->
    (JSMap.has _standaloneSseStreamId (_streamMapping (this w)) = true ->
     exists r,
       handleGetRequest request w = (Ok (Returned r), w)
       /\ jsonrpc_error r 409 (-32000)
            "Conflict: Only one SSE stream is allowed per session" None)
    /\ (JSMap.has _standaloneSseStreamId (_streamMapping (this w)) = false ->
        exists r w',
          handleGetRequest request w = (Ok (Returned r), w')
          /\ status r = 200
          /\ body r = BodyReadable (List.length (streams w))
          /\ JSMap.get _standaloneSseStreamId (_streamMapping (this w'))
             = Some (List.length (streams w))
          /\ is_open (List.length (streams w)) (streams w'))
    /\ (forall c,
          is_open c (streams w) ->
          JSMap.has _standaloneSseStreamId
            (_streamMapping (this (snd (readable_cancel c w)))) = false
          /\ exists r w',
               handleGetRequest request (snd (readable_cancel c w))
               = (Ok (Returned r), w')
               /\ status r = 200
               /\ body r = BodyReadable (List.length (streams w))
               /\ is_open (List.length (streams w)) (streams w')
               /\ forall c0,
                    c0 <> c ->
                    is_open c0 (streams w) ->
                    is_open c0 (streams w'))
    /\ opens_standalone_stream request (this (snd (close w)))
    /\ JSMap.has _standaloneSseStreamId
         (_streamMapping (this (snd (close w)))) = false.
Proof.
  intros request w Hopen. split; [|split; [|split]].
  - intros Hhas.
    rewrite (handleGetRequest_standalone _ _ Hopen), Hhas.
    eexists. split; [reflexivity|]. apply error_response_shape.
  - intros Hhas.
    rewrite (handleGetRequest_standalone _ _ Hopen), Hhas.
    eexists. eexists. split; [reflexivity|].
    split; [reflexivity|]. split; [reflexivity|].
    cbn [this streams]. simpl _streamMapping.
    split; [apply JSMapFacts.get_set_same|apply is_open_new].
  - intros c Hc. rewrite (readable_cancel_open _ _ Hc). cbn [snd].
    match goal with
    | |- context [handleGetRequest request ?w2] =>
        assert (Hopen2 : opens_standalone_stream request (this w2))
          by exact Hopen;
        assert (Hhas2 :
                  JSMap.has _standaloneSseStreamId (_streamMapping (this w2))
                  = false)
          by (cbn [this]; simpl _streamMapping; apply has_delete_same);
        rewrite (handleGetRequest_standalone request w2 Hopen2), Hhas2
    end.
    split; [reflexivity|].
    eexists. eexists. split; [reflexivity|].
    cbn [status body streams]. rewrite length_close_stream.
    split; [reflexivity|]. split; [reflexivity|]. split.
    + rewrite <- (length_close_stream c (streams w)). apply is_open_new.
    + intros c0 Hne Ho. apply is_open_app.
      apply is_open_close_stream_other; auto.
  - rewrite close_world. cbn [snd this]. simpl _streamMapping.
    split; [exact Hopen|reflexivity].
Qed.


(** *** GET: replay *)

Lemma enqueued_app c chunks1 chunks2 ss :
  enqueued c chunks2 (enqueued c chunks1 ss) = enqueued c (chunks1 ++ chunks2) ss.
Proof.
  unfold enqueued at 2 3.
  destruct (nth_error ss c) as [s|] eqn:Hs.
  - unfold enqueued.
    rewrite (nth_error_list_update_same ss c _ s Hs). simpl queue.
    rewrite <- app_assoc.
    clear Hs. revert c. induction ss as [|y ss IH]; intros [|c]; simpl; auto.
    f_equal. apply IH.
  - unfold enqueued. rewrite Hs. reflexivity.
Qed.

Lemma enqueued_nil c ss : is_open c ss -> enqueued c [] ss = ss.
Proof.
  intros (s & Hs & Ho). unfold enqueued. rewrite Hs, app_nil_r.
  revert c Hs. induction ss as [|y ss IH]; intros [|c] Hs; simpl in *;
    try discriminate.
  - inversion Hs. subst. destruct s; simpl in *. subst. reflexivity.
  - f_equal. apply IH. exact Hs.
Qed.

Lemma enqueued_new ss q chunks :
  enqueued (List.length ss) chunks (ss ++ [mkSSEStream false q])
  = ss ++ [mkSSEStream false (q ++ chunks)].
Proof.
  unfold enqueued. rewrite nth_error_new. simpl queue.
  induction ss as [|y ss IH]; simpl; [reflexivity|].
  f_equal. exact IH.
Qed.

(** The frames of the events that a replay sends. *)
Lemma replay_frames c (events : list (EventId * JSONRPCMessage)) :
  forall w,
    is_open c (streams w) ->
    for_each
      (fun '(eventId, message) => writeSSEEvent c message (Some eventId))
      events w =
      (Ok tt,
       with_streams
         (enqueued c
            (map (fun '(eventId, message) =>
                    sse_frame message (Some eventId)) events)
            (streams w)) w).
Proof.
  induction events as [|[eventId message] events IH]; intros w Ho.
  - simpl. rewrite enqueued_nil by exact Ho.
    rewrite with_streams_same. reflexivity.
  - simpl for_each.
    erewrite bind_ok by (apply writeSSEEvent_open; exact Ho).
    rewrite IH by (apply is_open_enqueued; exact Ho).
    cbn [streams with_streams]. rewrite enqueued_app. reflexivity.
Qed.

Lemma handleGetRequest_resume request lastEventId store w :
  optional_includes (Headers_get "accept" (req_headers request))
    "text/event-stream" = true ->
  session_rules (this w) request = Valid ->
  _eventStore (this w) = Some store ->
  optional_truthy (Headers_get "last-event-id" (req_headers request))
    = Some lastEventId ->
  handleGetRequest request w = replayEvents lastEventId w.
Proof.
  intros Ha Hv Hs Hl. unfold handleGetRequest. cbv zeta.
  rewrite Ha. change (negb true) with false. cbv iota.
  erewrite bind_ok by apply validateSession_verdict.
  rewrite Hv. change (verdict_response Valid) with (@None Response).
  cbv iota. unfold bind at 1. unfold get_this at 1. rewrite Hs, Hl.
  reflexivity.
Qed.

(** X25.  With an event store, a GET that passes the [Accept] gate
    and session validation and carries a non-empty [Last-Event-ID] is a
    replay, whether or not a standalone stream is registered: the store
    is asked for the events after that id, each is written in turn,
    with its event id, onto a new stream, the stream is registered
    under the stream id that the store returns, and the response is 200
    with that stream as body. *)
Theorem resumed_get_replays_the_stored_events :
  forall (request : Request) (lastEventId : string) (store : EventStore)
         (events : list (EventId * JSONRPCMessage)) (streamId : StreamId)
         (w : World),
    optional_includes (Headers_get "accept" (req_headers request))
      "text/event-stream" = true ->
    session_rules (this w) request = Valid ->
    _eventStore (this w) = Some store ->
    optional_truthy (Headers_get "last-event-id" (req_headers request))
      = Some lastEventId ->
    replayEventsAfter store (history w) lastEventId
      = (events, Ok streamId) ->
    handleGetRequest request w =
      (Ok (Returned
             (mkResponse 200
                ([("Content-Type", "text/event-stream");
                  ("Cache-Control", "no-cache, no-transform");
                  ("Connection", "keep-alive")]
                 ++ session_header (this w))
                (BodyReadable (List.length (streams w))))),
       mkWorld
         (set_streamMapping
            (JSMap.set streamId (List.length (streams w))
               (_streamMapping (this w)))
            (this w))
         (streams w
            ++ [mkSSEStream false
                  (map (fun '(eventId, message) =>
                          sse_frame message (Some eventId)) events)])
         (promises w) (timers w)
         (history w ++ [Call_replayEventsAfter lastEventId])).
Proof.
  intros request lastEventId store events streamId w Ha Hv Hs Hl Hr.
  rewrite (handleGetRequest_resume _ _ _ _ Ha Hv Hs Hl).
  unfold replayEvents. unfold bind at 1. unfold get_this at 1. rewrite Hs.
  unfold try_catch.
  unfold createSSEStream.
  erewrite bind_ok by (erewrite bind_ok by reflexivity; reflexivity).
  erewrite bind_ok by reflexivity. cbv zeta.
  erewrite bind_ok by reflexivity.
  cbn [history with_streams]. rewrite Hr. cbn [fst snd].
  erewrite bind_ok.
  2:{ apply replay_frames. cbn [streams with_history]. apply is_open_new. }
  erewrite bind_ok by reflexivity.
  erewrite bind_ok by reflexivity.
  cbn [streams with_history with_streams]. rewrite enqueued_new.
  reflexivity.
Qed.

(** X26.  If the event store fails to replay, the GET is answered
    with the plain 500 [Internal Server Error], after [onerror] was
    told the exception; the stream that was created for the replay is
    not registered, so the transport object is as before.  If [onerror]
    throws, the GET throws. *)
Theorem failed_replay_registers_nothing :
  forall (request : Request) (lastEventId : string) (store : EventStore)
         (events : list (EventId * JSONRPCMessage)) (e : Exn) (w : World),
    optional_includes (Headers_get "accept" (req_headers request))
      "text/event-stream" = true ->
    session_rules (this w) request = Valid ->
    _eventStore (this w) = Some store ->
    optional_truthy (Headers_get "last-event-id" (req_headers request))
      = Some lastEventId ->
    replayEventsAfter store (history w) lastEventId = (events, Raise e) ->
    fst (handleGetRequest request w) =
      match onerror (this w) with
      | Some cb =>
          match cb e (history w ++ [Call_replayEventsAfter lastEventId]) with
          | Ok _ => Ok (Returned replay_failure)
          | Raise e' => Raise e'
          end
      | None => Ok (Returned replay_failure)
      end
    /\ this (snd (handleGetRequest request w)) = this w
    /\ history (snd (handleGetRequest request w)) =
         history w ++ [Call_replayEventsAfter lastEventId]
           ++ calls_onerror e (this w).
Proof.
  intros request lastEventId store events e w Ha Hv Hs Hl Hr.
  rewrite (handleGetRequest_resume _ _ _ _ Ha Hv Hs Hl).
  assert (Hbody :
    exists w1,
      (controller <- createSSEStream ;;
       t <- get_this ;;
       let headers := sse_headers "no-cache, no-transform" t in
       replay <- invoke (Call_replayEventsAfter lastEventId)
                   (fun h => Ok (replayEventsAfter store h lastEventId)) ;;
       for_each
         (fun '(eventId, message) =>
            writeSSEEvent controller message (Some eventId))
         (fst replay) ;;
       streamId <- lift (snd replay) ;;
       update_this (fun t =>
         set_streamMapping
           (JSMap.set streamId controller (_streamMapping t)) t) ;;
       ret (Returned (mkResponse 200 headers (BodyReadable controller)))) w
      = (Raise e, w1)
      /\ this w1 = this w
      /\ history w1 = history w ++ [Call_replayEventsAfter lastEventId]).
  { unfold createSSEStream.
    erewrite bind_ok by (erewrite bind_ok by reflexivity; reflexivity).
    erewrite bind_ok by reflexivity. cbv zeta.
    erewrite bind_ok by reflexivity.
    cbn [history with_streams]. rewrite Hr. cbn [fst snd].
    erewrite bind_ok.
    2:{ apply replay_frames. cbn [streams with_history]. apply is_open_new. }
    erewrite bind_raise by reflexivity.
    eexists. split; [reflexivity|]. split; reflexivity. }
  destruct Hbody as (w1 & Hbody & Ht & Hh). cbv zeta in Hbody.
  assert (E : replayEvents lastEventId w =
              (match onerror_outcome e w1 with
               | Ok _ => Ok (Returned replay_failure)
               | Raise e' => Raise e'
               end,
               with_history (history w1 ++ calls_onerror e (this w1)) w1)).
  { unfold replayEvents. unfold bind at 1. unfold get_this at 1.
    rewrite Hs. unfold try_catch. rewrite Hbody.
    unfold bind. rewrite call_onerror_world.
    destruct (onerror_outcome e w1) as [[]|e']; reflexivity. }
  rewrite E. cbn [fst snd this history with_history].
  unfold onerror_outcome, calls_onerror. rewrite Ht, Hh.
  split; [|split; [reflexivity|]].
  - destruct (onerror (this w)) as [cb|]; reflexivity.
  - rewrite <- app_assoc. reflexivity.
Qed.

(** *** The buffer of responses *)

(** X27.  In every world that a transport can reach, a response is
    buffered only for a request that is still mapped to a stream: what
    [send] keeps of a batch that is not yet complete never outlives the
    batch. *)
Theorem buffered_responses_have_a_stream :
  forall (w : World) (id : RequestId) (message : JSONRPCMessage),
    reachable w ->
    JSMap.get id (_requestResponseMap (this w)) = Some message ->
    exists streamId,
      JSMap.get id (_requestToStreamMapping (this w)) = Some streamId.
Proof.
  intros w id message Hr Hb.
  pose proof (reachable_buffer_within_index w Hr id) as Hinv.
  destruct (JSMap.get id (_requestToStreamMapping (this w))) as [sid|].
  - exists sid. reflexivity.
  - rewrite Hinv in Hb by reflexivity. discriminate.
Qed.


(** *** Stateless mode *)

Section Ensuring.

Variable I : Transport -> Prop.

Lemma ensures_ret {A : Type} (a : A) (P : A -> Prop) :
  P a -> ensures I (ret a) P.
Proof.
  intros Hp w Hw. split; [exact Hw|].
  intros a' E. inversion E. subst. exact Hp.
Qed.

Lemma ensures_weaken {A : Type} (m : M A) (P Q : A -> Prop) :
  ensures I m P -> (forall a, P a -> Q a) -> ensures I m Q.
Proof.
  intros Hm Hpq w Hw. destruct (Hm w Hw) as [Hi Hp].
  split; [exact Hi|]. intros a E. apply Hpq. apply Hp. exact E.
Qed.

Lemma ensures_preserved {A : Type} (m : M A) :
  preserves I m -> ensures I m (fun _ => True).
Proof. intros Hm w Hw. split; [apply Hm; exact Hw|auto]. Qed.

Lemma ensures_bind {A B : Type} (m : M A) (k : A -> M B)
  (Q : A -> Prop) (P : B -> Prop) :
  ensures I m Q -> (forall a, Q a -> ensures I (k a) P) ->
  ensures I (bind m k) P.
Proof.
  intros Hm Hk w Hw. destruct (Hm w Hw) as [Hi Hq]. unfold bind.
  destruct (m w) as [[a|e] w1]; simpl in *.
  - apply Hk; auto.
  - split; [exact Hi|discriminate].
Qed.

Lemma ensures_get_this_bind {B : Type} (k : Transport -> M B)
  (P : B -> Prop) :
  (forall t, I t -> ensures I (k t) P) -> ensures I (bind get_this k) P.
Proof. intros Hk w Hw. unfold bind, get_this. apply Hk; exact Hw. Qed.

Lemma ensures_try_catch {A : Type} (m : M A) (h : Exn -> M A)
  (P : A -> Prop) :
  ensures I m P -> (forall e, ensures I (h e) P) ->
  ensures I (try_catch m h) P.
Proof.
  intros Hm Hh w Hw. destruct (Hm w Hw) as [Hi Hp]. unfold try_catch.
  destruct (m w) as [[a|e] w1]; simpl in *.
  - split; [exact Hi|]. intros a' E. inversion E. subst.
    apply Hp. reflexivity.
  - apply Hh. exact Hi.
Qed.

End Ensuring.

Ltac stateless_solve :=
  try (unfold stateless_mode in *; simpl in *; tauto).

Ltac ensure_step :=
  lazymatch goal with
  | |- ensures _ _ _ =>
      first
        [ apply ensures_ret
        | apply ensures_get_this_bind; intros ? [? ?]
        | apply ensures_try_catch; [|intros ?]
        | match goal with
          | |- ensures _ (if ?c then _ else _) _ => destruct c eqn:?
          | |- ensures _ (match ?c with _ => _ end) _ => destruct c eqn:?
          end
        | eapply ensures_bind;
          [ apply ensures_preserved; solve [preserve; stateless_solve]
          | intros ? _ ]
        | progress cbv beta zeta ]
  end.

Ltac no_session :=
  unfold no_session_in_reply; try exact I;
  unfold sse_headers, session_header;
  repeat match goal with
         | H : sessionId ?t = None |- context [sessionId ?t] => rewrite H
         end;
  unfold no_session_header; simpl;
  let value := fresh "value" in
  let Hin := fresh "Hin" in
  intros value Hin;
  repeat (destruct Hin as [Hin|Hin]; [discriminate Hin|]);
  destruct Hin.

Lemma stateless_validateSession request :
  ensures stateless_mode (validateSession request) (fun early => early = None).
Proof.
  unfold validateSession. apply ensures_get_this_bind. intros t [Hg Hs].
  rewrite Hg. apply ensures_ret. reflexivity.
Qed.

Lemma stateless_initialize messages :
  ensures stateless_mode (initialize messages)
    (fun early =>
       match early with
       | Some r => no_session_header r
       | None => True
       end).
Proof.
  unfold initialize. apply ensures_get_this_bind. intros t [Hg Hs].
  destruct (_initialized t && _). { apply ensures_ret. no_session. }
  destruct (1 <? _)%nat. { apply ensures_ret. no_session. }
  rewrite Hg.
  eapply ensures_bind with (Q := fun generated => generated = None).
  { apply ensures_ret. reflexivity. }
  intros generated ->.
  repeat ensure_step. exact I.
Qed.

Lemma stateless_dispatch messages authInfo uuid :
  ensures stateless_mode (dispatch messages authInfo uuid)
    no_session_in_reply.
Proof. unfold dispatch. repeat ensure_step. all: no_session. Qed.

Lemma stateless_handleRequest request bodyText authInfo uuid :
  ensures stateless_mode (handleRequest request bodyText authInfo uuid)
    no_session_in_reply.
Proof.
  unfold handleRequest. cbv zeta.
  destruct (String.eqb (req_method request) "POST").
  { unfold handlePostRequest.
    apply ensures_try_catch; [|intros e; apply ensures_ret; no_session].
    cbv zeta.
    destruct (negb _ || negb _). { apply ensures_ret. no_session. }
    destruct (optional_falsy _ || negb _). { apply ensures_ret. no_session. }
    destruct (js_length bodyText >? MAXIMUM_MESSAGE_SIZE).
    { apply ensures_ret. no_session. }
    eapply ensures_bind;
      [apply ensures_preserved; apply preserves_lift|intros messages _].
    eapply ensures_bind
      with (Q := fun early =>
                   match early with
                   | Some r => no_session_header r
                   | None => True
                   end).
    { destruct (existsb isInitializeRequest messages).
      - apply stateless_initialize.
      - eapply ensures_weaken; [apply stateless_validateSession|].
        intros early ->. exact I. }
    intros [r|] Hr; [apply ensures_ret; exact Hr|].
    apply stateless_dispatch. }
  destruct (String.eqb (req_method request) "GET").
  { unfold handleGetRequest. cbv zeta.
    destruct (negb _). { apply ensures_ret. no_session. }
    eapply ensures_bind; [apply stateless_validateSession|].
    intros early ->. unfold replayEvents.
    repeat ensure_step. all: no_session. }
  destruct (String.eqb (req_method request) "DELETE").
  { unfold handleDeleteRequest.
    eapply ensures_bind; [apply stateless_validateSession|].
    intros early ->. repeat ensure_step. no_session. }
  unfold handleUnsupportedRequest. apply ensures_ret. no_session.
Qed.

Lemma stateless_perform a w :
  stateless_mode (this w) -> stateless_mode (this (perform a w)).
Proof.
  apply perform_preserves.
  - preserve. all: stateless_solve.
  - intros request bodyText authInfo uuid w0 Hw0.
    apply (stateless_handleRequest request bodyText authInfo uuid w0 Hw0).
  - intros. apply send_preserves. intros requestId streamId t [Hg Hs] _.
    destruct (recorded_this_settings requestId streamId message t)
      as (E1 & _ & _ & _ & _ & E2 & _).
    split; congruence.
  - preserve. all: stateless_solve.
  - preserve. all: stateless_solve.
  - intros. stateless_solve.
  - intros. stateless_solve.
  - intros. stateless_solve.
Qed.

Lemma stateless_run actions :
  forall w,
    stateless_mode (this w) -> stateless_mode (this (run actions w)).
Proof.
  induction actions as [|a actions IH]; intros w Hw; simpl; auto.
  apply IH. apply stateless_perform. exact Hw.
Qed.

Lemma settle_value p0 r0 ps p r :
  nth_error (settle p0 r0 ps) p = Some (Some r) ->
  nth_error ps p = Some (Some r) \/ r = r0.
Proof.
  unfold settle.
  destruct (nth_error ps p0) as [[r1|]|] eqn:E0; auto.
  destruct (Nat.eq_dec p0 p) as [->|Hne].
  - rewrite (nth_error_list_update_same ps p (Some r0) None E0).
    intros E. inversion E. auto.
  - rewrite nth_error_list_update_other by exact Hne. auto.
Qed.

Lemma stateless_send message relatedRequestId w p r :
  stateless_mode (this w) ->
  promise_value p (snd (send message relatedRequestId w)) = Some r ->
  promise_value p w = Some r \/ no_session_header r.
Proof.
  intros [Hg Hs].
  destruct (effective_request_id message relatedRequestId)
    as [requestId|] eqn:Hid.
  - destruct (send message relatedRequestId w) as [[[]|e] w'] eqn:E.
    + destruct (send_returns _ _ _ _ _ Hid E)
        as (streamId & w1 & _ & (Ht & Hpr & _) & ->).
      simpl snd. unfold promise_value.
      destruct (terminal message); [|rewrite Hpr; auto].
      unfold recorded. cbv zeta.
      destruct (forallb _ _); [|simpl; rewrite Hpr; auto].
      cbn [promises].
      destruct (_enableJsonResponse _); [|rewrite Hpr; auto].
      match goal with
      | |- context [JSMap.get streamId (_pendingResponses ?t)] =>
          destruct (JSMap.get streamId (_pendingResponses t)) as [p0|]
      end; [|rewrite Hpr; auto].
      destruct (nth_error (settle p0 _ (promises w1)) p) as [v|] eqn:En;
        [|discriminate].
      intros ->. apply settle_value in En as [En| ->].
      * left. rewrite <- Hpr, En. reflexivity.
      * right. unfold json_response, no_session_header, session_header.
        simpl. rewrite Ht, Hs. simpl.
        intros value [Hin|[]]. discriminate Hin.
    + apply send_throws in E as (_ & Hpr & _). simpl snd.
      unfold promise_value. rewrite Hpr. auto.
  - destruct (send_standalone_frame _ _ w Hid) as (_ & Hpr & _).
    unfold promise_value. rewrite Hpr. auto.
Qed.

(** X28.  Stateless mode: a transport made without a session id
    generator never has a session id, whatever is done to it.  Session
    validation lets every request through, no response that
    [handleRequest] returns carries an [mcp-session-id] header, and
    neither does any response with which [send] resolves the promise of
    a POST in JSON response mode. *)
Theorem stateless_transport_never_uses_a_session :
  forall (options : EdgeStreamableHTTPTransportOptions)
         (actions : list Action),
    opt_sessionIdGenerator options = None ->
    sessionId (this (run actions (new_world options))) = None
    /\ (forall request : Request,
          validateSession request (run actions (new_world options))
          = (Ok None, run actions (new_world options)))
    /\ (forall request bodyText authInfo uuid r w',
          handleRequest request bodyText authInfo uuid
            (run actions (new_world options))
          = (Ok (Returned r), w') ->
          no_session_header r)
    /\ (forall message relatedRequestId p r,
          promise_value p
            (snd (send message relatedRequestId
                    (run actions (new_world options))))
          = Some r ->
          promise_value p (run actions (new_world options)) = Some r
          \/ no_session_header r).
Proof.
  intros options actions Hopt.
  assert (Hw : stateless_mode (this (run actions (new_world options)))).
  { apply stateless_run. split; [exact Hopt|reflexivity]. }
  set (w := run actions (new_world options)) in *.
  split; [exact (proj2 Hw)|]. split; [|split].
  - intros request. rewrite validateSession_verdict.
    unfold session_rules. rewrite (proj1 Hw). reflexivity.
  - intros request bodyText authInfo uuid r w' E.
    destruct (stateless_handleRequest request bodyText authInfo uuid w Hw)
      as [_ Hp].
    apply (Hp (Returned r)). rewrite E. reflexivity.
  - intros message relatedRequestId p r.
    apply stateless_send. exact Hw.
Qed.


(** *** What an action does to the requests in flight *)

Lemma same_batch_state_refl w : same_batch_state w w.
Proof. unfold same_batch_state. auto. Qed.

Lemma same_batch_state_trans w1 w2 w3 :
  same_batch_state w1 w2 -> same_batch_state w2 w3 ->
  same_batch_state w1 w3.
Proof.
  unfold same_batch_state.
  intros (A1 & A2 & A3 & A4 & A5) (B1 & B2 & B3 & B4 & B5).
  repeat split; congruence.
Qed.

Lemma same_transport_batch_state w w' :
  same_transport w w' -> same_batch_state w w'.
Proof.
  intros (Ht & Hp & _). unfold same_batch_state. rewrite Ht. auto.
Qed.

Lemma same_mappings_batch_state w w' :
  same_mappings w w' -> same_batch_state w w'.
Proof.
  intros (_ & A & B & C & D & E). unfold same_batch_state. auto.
Qed.

Lemma frames_ret {A : Type} (a : A) : frames (ret a).
Proof. intros w. apply same_batch_state_refl. Qed.

Lemma frames_throw {A : Type} (e : Exn) : frames (@throw A e).
Proof. intros w. apply same_batch_state_refl. Qed.

Lemma frames_lift {A : Type} (c : Completion A) : frames (lift c).
Proof. intros w. apply same_batch_state_refl. Qed.

Lemma frames_invoke {A : Type} (c : HostCall)
  (f : History -> Completion A) : frames (invoke c f).
Proof. intros w. unfold same_batch_state. simpl. auto. Qed.

Lemma frames_new_ReadableStream : frames new_ReadableStream.
Proof. intros w. unfold same_batch_state. simpl. auto. Qed.

Lemma frames_setTimeout task : frames (setTimeout task).
Proof. intros w. unfold same_batch_state. simpl. auto. Qed.

Lemma frames_controller_close c : frames (controller_close c).
Proof.
  intros w. unfold controller_close, same_batch_state.
  destruct (nth_error (streams w) c) as [s|];
    [destruct (closed s)|]; simpl; auto.
Qed.

Lemma frames_controller_enqueue c chunk : frames (controller_enqueue c chunk).
Proof.
  intros w. unfold controller_enqueue, same_batch_state.
  destruct (nth_error (streams w) c) as [s|];
    [destruct (closed s)|]; simpl; auto.
Qed.

Lemma frames_get_this : frames get_this.
Proof. intros w. apply same_batch_state_refl. Qed.

Lemma frames_update (f : Transport -> Transport) :
  (forall t,
     _requestToStreamMapping (f t) = _requestToStreamMapping t
     /\ _requestResponseMap (f t) = _requestResponseMap t
     /\ _pendingResponses (f t) = _pendingResponses t
     /\ _enableJsonResponse (f t) = _enableJsonResponse t) ->
  frames (update_this f).
Proof.
  intros Hf w. destruct (Hf (this w)) as (A & B & C & D).
  unfold same_batch_state. simpl. auto.
Qed.

Lemma frames_bind {A B : Type} (m : M A) (k : A -> M B) :
  frames m -> (forall a, frames (k a)) -> frames (bind m k).
Proof.
  intros Hm Hk w. specialize (Hm w). unfold bind.
  destruct (m w) as [[a|e] w1]; simpl in Hm.
  - eapply same_batch_state_trans; [exact Hm|apply Hk].
  - exact Hm.
Qed.

Lemma frames_try_catch {A : Type} (m : M A) (h : Exn -> M A) :
  frames m -> (forall e, frames (h e)) -> frames (try_catch m h).
Proof.
  intros Hm Hh w. specialize (Hm w). unfold try_catch.
  destruct (m w) as [[a|e] w1]; simpl in Hm.
  - exact Hm.
  - eapply same_batch_state_trans; [exact Hm|apply Hh].
Qed.

Lemma frames_for_each {A : Type} (f : A -> M unit) (l : list A) :
  (forall x, frames (f x)) -> frames (for_each f l).
Proof.
  intros Hf. induction l as [|x l IH]; simpl.
  - apply frames_ret.
  - apply frames_bind; [apply Hf|intros _; exact IH].
Qed.

Ltac frame_step :=
  lazymatch goal with
  | |- frames _ =>
      first
        [ apply frames_ret
        | apply frames_throw
        | apply frames_lift
        | apply frames_invoke
        | apply frames_new_ReadableStream
        | apply frames_setTimeout
        | apply frames_controller_close
        | apply frames_controller_enqueue
        | apply frames_get_this
        | apply frames_bind; [|intros ?]
        | apply frames_try_catch; [|intros ?]
        | apply frames_for_each; intros ?
        | apply frames_update; intros ?; simpl; auto
        | progress cbv beta zeta
        | match goal with
          | |- frames (if ?c then _ else _) => destruct c
          | |- frames (match ?c with _ => _ end) => destruct c
          end
        | progress unfold validateSession, initialize, call_onmessage,
            call_onerror, writeSSEEvent, createSSEStream, replayEvents,
            handleGetRequest, handleUnsupportedRequest, start, cancel_hook,
            store_event ]
  end.

Ltac frame := repeat frame_step.

Lemma frames_start : frames start.
Proof. frame. Qed.

Lemma frames_handleGetRequest request : frames (handleGetRequest request).
Proof. frame. Qed.

Lemma frames_validateSession request : frames (validateSession request).
Proof. frame. Qed.

Lemma frames_initialize messages : frames (initialize messages).
Proof. frame. Qed.

Lemma frames_cancel_hook : frames cancel_hook.
Proof. frame. Qed.

Lemma frames_onmessage authInfo messages :
  frames (for_each (call_onmessage authInfo) messages).
Proof. frame. Qed.

Lemma frames_readable_cancel c : frames (readable_cancel c).
Proof.
  intros w. unfold readable_cancel.
  destruct (nth_error (streams w) c) as [s|];
    [destruct (closed s)|]; try apply same_batch_state_refl.
  eapply same_batch_state_trans; [|apply frames_cancel_hook].
  unfold same_batch_state. simpl. auto.
Qed.

Lemma frames_run_timer : frames run_timer.
Proof.
  intros w. unfold run_timer.
  destruct (timers w) as [|task rest]; [apply same_batch_state_refl|].
  eapply same_batch_state_trans; [|apply frames_onmessage].
  unfold same_batch_state. simpl. auto.
Qed.


Lemma close_cleared w : cleared w (snd (close w)).
Proof. rewrite close_world. unfold cleared. simpl. auto. Qed.

Lemma handlePostRequest_state request bodyText authInfo uuid w :
  same_batch_state w (snd (handlePostRequest request bodyText authInfo uuid w))
  \/ exists messages w0,
       parse_messages bodyText = Ok messages
       /\ same_batch_state w w0
       /\ existsb isJSONRPCRequest messages = true
       /\ snd (handlePostRequest request bodyText authInfo uuid w) =
            if _enableJsonResponse (this w)
            then awaiting messages authInfo uuid w0
            else streaming messages authInfo uuid w0.
Proof.
  destruct (handlePostRequest request bodyText authInfo uuid w)
    as [c w'] eqn:E.
  simpl snd. revert E.
  unfold handlePostRequest, try_catch. cbv zeta.
  destruct (negb _ || negb _).
  { intros E. inversion E. left. apply same_batch_state_refl. }
  destruct (optional_falsy _ || negb _).
  { intros E. inversion E. left. apply same_batch_state_refl. }
  destruct (js_length bodyText >? MAXIMUM_MESSAGE_SIZE).
  { intros E. inversion E. left. apply same_batch_state_refl. }
  unfold bind at 1. unfold lift at 1.
  destruct (parse_messages bodyText) as [messages|e] eqn:Hp.
  2:{ intros E. inversion E. left. apply same_batch_state_refl. }
  unfold bind at 1.
  assert (Hearly :
    frames (if existsb isInitializeRequest messages
            then initialize messages else validateSession request)).
  { destruct (existsb isInitializeRequest messages);
      [apply frames_initialize|apply frames_validateSession]. }
  specialize (Hearly w).
  match goal with
  | |- context [(if ?b then initialize messages else ?v) w] =>
      destruct ((if b then initialize messages else v) w)
        as [[[r|]|e] w0]
  end; simpl in Hearly;
    try (intros E; inversion E; subst; left; exact Hearly).
  cbv beta iota.
  destruct (existsb isJSONRPCRequest messages) eqn:Hreq.
  - destruct Hearly as (A1 & A2 & A3 & Hj & A5).
    destruct (_enableJsonResponse (this w)) eqn:Hjw.
    + rewrite dispatch_json by assumption.
      intros E. inversion E. subst. right. exists messages, w0.
      unfold same_batch_state. rewrite Hjw. auto 10.
    + rewrite dispatch_sse by assumption.
      intros E. inversion E. subst. right. exists messages, w0.
      unfold same_batch_state. rewrite Hjw. auto 10.
  - unfold dispatch. rewrite Hreq. cbv zeta.
    change (negb false) with true. cbv iota.
    pose proof (frames_onmessage authInfo messages w0) as Hd.
    unfold bind.
    destruct (for_each (call_onmessage authInfo) messages w0)
      as [[[]|e] w2]; simpl in Hd;
      intros E; inversion E; subst; left;
      eapply same_batch_state_trans; eassumption.
Qed.

Lemma handleDeleteRequest_state request w :
  same_batch_state w (snd (handleDeleteRequest request w))
  \/ cleared w (snd (handleDeleteRequest request w)).
Proof.
  unfold handleDeleteRequest.
  erewrite bind_ok by apply validateSession_verdict.
  destruct (verdict_response (session_rules (this w) request)) as [r|].
  - left. apply same_batch_state_refl.
  - right. pose proof (close_cleared w) as Hc. unfold bind.
    destruct (close w) as [[[]|e] w1]; exact Hc.
Qed.

Lemma send_state message relatedRequestId w :
  same_batch_state w (snd (send message relatedRequestId w))
  \/ exists requestId streamId w1,
       terminal message = true
       /\ message_id message = Some requestId
       /\ optional_truthy
            (JSMap.get requestId (_requestToStreamMapping (this w)))
          = Some streamId
       /\ same_batch_state w w1
       /\ snd (send message relatedRequestId w) =
            recorded requestId streamId
              (JSMap.get streamId (_streamMapping (this w))) message w1.
Proof.
  destruct (effective_request_id message relatedRequestId)
    as [requestId|] eqn:Hid.
  - destruct (send message relatedRequestId w) as [[[]|e] w'] eqn:E.
    + destruct (send_returns _ _ _ _ _ Hid E)
        as (streamId & w1 & Hs & Hf & ->).
      destruct (terminal message) eqn:Ht.
      * right. exists requestId, streamId, w1.
        unfold effective_request_id in Hid. rewrite Ht in Hid.
        split; [reflexivity|]. split; [exact Hid|]. split; [exact Hs|].
        split; [apply same_transport_batch_state; exact Hf|reflexivity].
      * left. apply same_transport_batch_state. exact Hf.
    + left. apply same_transport_batch_state.
      apply send_throws in E. exact E.
  - left. apply same_transport_batch_state.
    apply send_standalone_frame. exact Hid.
Qed.

(** What an action does to the index, the buffer, the resolvers and
    the promises: nothing; or it clears the buffer and the resolvers;
    or it is a POST that registers its requests; or it is a [send] that
    records a response. *)
Lemma perform_state a w :
  same_batch_state w (perform a w)
  \/ (cleared w (perform a w)
      /\ (a = Do_close
          \/ exists request bodyText authInfo uuid,
               a = Do_handleRequest request bodyText authInfo uuid
               /\ req_method request = "DELETE"))
  \/ (exists request bodyText authInfo uuid messages w0,
        a = Do_handleRequest request bodyText authInfo uuid
        /\ req_method request = "POST"
        /\ parse_messages bodyText = Ok messages
        /\ same_batch_state w w0
        /\ perform a w =
             if _enableJsonResponse (this w)
             then awaiting messages authInfo uuid w0
             else streaming messages authInfo uuid w0)
  \/ (exists message relatedRequestId requestId streamId w1,
        a = Do_send message relatedRequestId
        /\ terminal message = true
        /\ message_id message = Some requestId
        /\ optional_truthy
             (JSMap.get requestId (_requestToStreamMapping (this w)))
           = Some streamId
        /\ same_batch_state w w1
        /\ perform a w =
             recorded requestId streamId
               (JSMap.get streamId (_streamMapping (this w))) message w1).
Proof.
  destruct a as [|request bodyText authInfo uuid|message relatedRequestId
                | |c| |f|f|f]; simpl perform.
  - left. apply frames_start.
  - unfold handleRequest. cbv zeta.
    destruct (String.eqb (req_method request) "POST") eqn:Hm.
    + apply String.eqb_eq in Hm.
      destruct (handlePostRequest_state request bodyText authInfo uuid w)
        as [Hs|(messages & w0 & Hp & Hs & _ & E)].
      * left. exact Hs.
      * right. right. left.
        exists request, bodyText, authInfo, uuid, messages, w0.
        split; [reflexivity|]. split; [exact Hm|]. split; [exact Hp|].
        split; [exact Hs|].
        exact E.
    + destruct (String.eqb (req_method request) "GET").
      { left. apply frames_handleGetRequest. }
      destruct (String.eqb (req_method request) "DELETE") eqn:Hd.
      { apply String.eqb_eq in Hd.
        destruct (handleDeleteRequest_state request w) as [Hs|Hc]; auto.
        right. left. split; [exact Hc|]. right.
        exists request, bodyText, authInfo, uuid. auto. }
      left. apply same_batch_state_refl.
  - destruct (send_state message relatedRequestId w)
      as [Hs|(requestId & streamId & w1 & Ht & Hm & Hsid & Hs & E)].
    + left. exact Hs.
    + right. right. right.
      exists message, relatedRequestId, requestId, streamId, w1. auto 10.
  - right. left. split; [apply close_cleared|left; reflexivity].
  - left. apply frames_readable_cancel.
  - left. apply frames_run_timer.
  - left. unfold same_batch_state. simpl. auto.
  - left. unfold same_batch_state. simpl. auto.
  - left. unfold same_batch_state. simpl. auto.
Qed.

(** The index, the buffer, the resolvers and the promises after a
    response has been recorded. *)
Lemma recorded_state requestId streamId controller message w :
  _enableJsonResponse
    (this (recorded requestId streamId controller message w))
  = _enableJsonResponse (this w)
  /\ if forallb
          (fun id =>
             JSMap.has id
               (JSMap.set requestId message (_requestResponseMap (this w))))
          (relatedIds_of streamId (_requestToStreamMapping (this w)))
     then
       _requestToStreamMapping
         (this (recorded requestId streamId controller message w))
       = delete_all
           (relatedIds_of streamId (_requestToStreamMapping (this w)))
           (_requestToStreamMapping (this w))
       /\ _requestResponseMap
            (this (recorded requestId streamId controller message w))
          = delete_all
              (relatedIds_of streamId (_requestToStreamMapping (this w)))
              (JSMap.set requestId message (_requestResponseMap (this w)))
       /\ _pendingResponses
            (this (recorded requestId streamId controller message w))
          = (if _enableJsonResponse (this w)
             then JSMap.delete streamId (_pendingResponses (this w))
             else _pendingResponses (this w))
       /\ exists r,
            promises (recorded requestId streamId controller message w)
            = if _enableJsonResponse (this w)
              then match JSMap.get streamId (_pendingResponses (this w)) with
                   | Some q => settle q r (promises w)
                   | None => promises w
                   end
              else promises w
     else
       _requestToStreamMapping
         (this (recorded requestId streamId controller message w))
       = _requestToStreamMapping (this w)
       /\ _requestResponseMap
            (this (recorded requestId streamId controller message w))
          = JSMap.set requestId message (_requestResponseMap (this w))
       /\ _pendingResponses
            (this (recorded requestId streamId controller message w))
          = _pendingResponses (this w)
       /\ promises (recorded requestId streamId controller message w)
          = promises w.
Proof.
  unfold recorded. cbv zeta.
  cbn [_requestToStreamMapping _requestResponseMap _enableJsonResponse
       _pendingResponses set_requestResponseMap].
  destruct (forallb _ _).
  - cbn [this promises]. unfold completed, cleanup. cbv zeta.
    cbn [_enableJsonResponse set_requestResponseMap].
    destruct (_enableJsonResponse (this w)) eqn:Hj; simpl;
      (split; [exact Hj|]); (split; [reflexivity|]);
      (split; [reflexivity|]); (split; [reflexivity|]);
      [eexists; reflexivity|exists replay_failure; reflexivity].
  - simpl. auto.
Qed.


(** *** Entries of the index under [set] and [delete] *)

Lemma In_set {V : Type} (k x : RequestId) (v u : V)
  (m : JSMap.t RequestId V) :
  In (k, v) (JSMap.set x u m) -> In (k, v) m \/ (k = x /\ v = u).
Proof.
  induction m as [|[k0 v0] m IH]; simpl.
  - intros [E|[]]. inversion E. auto.
  - destruct (same_value_zero x k0) as [E|N]; simpl.
    + intros [E'|Hin]; [inversion E'; auto|auto].
    + intros [E'|Hin]; [auto|]. destruct (IH Hin); auto.
Qed.

Lemma In_register (uuid : string) ids :
  forall (index : JSMap.t RequestId string) id streamId,
    In (id, streamId) (register uuid ids index) ->
    In (id, streamId) index \/ (In id ids /\ streamId = uuid).
Proof.
  induction ids as [|x ids IH]; intros index id streamId; [auto|].
  change (register uuid (x :: ids) index)
    with (register uuid ids (JSMap.set x uuid index)).
  intros Hin. destruct (IH _ _ _ Hin) as [Hs|[Hi ->]].
  - destruct (In_set _ _ _ _ _ Hs) as [Hm|[-> ->]]; [auto|].
    right. split; [left; reflexivity|reflexivity].
  - right. split; [right; exact Hi|reflexivity].
Qed.

Lemma relatedIds_set_other (uuid u : string) x
  (index : JSMap.t RequestId string) :
  u <> uuid ->
  ~ In (x, uuid) index ->
  relatedIds_of uuid (JSMap.set x u index) = relatedIds_of uuid index.
Proof.
  intros Hu. unfold relatedIds_of, JSMap.entries.
  assert (Eu : String.eqb u uuid = false) by (apply String.eqb_neq; exact Hu).
  induction index as [|[k v] index IH]; intros Hn; simpl.
  - rewrite Eu. reflexivity.
  - destruct (same_value_zero x k) as [E|N]; simpl.
    + subst k. rewrite Eu.
      destruct (String.eqb v uuid) eqn:Ev; [|reflexivity].
      apply String.eqb_eq in Ev. subst v.
      exfalso. apply Hn. left. reflexivity.
    + assert (Hn' : ~ In (x, uuid) index)
        by (intros Hin; apply Hn; right; exact Hin).
      destruct (String.eqb v uuid); simpl; rewrite (IH Hn'); reflexivity.
Qed.

Lemma relatedIds_register_other (uuid u : string) ids :
  u <> uuid ->
  forall index : JSMap.t RequestId string,
    (forall id, In id ids -> ~ In (id, uuid) index) ->
    relatedIds_of uuid (register u ids index) = relatedIds_of uuid index.
Proof.
  intros Hu. induction ids as [|x ids IH]; intros index Hn; [reflexivity|].
  change (register u (x :: ids) index)
    with (register u ids (JSMap.set x u index)).
  rewrite IH.
  - apply relatedIds_set_other; [exact Hu|]. apply Hn. left. reflexivity.
  - intros id Hid Hin.
    destruct (In_set _ _ _ _ _ Hin) as [Hm|[_ E]]; [|congruence].
    apply (Hn id); [right; exact Hid|exact Hm].
Qed.

Lemma relatedIds_delete_other (uuid : string) x
  (index : JSMap.t RequestId string) :
  ~ In (x, uuid) index ->
  relatedIds_of uuid (JSMap.delete x index) = relatedIds_of uuid index.
Proof.
  unfold relatedIds_of, JSMap.entries.
  induction index as [|[k v] index IH]; intros Hn; simpl; [reflexivity|].
  assert (Hn' : ~ In (x, uuid) index)
    by (intros Hin; apply Hn; right; exact Hin).
  destruct (same_value_zero x k) as [E|N]; simpl.
  - subst k. destruct (String.eqb v uuid) eqn:Ev; [|exact (IH Hn')].
    apply String.eqb_eq in Ev. subst v.
    exfalso. apply Hn. left. reflexivity.
  - destruct (String.eqb v uuid); simpl; rewrite (IH Hn'); reflexivity.
Qed.

Lemma relatedIds_delete_all_other (uuid : string) ids :
  forall index : JSMap.t RequestId string,
    (forall id, In id ids -> ~ In (id, uuid) index) ->
    relatedIds_of uuid (delete_all ids index) = relatedIds_of uuid index.
Proof.
  induction ids as [|x ids IH]; intros index Hn; [reflexivity|].
  change (delete_all (x :: ids) index)
    with (delete_all ids (JSMap.delete x index)).
  rewrite IH.
  - apply relatedIds_delete_other. apply Hn. left. reflexivity.
  - intros id Hid Hin. apply JSMapFacts.In_delete in Hin.
    apply (Hn id); [right; exact Hid|tauto].
Qed.

(** *** The resolvers and their promises *)

Lemma length_settle p r ps : List.length (settle p r ps) = List.length ps.
Proof.
  unfold settle. destruct (nth_error ps p) as [[x|]|]; auto.
  apply length_list_update.
Qed.

Lemma settle_other p r ps q :
  q <> p -> nth_error (settle p r ps) q = nth_error ps q.
Proof.
  intros Hq. unfold settle. destruct (nth_error ps p) as [[x|]|]; auto.
  apply nth_error_list_update_other. congruence.
Qed.

Lemma settle_keeps p r0 ps q r :
  nth_error ps q = Some (Some r) ->
  nth_error (settle p r0 ps) q = Some (Some r).
Proof.
  intros Hq. unfold settle.
  destruct (nth_error ps p) as [[x|]|] eqn:Ep; auto.
  rewrite nth_error_list_update_other; [exact Hq|].
  intros ->. congruence.
Qed.

Lemma pending_fresh_same w w' :
  same_batch_state w w' -> pending_fresh w -> pending_fresh w'.
Proof.
  intros (_ & _ & Hp & _ & Hpr) Hf. unfold pending_fresh.
  rewrite Hp, Hpr. exact Hf.
Qed.

Lemma pending_fresh_cleared w w' : cleared w w' -> pending_fresh w'.
Proof.
  intros (_ & _ & Hp & _) streamId q. rewrite Hp. discriminate.
Qed.

Lemma pending_fresh_awaiting messages authInfo uuid w :
  pending_fresh w -> pending_fresh (awaiting messages authInfo uuid w).
Proof.
  intros Hf. unfold pending_fresh, awaiting. simpl.
  rewrite length_app. simpl.
  assert (Hnew : forall s,
            JSMap.get s (_pendingResponses (this w))
              <> Some (List.length (promises w))).
  { intros s E. apply Hf in E. lia. }
  intros s q.
  destruct (string_dec uuid s) as [->|N].
  - rewrite JSMapFacts.get_set_same. intros E. inversion E. subst q.
    split; [lia|]. intros s'.
    destruct (string_dec s s') as [->|N']; [reflexivity|].
    rewrite JSMapFacts.get_set_other by exact N'.
    intros E'. exfalso. exact (Hnew _ E').
  - rewrite JSMapFacts.get_set_other by exact N. intros E.
    destruct (Hf _ _ E) as [Hlt Hinj]. split; [lia|]. intros s'.
    destruct (string_dec uuid s') as [->|N'].
    + rewrite JSMapFacts.get_set_same. intros E'. inversion E'. lia.
    + rewrite JSMapFacts.get_set_other by exact N'. apply Hinj.
Qed.

Lemma get_delete_Some {V : Type} (k k' : string) (v : V)
  (m : JSMap.t string V) :
  JSMap.get k' (JSMap.delete k m) = Some v ->
  k <> k' /\ JSMap.get k' m = Some v.
Proof.
  destruct (string_dec k k') as [->|N].
  - rewrite JSMapFacts.get_delete_same. discriminate.
  - rewrite JSMapFacts.get_delete_other by exact N. auto.
Qed.

Lemma pending_fresh_recorded requestId streamId controller message w :
  pending_fresh w ->
  pending_fresh (recorded requestId streamId controller message w).
Proof.
  intros Hf.
  destruct (recorded_state requestId streamId controller message w)
    as [_ Hs].
  unfold pending_fresh.
  destruct (forallb _ _).
  - destruct Hs as (_ & _ & -> & r & ->).
    destruct (_enableJsonResponse (this w)); [|exact Hf].
    assert (Hlen :
      List.length
        (match JSMap.get streamId (_pendingResponses (this w)) with
         | Some q => settle q r (promises w)
         | None => promises w
         end) = List.length (promises w)).
    { destruct (JSMap.get streamId _); [apply length_settle|reflexivity]. }
    rewrite Hlen. intros s q E.
    apply get_delete_Some in E. destruct E as [_ E].
    destruct (Hf _ _ E) as [Hlt Hinj]. split; [exact Hlt|].
    intros s' E'. apply get_delete_Some in E'. apply Hinj. tauto.
  - destruct Hs as (_ & _ & -> & ->). exact Hf.
Qed.

Lemma pending_fresh_perform a w :
  pending_fresh w -> pending_fresh (perform a w).
Proof.
  intros Hf.
  destruct (perform_state a w)
    as [Hs|[Hc|[(request & bodyText & authInfo & uuid & messages & w0
                 & _ & _ & _ & Hs & ->)
               |(message & rr & requestId & streamId & w1
                 & _ & _ & _ & _ & Hs & ->)]]].
  - exact (pending_fresh_same _ _ Hs Hf).
  - exact (pending_fresh_cleared _ _ (proj1 Hc)).
  - pose proof (pending_fresh_same _ _ Hs Hf) as Hf0.
    destruct (_enableJsonResponse (this w)).
    + apply pending_fresh_awaiting. exact Hf0.
    + exact Hf0.
  - apply pending_fresh_recorded. exact (pending_fresh_same _ _ Hs Hf).
Qed.

Lemma reachable_pending_fresh w : reachable w -> pending_fresh w.
Proof.
  induction 1 as [options|w a Hw IH].
  - intros streamId q. simpl. discriminate.
  - apply pending_fresh_perform. exact IH.
Qed.

(** A resolved promise keeps its value. *)
Lemma resolved_stays a w p r :
  nth_error (promises w) p = Some (Some r) ->
  nth_error (promises (perform a w)) p = Some (Some r).
Proof.
  intros Hp.
  destruct (perform_state a w)
    as [Hs|[Hc|[(request & bodyText & authInfo & uuid & messages & w0
                 & _ & _ & _ & Hs & ->)
               |(message & rr & requestId & streamId & w1
                 & _ & _ & _ & _ & Hs & ->)]]].
  - destruct Hs as (_ & _ & _ & _ & ->). exact Hp.
  - destruct Hc as ((_ & _ & _ & _ & ->) & _). exact Hp.
  - destruct Hs as (_ & _ & _ & _ & Hpr).
    destruct (_enableJsonResponse (this w)); simpl; rewrite Hpr.
    + rewrite nth_error_app1; [exact Hp|].
      apply nth_error_Some. congruence.
    + exact Hp.
  - destruct Hs as (_ & _ & _ & _ & Hpr). rewrite <- Hpr in Hp.
    destruct (recorded_state requestId streamId
                (JSMap.get streamId (_streamMapping (this w))) message w1)
      as [_ Hr].
    destruct (forallb _ _).
    + destruct Hr as (_ & _ & _ & r0 & ->).
      destruct (_enableJsonResponse (this w1)); [|exact Hp].
      destruct (JSMap.get streamId _); [|exact Hp].
      apply settle_keeps. exact Hp.
    + destruct Hr as (_ & _ & _ & ->). exact Hp.
Qed.

Lemma resolved_stays_run actions :
  forall w p r,
    promise_value p w = Some r ->
    promise_value p (run actions w) = Some r.
Proof.
  induction actions as [|a actions IH]; intros w p r Hp; simpl; auto.
  apply IH. unfold promise_value in *.
  destruct (nth_error (promises w) p) as [[r'|]|] eqn:E; try discriminate.
  inversion Hp. subst r'.
  rewrite (resolved_stays a w p r E). reflexivity.
Qed.


(** *** A batch in flight, one action at a time *)

Lemma in_flight_same uuid p ids done w w' :
  same_batch_state w w' ->
  batch_in_flight uuid p ids done w ->
  batch_in_flight uuid p ids done w'.
Proof.
  intros Hs (Hb & Hf & Ho). split; [|split].
  - destruct Hs as (E1 & E2 & E3 & E4 & E5).
    unfold batch_pending. rewrite E1, E2, E3, E4, E5. exact Hb.
  - exact (pending_fresh_same _ _ Hs Hf).
  - destruct Hs as (E1 & _). unfold own_entries. rewrite E1. exact Ho.
Qed.

(** A later POST with another stream id and other request ids leaves
    the batch as it is. *)
Lemma in_flight_awaiting uuid p ids done messages authInfo uuid' w :
  uuid' <> uuid ->
  (forall id, In id (request_ids messages) -> ~ In id ids) ->
  batch_in_flight uuid p ids done w ->
  batch_in_flight uuid p ids done (awaiting messages authInfo uuid' w).
Proof.
  intros Hu Hdisj ((Hj & Hrel & Hidx & Hbuf & Hpend & Hprom) & Hf & Ho).
  split; [|split].
  - unfold batch_pending, awaiting. simpl.
    split; [exact Hj|]. split.
    { rewrite relatedIds_register_other; [exact Hrel|exact Hu|].
      intros id Hid Hin. apply (Hdisj id Hid).
      rewrite <- Hrel. apply In_relatedIds. exact Hin. }
    split.
    { intros id Hid. rewrite get_register_other; [auto|].
      intros Hin. exact (Hdisj id Hin Hid). }
    split; [exact Hbuf|]. split.
    { rewrite JSMapFacts.get_set_other by exact Hu. exact Hpend. }
    rewrite nth_error_app1; [exact Hprom|].
    apply nth_error_Some. congruence.
  - apply pending_fresh_awaiting. exact Hf.
  - unfold own_entries, awaiting. simpl. intros id streamId Hin Hid.
    destruct (In_register _ _ _ _ _ Hin) as [Hm|[Hi _]].
    + exact (Ho _ _ Hm Hid).
    + exfalso. exact (Hdisj id Hi Hid).
Qed.

(** A response to a request of another stream leaves the batch as it
    is, also when it completes that other stream. *)
Lemma in_flight_recorded
  uuid p ids done requestId streamId controller message w :
  ~ In requestId ids ->
  JSMap.get requestId (_requestToStreamMapping (this w)) = Some streamId ->
  batch_in_flight uuid p ids done w ->
  batch_in_flight uuid p ids done
    (recorded requestId streamId controller message w).
Proof.
  intros Hnot Hget Hfl.
  pose proof Hfl as ((Hj & Hrel & Hidx & Hbuf & Hpend & Hprom) & Hf & Ho).
  assert (Hsid : streamId <> uuid).
  { intros ->. apply Hnot. rewrite <- Hrel. apply In_relatedIds.
    apply JSMapFacts.get_In. exact Hget. }
  assert (Hout : forall id, In id ids ->
            ~ In id (relatedIds_of streamId
                       (_requestToStreamMapping (this w)))).
  { intros id Hid Hin. apply In_relatedIds in Hin.
    apply Hsid. exact (Ho _ _ Hin Hid). }
  assert (Hother : forall id, In id ids -> requestId <> id)
    by (intros id Hid ->; exact (Hnot Hid)).
  destruct (recorded_state requestId streamId controller message w)
    as [Hj' Hs].
  split; [|split].
  - unfold batch_pending. rewrite Hj'.
    destruct (forallb _ _).
    + destruct Hs as (-> & -> & -> & r & ->). rewrite Hj.
      split; [reflexivity|]. split.
      { rewrite relatedIds_delete_all_other; [exact Hrel|].
        intros id Hin Hu. apply (Hout id); [|exact Hin].
        rewrite <- Hrel. apply In_relatedIds. exact Hu. }
      split.
      { intros id Hid. rewrite get_delete_all_other by (apply Hout; exact Hid).
        auto. }
      split.
      { intros id Hid. rewrite get_delete_all_other by (apply Hout; exact Hid).
        rewrite JSMapFacts.get_set_other by (apply Hother; exact Hid).
        auto. }
      split.
      { rewrite JSMapFacts.get_delete_other by exact Hsid. exact Hpend. }
      destruct (JSMap.get streamId (_pendingResponses (this w)))
        as [q|] eqn:Eq; [|exact Hprom].
      rewrite settle_other; [exact Hprom|].
      intros ->. apply Hsid.
      destruct (Hf _ _ Hpend) as [_ Hinj]. apply Hinj. exact Eq.
    + destruct Hs as (-> & -> & -> & ->).
      split; [exact Hj|]. split; [exact Hrel|]. split; [exact Hidx|].
      split; [|split; assumption].
      intros id Hid.
      rewrite JSMapFacts.get_set_other by (apply Hother; exact Hid).
      auto.
  - apply pending_fresh_recorded. exact Hf.
  - unfold own_entries. destruct (forallb _ _).
    + destruct Hs as (-> & _). intros id sid Hin Hid.
      apply In_delete_all in Hin. apply (Ho id sid); tauto.
    + destruct Hs as (-> & _). exact Ho.
Qed.

(** An action that is not a response to the batch and does not disturb
    it leaves the batch as it is. *)
Lemma in_flight_quiet uuid p ids done a w :
  undisturbing uuid ids a ->
  (forall message relatedRequestId,
     a = Do_send message relatedRequestId -> answers ids message = false) ->
  batch_in_flight uuid p ids done w ->
  batch_in_flight uuid p ids done (perform a w).
Proof.
  intros Hund Hquiet Hfl.
  destruct (perform_state a w)
    as [Hs|[[_ [->|(request & bodyText & authInfo & uuid' & -> & Hm)]]
           |[(request & bodyText & authInfo & uuid' & messages & w0
                 & -> & Hm & Hparse & Hs & E)
            |(message & rr & requestId & streamId & w1
                 & -> & Ht & Hid & Hsid & Hs & E)]]].
  - exact (in_flight_same _ _ _ _ _ _ Hs Hfl).
  - destruct Hund.
  - destruct Hund as [Hd _]. congruence.
  - rewrite E. destruct Hfl as ((Hj & Hb) & Hrest). rewrite Hj.
    destruct Hund as [_ Hpost]. destruct (Hpost Hm) as [Hu Hdisj].
    unfold posted_ids in Hdisj. rewrite Hparse in Hdisj.
    apply in_flight_awaiting; [exact Hu|exact Hdisj|].
    apply (in_flight_same _ _ _ _ w); [exact Hs|].
    split; [split; assumption|exact Hrest].
  - rewrite E.
    pose proof (Hquiet message rr eq_refl) as Ha.
    unfold answers in Ha. rewrite Ht, Hid in Ha. simpl in Ha.
    destruct (in_dec same_value_zero requestId ids) as [Hin|Hnot];
      [discriminate|].
    apply optional_truthy_Some in Hsid.
    apply in_flight_recorded; [exact Hnot| |].
    + destruct Hs as (-> & _). exact Hsid.
    + exact (in_flight_same _ _ _ _ _ _ Hs Hfl).
Qed.

Lemma send_terminal message relatedRequestId w :
  terminal message = true ->
  send message relatedRequestId w = send message None w.
Proof.
  intros Ht. unfold send, effective_request_id. rewrite Ht. reflexivity.
Qed.

Lemma own_entries_send uuid ids message relatedRequestId w :
  own_entries uuid ids w ->
  own_entries uuid ids (snd (send message relatedRequestId w)).
Proof.
  intros Ho.
  destruct (send_state message relatedRequestId w)
    as [Hs|(requestId & streamId & w1 & _ & _ & _ & Hs & ->)].
  - destruct Hs as (E1 & _). unfold own_entries. rewrite E1. exact Ho.
  - destruct Hs as (E1 & _).
    destruct (recorded_state requestId streamId
                (JSMap.get streamId (_streamMapping (this w))) message w1)
      as [_ Hr].
    unfold own_entries. destruct (forallb _ _).
    + destruct Hr as (-> & _). rewrite E1. intros id sid Hin Hid.
      apply In_delete_all in Hin. apply (Ho id sid); tauto.
    + destruct Hr as (-> & _). rewrite E1. exact Ho.
Qed.

(** A response to a request of the batch that has none yet: it
    completes the batch when it was the last one missing, and
    otherwise joins the responses sent. *)
Lemma in_flight_answer uuid p ids done message relatedRequestId w r :
  truthy uuid = true ->
  batch_in_flight uuid p ids done w ->
  terminal message = true ->
  message_id message = Some r ->
  In r ids ->
  response_to r done = None ->
  if all_answered ids (done ++ [message])
  then promise_value p (perform (Do_send message relatedRequestId) w) =
         Some (batch_response (this w) ids (done ++ [message]))
  else batch_in_flight uuid p ids (done ++ [message])
         (perform (Do_send message relatedRequestId) w).
Proof.
  intros Hu (Hb & Hf & Ho) Ht Hm Hin Hr.
  pose proof (pending_fresh_perform (Do_send message relatedRequestId) w Hf)
    as Hf'.
  pose proof (own_entries_send uuid ids message relatedRequestId w Ho)
    as Ho'.
  simpl perform in *. rewrite (send_terminal _ _ _ Ht) in *.
  destruct (send_batch_step _ _ _ _ _ _ _ Hu Hb Ht Hm Hin Hr)
    as (w' & Hsend & Hafter).
  rewrite Hsend in *. simpl snd in *.
  destruct (all_answered ids (done ++ [message])); [exact Hafter|].
  destruct Hafter as [Hb' _]. split; [exact Hb'|]. split; assumption.
Qed.


(** *** The responses to a batch among other actions *)

Lemma answers_inv ids message :
  answers ids message = true ->
  terminal message = true
  /\ exists r, message_id message = Some r /\ In r ids.
Proof.
  unfold answers. destruct (terminal message); [|discriminate].
  destruct (message_id message) as [r|]; [|discriminate]. simpl.
  destruct (in_dec same_value_zero r ids); [eauto|discriminate].
Qed.

Lemma answers_sent_In ids actions message :
  In message (answers_sent ids actions) -> answers ids message = true.
Proof.
  induction actions as [|a actions IH]; simpl; [tauto|].
  destruct a; auto.
  destruct (answers ids message0) eqn:E; auto.
  intros [->|Hin]; auto.
Qed.

Lemma answers_sent_quiet ids a rest :
  (forall message relatedRequestId,
     a = Do_send message relatedRequestId -> answers ids message = false) ->
  answers_sent ids (a :: rest) = answers_sent ids rest.
Proof.
  intros Hq. destruct a; simpl; auto.
  rewrite (Hq _ _ eq_refl). reflexivity.
Qed.

Lemma answer_or_not ids a :
  (exists message relatedRequestId,
     a = Do_send message relatedRequestId /\ answers ids message = true)
  \/ (forall message relatedRequestId,
        a = Do_send message relatedRequestId ->
        answers ids message = false).
Proof.
  destruct a; try (right; intros; discriminate).
  destruct (answers ids message) eqn:E.
  - left. eauto.
  - right. intros m rr E'. inversion E'. subst. exact E.
Qed.

Lemma response_to_is id responses x :
  response_to id responses = Some x ->
  In x responses /\ message_id x = Some id.
Proof.
  unfold response_to. intros Hfind.
  apply find_some in Hfind. destruct Hfind as [Hin Hid].
  split; [exact Hin|].
  destruct (message_id x) as [id'|]; [|discriminate].
  destruct (same_value_zero id id'); [congruence|discriminate].
Qed.

(** The session id of a transport without session management, or with
    an established session, never changes. *)
Lemma session_header_run actions w :
  session_settled (this w) ->
  session_header (this (run actions w)) = session_header (this w).
Proof.
  intros [Hs|[s Hs]].
  - destruct (stateless_run actions w Hs) as [_ E].
    destruct Hs as [_ E0]. unfold session_header. rewrite E, E0.
    reflexivity.
  - destruct (session_established_run s actions w Hs) as [_ E].
    destruct Hs as [_ E0]. unfold session_header. rewrite E, E0.
    reflexivity.
Qed.

(** Among actions that do not disturb the batch, the responses still
    missing, sent in any order and at any moment, resolve the promise
    with the responses in the order of [ids]. *)
Lemma batch_run uuid p ids :
  truthy uuid = true ->
  forall actions done w,
    batch_in_flight uuid p ids done w ->
    Forall (undisturbing uuid ids) actions ->
    NoDup (map message_id (done ++ answers_sent ids actions)) ->
    (forall id, In id ids ->
       exists m,
         In m (done ++ answers_sent ids actions) /\ message_id m = Some id) ->
    all_answered ids done = false ->
    exists before,
      promise_value p (run actions w) =
        Some (batch_response (this (run before w)) ids
                (done ++ answers_sent ids actions)).
Proof.
  intros Hu. induction actions as [|a actions IH];
    intros done w Hfl Hund Hnd Hcover Hnot.
  - simpl in Hcover. rewrite app_nil_r in Hcover.
    rewrite (all_answered_complete _ _ Hcover) in Hnot. discriminate.
  - inversion Hund as [|? ? Ha Hund']; subst.
    destruct (answer_or_not ids a) as [(m & rr & -> & Hans)|Hq].
    + simpl answers_sent in *. rewrite Hans in *.
      destruct (answers_inv _ _ Hans) as (Ht & r & Hm & Hr).
      assert (Hfresh : response_to r done = None).
      { apply response_to_None. intros Hin.
        rewrite map_app in Hnd. simpl in Hnd.
        apply NoDup_remove_2 in Hnd. apply Hnd.
        apply in_or_app. left. rewrite Hm. exact Hin. }
      pose proof (in_flight_answer uuid p ids done m rr w r
                    Hu Hfl Ht Hm Hr Hfresh) as Hstep.
      destruct (all_answered ids (done ++ [m])) eqn:Hall.
      * assert (Hnone : answers_sent ids actions = []).
        { destruct (answers_sent ids actions) as [|m' l] eqn:El;
            [reflexivity|].
          exfalso.
          assert (Hin' : In m' (answers_sent ids actions))
            by (rewrite El; left; reflexivity).
          apply answers_sent_In in Hin'.
          destruct (answers_inv _ _ Hin') as (_ & r' & Hm' & Hr').
          unfold all_answered in Hall. rewrite forallb_forall in Hall.
          specialize (Hall r' Hr').
          destruct (response_to r' (done ++ [m])) as [x|] eqn:Ex;
            [|discriminate].
          apply response_to_is in Ex. destruct Ex as [Hxin Hxid].
          replace (done ++ m :: m' :: l)
            with ((done ++ [m]) ++ m' :: l) in Hnd
            by (rewrite <- app_assoc; reflexivity).
          rewrite map_app in Hnd. simpl in Hnd.
          apply NoDup_remove_2 in Hnd. apply Hnd.
          apply in_or_app. left. rewrite Hm', <- Hxid.
          apply in_map. exact Hxin. }
        rewrite Hnone. exists [].
        change (run (Do_send m rr :: actions) w)
          with (run actions (perform (Do_send m rr) w)).
        apply resolved_stays_run. exact Hstep.
      * destruct (IH (done ++ [m]) (perform (Do_send m rr) w) Hstep Hund')
          as [before Hval].
        -- rewrite <- app_assoc. exact Hnd.
        -- intros id Hid. rewrite <- app_assoc. apply Hcover. exact Hid.
        -- exact Hall.
        -- exists (Do_send m rr :: before).
           rewrite <- app_assoc in Hval. exact Hval.
    + rewrite (answers_sent_quiet _ _ _ Hq) in *.
      destruct (IH done (perform a w)) as [before Hval].
      * apply in_flight_quiet; assumption.
      * exact Hund'.
      * exact Hnd.
      * exact Hcover.
      * exact Hnot.
      * exists (a :: before). exact Hval.
Qed.

(** Without a generator of session ids no session id is ever set. *)
Lemma reachable_stateless w :
  reachable w -> sessionIdGenerator (this w) = None ->
  stateless_mode (this w).
Proof.
  induction 1 as [options|w a Hw IH]; intros Hg.
  - split; [exact Hg|reflexivity].
  - apply stateless_perform. apply IH.
    rewrite <- Hg. symmetry. apply generator_perform. reflexivity.
Qed.

(** A POST that is answered without an error leaves the session
    settled. *)
Lemma post_settles request bodyText authInfo uuid w reply w1 :
  reachable w ->
  handlePostRequest request bodyText authInfo uuid w = (Ok reply, w1) ->
  accepted reply ->
  session_settled (this w1).
Proof.
  intros Hreach E Hacc.
  destruct (post_accepted _ _ _ _ _ _ _ E Hacc)
    as (messages & w0 & Hp & Hearly & Hd).
  destruct (sessionIdGenerator (this w)) as [g|] eqn:Hg.
  - right. destruct (existsb isInitializeRequest messages) eqn:Hi.
    + exact (initialize_post_establishes _ _ _ _ _ _ _ _ _
               Hg Hp Hi E Hacc).
    + rewrite validateSession_verdict in Hearly.
      inversion Hearly as [[Hv Hw0]]. subst w0.
      assert (Hs : exists s, session_established s (this w)).
      { revert Hv. unfold session_rules. rewrite Hg.
        destruct (_initialized (this w)) eqn:Hinit; [|discriminate].
        simpl.
        destruct (Headers_get "mcp-session-id" (req_headers request))
          as [[|ch value]|]; try discriminate.
        unfold same_session.
        destruct (sessionId (this w)) as [s|] eqn:Hs; [|discriminate].
        intros _. exists s. split; assumption. }
      destruct Hs as [s Hs]. exists s.
      pose proof (dispatch_keeps_session s messages authInfo uuid w Hs)
        as Hk.
      rewrite Hd in Hk. exact Hk.
  - left. pose proof (reachable_stateless w Hreach Hg) as Hs.
    assert (Hs0 : stateless_mode (this w0)).
    { destruct (existsb isInitializeRequest messages).
      - destruct (stateless_initialize messages w Hs) as [Hk _].
        rewrite Hearly in Hk. exact Hk.
      - rewrite validateSession_verdict in Hearly.
        inversion Hearly. subst. exact Hs. }
    destruct (stateless_dispatch messages authInfo uuid w0 Hs0) as [Hk _].
    rewrite Hd in Hk. exact Hk.
Qed.

(** The world right after a POST in JSON response mode with new,
    distinct request ids and a new stream id has the batch in
    flight. *)
Lemma awaiting_in_flight messages authInfo uuid w w0 :
  reachable w ->
  _enableJsonResponse (this w) = true ->
  same_mappings w w0 ->
  NoDup (request_ids messages) ->
  (forall id, In id (request_ids messages) ->
     JSMap.get id (_requestToStreamMapping (this w)) = None) ->
  (forall id,
     ~ In (id, uuid) (JSMap.entries (_requestToStreamMapping (this w)))) ->
  batch_in_flight uuid (List.length (promises w)) (request_ids messages) []
    (awaiting messages authInfo uuid w0).
Proof.
  intros Hreach Hj Hframe Hnd Hnew Hfresh. split; [|split].
  - apply awaiting_batch_pending; assumption.
  - apply pending_fresh_awaiting.
    apply (pending_fresh_same w); [|apply reachable_pending_fresh; exact Hreach].
    apply same_mappings_batch_state. exact Hframe.
  - destruct Hframe as (_ & Hidx & _).
    unfold own_entries, awaiting. simpl. rewrite Hidx.
    intros id streamId Hin Hid.
    destruct (In_register _ _ _ _ _ Hin) as [Hm|[_ ->]]; [|reflexivity].
    exfalso. pose proof (Hnew id Hid) as Hnone.
    apply JSMapFacts.get_None_not_In in Hnone. apply Hnone.
    unfold JSMap.keys. apply in_map_iff. exists (id, streamId). auto.
Qed.

(** C4. In JSON response mode, take a POST answered with a promise,
    whose requests have pairwise distinct ids that are not yet keys of
    the request-to-stream index, and whose stream id is new and not
    empty.  Let any actions follow (requests, calls of [send], timers,
    cancellations, callback assignments) among which there is no
    [close], no DELETE and no POST that draws the same stream id or
    carries one of these request ids, and in which [send] is called
    with exactly one response or error for each of the requests, in
    whatever order.  Then the promise, unresolved right after the POST,
    is resolved with a single response: status 200,
    [Content-Type: application/json], [Mcp-Session-Id] when a session
    id is set, and as body the one response when there is one request,
    and otherwise the array of the responses in the order of the
    requests in the payload. *)
Theorem json_batch_response :
  forall (w w1 : World) (request : Request) (bodyText : string)
         (authInfo : option AuthInfo) (uuid : string) (p : PromiseRef)
         (messages : list JSONRPCMessage) (actions : list Action),
    reachable w ->
    _enableJsonResponse (this w) = true ->
    parse_messages bodyText = Ok messages ->
    handlePostRequest request bodyText authInfo uuid w
      = (Ok (Promised p), w1) ->
    NoDup (request_ids messages) ->
    (forall id, In id (request_ids messages) ->
       JSMap.get id (_requestToStreamMapping (this w)) = None) ->
    truthy uuid = true ->
    (forall id,
       ~ In (id, uuid)
            (JSMap.entries (_requestToStreamMapping (this w)))) ->
    Forall (undisturbing uuid (request_ids messages)) actions ->
    Permutation
      (map message_id (answers_sent (request_ids messages) actions))
      (map Some (request_ids messages)) ->
    exists r : Response,
      promise_value p w1 = None
      /\ promise_value p (run actions w1) = Some r
      /\ status r = 200
      /\ resp_headers r =
           [("Content-Type", "application/json")]
           ++ session_header (this w1)
      /\ body r =
           BodyString
             (JSON_stringify
                (single_or_array
                   (in_order_of (request_ids messages)
                      (answers_sent (request_ids messages) actions))))
      /\ List.length
           (in_order_of (request_ids messages)
              (answers_sent (request_ids messages) actions))
           = List.length (request_ids messages)
      /\ request_ids messages <> []
      /\ forall id,
           In id (request_ids messages) ->
           exists m,
             In m (answers_sent (request_ids messages) actions)
             /\ message_id m = Some id
             /\ response_to id
                  (answers_sent (request_ids messages) actions)
                = Some m.
Proof.
  intros w w1 request bodyText authInfo uuid p messages actions
    Hreach Hj Hp Hpost Hnd Hnew Hu Hfresh Hund Hperm.
  pose proof (post_settles _ _ _ _ _ _ _ Hreach Hpost I) as Hsettled.
  destruct (post_promised _ _ _ _ _ _ _ _ Hp Hpost)
    as (w0 & Hframe & Hreq & Hw1).
  destruct (Hw1 Hj) as [-> ->]. clear Hw1.
  set (ids := request_ids messages) in *.
  set (responses := answers_sent ids actions) in *.
  pose proof (awaiting_in_flight messages authInfo uuid w w0
                Hreach Hj Hframe Hnd Hnew Hfresh) as Hfl.
  fold ids in Hfl.
  assert (Hne : ids <> []) by (apply request_ids_nonempty; exact Hreq).
  assert (Hcover : forall id, In id ids ->
                     exists m, In m responses /\ message_id m = Some id).
  { intros id Hid.
    assert (Hin : In (Some id) (map message_id responses)).
    { eapply Permutation_in; [apply Permutation_sym; exact Hperm|].
      apply in_map. exact Hid. }
    apply in_map_iff in Hin. destruct Hin as (m & Hm & Hin). eauto. }
  destruct (batch_run uuid (List.length (promises w)) ids Hu
              actions [] _ Hfl Hund) as [before Hval].
  - simpl. eapply Permutation_NoDup; [apply Permutation_sym; exact Hperm|].
    apply Finite.Injective_map_NoDup; [|exact Hnd].
    intros x y E. congruence.
  - exact Hcover.
  - destruct ids; [congruence|reflexivity].
  - simpl in Hval. fold responses in Hval.
    exists (batch_response
              (this (run before (awaiting messages authInfo uuid w0)))
              ids responses).
    split.
    { unfold promise_value.
      destruct Hfl as ((_ & _ & _ & _ & _ & ->) & _). reflexivity. }
    split; [exact Hval|].
    split; [reflexivity|].
    split.
    { simpl. rewrite (session_header_run before _ Hsettled). reflexivity. }
    split; [reflexivity|].
    split; [unfold in_order_of; apply length_map|].
    split; [exact Hne|].
    intros id Hid. destruct (Hcover id Hid) as (m & Hin & Hm).
    destruct (response_to_Some _ _ _ Hin Hm) as [x Hx].
    exists x. destruct (response_to_is _ _ _ Hx) as [Hxin Hxid].
    auto.
Qed.


End Properties.

(* ------------------------------------------------------------------ *)
(** ** Runs on literal inputs *)

Section Runs_on_literal_inputs.

#[local] Existing Instance Examples.imports.

Lemma js_length_replicate (n : N) (c : ascii) :
  utf16_units c = 1%nat ->
  js_length (Examples.replicate n c) = Z.of_N n.
Proof.
  intros Hc. unfold js_length, Examples.replicate.
  induction n as [|n IH] using N.peano_ind.
  - reflexivity.
  - rewrite N.iter_succ. simpl code_units. rewrite Hc.
    rewrite Nat2Z.inj_add, IH. lia.
Qed.

Lemma byte_length_replicate (n : N) (c : ascii) :
  byte_length (Examples.replicate n c) = Z.of_N n.
Proof.
  unfold byte_length, Examples.replicate.
  induction n as [|n IH] using N.peano_ind.
  - reflexivity.
  - rewrite N.iter_succ. simpl String.length.
    rewrite Nat2Z.inj_succ, IH. lia.
Qed.

(** *** The scenarios of the transport, end to end *)

(** Initialize in SSE mode: the POST is answered 200 with the session id
    and a live body; the response to the request is framed onto that
    body, which is then closed and deregistered. *)
Example initialize_over_sse :
  fst (handleRequest (Examples.post None) "initialize" None "uuid-1"
         (new_world (Examples.stateful false)))
  = Ok (Returned
          (mkResponse 200
             [("Content-Type", "text/event-stream");
              ("Cache-Control", "no-cache");
              ("Connection", "keep-alive");
              ("mcp-session-id", "session-1")]
             (BodyReadable 0%nat)))
  /\ streams (run [Do_send (Examples.result 1) None] session_world)
     = [mkSSEStream true
          [("event: message" ++ LF ++ "data: "
              ++ JSON_stringify (toJSON (Examples.result 1))
              ++ LF ++ LF)%string]]
  /\ _streamMapping (this (run [Do_send (Examples.result 1) None]
                             session_world)) = []
  /\ _requestToStreamMapping
       (this (run [Do_send (Examples.result 1) None] session_world)) = [].
Proof. vm_compute. auto. Qed.

(** Initialize in JSON response mode: the promise of the POST is
    resolved with the response to the request. *)
Example initialize_over_json :
  fst (handleRequest (Examples.post None) "initialize" None "uuid-1"
         (new_world (Examples.stateful true)))
  = Ok (Promised 0%nat)
  /\ promise_value 0%nat
       (run [Do_handleRequest (Examples.post None) "initialize" None
               "uuid-1";
             Do_send (Examples.result 1) None]
          (new_world (Examples.stateful true)))
     = Some (mkResponse 200
               [("Content-Type", "application/json");
                ("mcp-session-id", "session-1")]
               (BodyString (JSON_stringify (toJSON (Examples.result 1))))).
Proof. vm_compute. auto. Qed.

(** A POST of notifications only is answered 202 once [onmessage] has
    seen each of them, in payload order. *)
Example notifications_only :
  handleRequest (Examples.post None) "notifications" None "uuid-1"
    (run [Do_set_onmessage (Some (fun _ _ _ => Ok tt))]
       (new_world (Examples.stateless false)))
  = (Ok (Returned (mkResponse 202 [] (BodyString ""))),
     with_history
       [Call_onmessage (Examples.notification "ping") None;
        Call_onmessage (Examples.notification "boom") None;
        Call_onmessage (Examples.notification "pong") None]
       (run [Do_set_onmessage (Some (fun _ _ _ => Ok tt))]
          (new_world (Examples.stateless false)))).
Proof. vm_compute. reflexivity. Qed.

(** A message sent without a request id goes to the standalone GET
    stream; a second GET is refused with 409. *)
Example standalone_stream :
  streams (run [Do_handleRequest (Examples.get None) "" None "";
                Do_send (Examples.notification "notify") None]
             (new_world (Examples.stateless false)))
  = [mkSSEStream false
       [("event: message" ++ LF ++ "data: "
           ++ JSON_stringify (toJSON (Examples.notification "notify"))
           ++ LF ++ LF)%string]]
  /\ fst (handleRequest (Examples.get None) "" None ""
            (run [Do_handleRequest (Examples.get None) "" None ""]
               (new_world (Examples.stateless false))))
     = Ok (Returned
             (error_response 409 (-32000)
                "Conflict: Only one SSE stream is allowed per session")).
Proof. vm_compute. auto. Qed.

(** [start] may be called once. *)
Example start_twice :
  fst (start (new_world (Examples.stateless false))) = Ok tt
  /\ fst (start (run [Do_start] (new_world (Examples.stateless false))))
     = Raise (Error "Transport already started").
Proof. vm_compute. auto. Qed.

(** *** [close] *)

(** The session id and the request-to-stream index survive [close]:
    after the initialize POST of a stateful transport, [close] returns
    with the session id still set and the index still holding the
    request. *)
Lemma close_keeps_session_and_index :
  sessionId (this session_world) = Some "session-1"
  /\ fst (close session_world) = Ok tt
  /\ sessionId (this (snd (close session_world))) = Some "session-1"
  /\ _requestToStreamMapping (this (snd (close session_world)))
     = [(IdNumber 1, "uuid-1")].
Proof. vm_compute. auto. Qed.

(** *** The cancel hook *)

(** C2. Cancelling the body of a POST response leaves its stream
    registered and deregisters the standalone GET stream instead: the hook
    does not remove the entry of the stream it was called for. *)
Theorem cancel_of_request_stream_deregisters_standalone :
  _streamMapping (this two_streams_world)
    = [("_GET_stream", 0%nat); ("uuid-1", 1%nat)]
  /\ _streamMapping (this (snd (readable_cancel 1%nat two_streams_world)))
     = [("uuid-1", 1%nat)].
Proof. vm_compute. auto. Qed.

(** *** Session validation *)

(** An empty [Mcp-Session-Id] header is present and differs from the
    session id, yet the answer is the 400 of a missing header, not the
    404 of an unknown session. *)
Lemma empty_session_header_is_required :
  Headers_get "mcp-session-id" (req_headers (Examples.post (Some "")))
    = Some ""
  /\ sessionId (this session_world) = Some "session-1"
  /\ verdict_response
       (session_rules_as_specified (this session_world)
          (Examples.post (Some "")))
     = Some (error_response 404 (-32001) "Session not found")
  /\ fst (validateSession (Examples.post (Some "")) session_world)
     = Ok (Some (error_response 400 (-32000)
                   "Bad Request: Mcp-Session-Id header is required"))
  /\ fst (validateSession (Examples.post (Some "")) session_world)
     <> Ok (verdict_response
              (session_rules_as_specified (this session_world)
                 (Examples.post (Some "")))).
Proof. vm_compute. repeat split; auto. discriminate. Qed.

Lemma validateSession_rules_witness :
  validateSession (Examples.post (Some "other")) session_world
    = (Ok (Some (error_response 404 (-32001) "Session not found")),
       session_world)
  /\ handleDeleteRequest (Examples.post (Some "other")) session_world
     = (Ok (Returned (error_response 404 (-32001) "Session not found")),
        session_world)
  /\ handleGetRequest (Examples.post (Some "other")) session_world
     = (Ok (Returned (error_response 404 (-32001) "Session not found")),
        session_world)
  /\ handlePostRequest (Examples.post (Some "other")) "call" None "uuid-2"
       session_world
     = (Ok (Returned (error_response 404 (-32001) "Session not found")),
        session_world).
Proof.
  destruct (@validateSession_rules Examples.imports
              (Examples.post (Some "other")) session_world) as [Hv Hr].
  destruct (Hr (error_response 404 (-32001) "Session not found") eq_refl)
    as (Hd & Hg & Hp).
  split; [exact Hv|]. split; [exact Hd|].
  split; [apply Hg; reflexivity|].
  apply (Hp "call" None "uuid-2" [Examples.request 2 "tools/call"]);
    try reflexivity.
  unfold js_length, MAXIMUM_MESSAGE_SIZE. simpl. lia.
Defined.

(** *** The gates of a POST *)

Lemma post_gates_in_order_witness :
  (exists r,
     handlePostRequest (mkRequest "POST" []) "call" None "uuid-1"
       (new_world (Examples.stateless false))
     = (Ok (Returned r), new_world (Examples.stateless false))
     /\ status r = 406)
  /\ (exists r,
        handlePostRequest
          (mkRequest "POST"
             [("accept", "application/json, text/event-stream");
              ("content-type", "text/plain")])
          "call" None "uuid-1" (new_world (Examples.stateless false))
        = (Ok (Returned r), new_world (Examples.stateless false))
        /\ status r = 415)
  /\ (exists r,
        handlePostRequest (Examples.post None)
          (Examples.replicate (4 * 1024 * 1024 + 1) "a") None "uuid-1"
          (new_world (Examples.stateless false))
        = (Ok (Returned r), new_world (Examples.stateless false))
        /\ status r = 413)
  /\ (exists r,
        handlePostRequest (Examples.post None) "not a message" None "uuid-1"
          (new_world (Examples.stateless false))
        = (Ok (Returned r), new_world (Examples.stateless false))
        /\ jsonrpc_error r 400 (-32700) "Parse error"
             (Some (JString "ZodError: invalid JSON-RPC message"))).
Proof.
  split; [|split; [|split]].
  - destruct (@post_gates_in_order Examples.imports
                (mkRequest "POST" []) "call" None "uuid-1"
                (new_world (Examples.stateless false)))
      as (G & _).
    destruct (G eq_refl) as (r & E & S & _). exists r. auto.
  - destruct (@post_gates_in_order Examples.imports
                (mkRequest "POST"
                   [("accept", "application/json, text/event-stream");
                    ("content-type", "text/plain")])
                "call" None "uuid-1"
                (new_world (Examples.stateless false)))
      as (_ & G & _).
    destruct (G eq_refl eq_refl) as (r & E & S & _). exists r. auto.
  - destruct (@post_gates_in_order Examples.imports
                (Examples.post None)
                (Examples.replicate (4 * 1024 * 1024 + 1) "a")
                None "uuid-1" (new_world (Examples.stateless false)))
      as (_ & _ & _ & G & _).
    apply G; [reflexivity|reflexivity|].
    rewrite js_length_replicate by reflexivity. reflexivity.
  - destruct (@post_gates_in_order Examples.imports
                (Examples.post None) "not a message" None "uuid-1"
                (new_world (Examples.stateless false)))
      as (_ & _ & _ & _ & G).
    assert (Hl : js_length "not a message" <= MAXIMUM_MESSAGE_SIZE).
    { unfold js_length. simpl. discriminate. }
    assert (Hc : JSON_parse "not a message" = Raise Examples.invalid
                 \/ exists raw,
                      JSON_parse "not a message" = Ok raw
                      /\ validation_fails raw Examples.invalid).
    { right. exists (JObject [("hello", JString "world")]).
      split; reflexivity. }
    destruct (G eq_refl eq_refl Hl Examples.invalid Hc) as (r & E & S).
    exists r. split; [exact E|exact S].
Defined.

(** *** The size gate and bodies that are not ASCII *)

Lemma js_length_cons (c : ascii) (s : string) :
  js_length (String c s) = Z.of_nat (utf16_units c) + js_length s.
Proof. unfold js_length. simpl code_units. apply Nat2Z.inj_add. Qed.

Lemma byte_length_cons (c : ascii) (s : string) :
  byte_length (String c s) = 1 + byte_length s.
Proof. unfold byte_length. simpl String.length. lia. Qed.

Lemma parse_messages_after_accent (s : string) :
  parse_messages (String (ascii_of_nat 195) s)
  = Raise (Thrown "SyntaxError: Unexpected token").
Proof. vm_compute. reflexivity. Qed.

Lemma post_within_limit_that_does_not_parse
  (bodyText : string) (cause : Exn) (w : World) :
  js_length bodyText <= MAXIMUM_MESSAGE_SIZE ->
  parse_messages bodyText = Raise cause ->
  handlePostRequest (Examples.post None) bodyText None "uuid-1" w
  = (Ok (Returned (parse_error_response cause)), w).
Proof.
  intros Hl Hp.
  rewrite handlePostRequest_gated by (reflexivity || exact Hl).
  unfold try_catch. erewrite bind_raise; [reflexivity|].
  unfold lift. rewrite Hp. reflexivity.
Qed.

(** C7. The size gate does not measure bytes.  The body made of the
    letter e with an acute accent followed by 4 MiB - 1 letters a is
    4 MiB + 1 bytes long in UTF-8, and 4 MiB UTF-16 code units long,
    which is what [bodyText.length] counts; it passes the size gate,
    and the POST is answered 400 [Parse error] and not 413. *)
Theorem body_over_4MiB_in_bytes_passes_the_size_gate :
  byte_length Examples.accented_body = 4 * 1024 * 1024 + 1
  /\ js_length Examples.accented_body = MAXIMUM_MESSAGE_SIZE
  /\ handlePostRequest (Examples.post None) Examples.accented_body None
       "uuid-1" (new_world (Examples.stateless false))
     = (Ok (Returned
              (parse_error_response
                 (Thrown "SyntaxError: Unexpected token"))),
        new_world (Examples.stateless false))
  /\ status (parse_error_response (Thrown "SyntaxError: Unexpected token"))
     = 400
  /\ status (parse_error_response (Thrown "SyntaxError: Unexpected token"))
     <> 413.
Proof.
  assert (Hb : byte_length Examples.accented_body = 4 * 1024 * 1024 + 1).
  { unfold Examples.accented_body.
    rewrite !byte_length_cons, byte_length_replicate. reflexivity. }
  assert (Hj : js_length Examples.accented_body = MAXIMUM_MESSAGE_SIZE).
  { unfold Examples.accented_body.
    rewrite !js_length_cons, js_length_replicate by reflexivity.
    reflexivity. }
  split; [exact Hb|]. split; [exact Hj|]. split.
  - apply post_within_limit_that_does_not_parse.
    + rewrite Hj. apply Z.le_refl.
    + apply parse_messages_after_accent.
  - split; [reflexivity|discriminate].
Qed.

(** *** A handler that throws *)

Lemma onmessage_throw_is_parse_error_witness :
  exists r,
    handlePostRequest (Examples.post None) "notifications" None "uuid-1"
      failing_handler_world
    = (Ok (Returned r),
       with_history
         [Call_onmessage (Examples.notification "ping") None;
          Call_onmessage (Examples.notification "boom") None]
         failing_handler_world)
    /\ jsonrpc_error r 400 (-32700) "Parse error"
         (Some (JString "Error: handler failed"))
    /\ status r <> 202.
Proof.
  apply (@onmessage_throw_is_parse_error Examples.imports
           (Examples.post None) "notifications" None "uuid-1"
           failing_handler_world failing_handler_world
           [Examples.notification "ping"; Examples.notification "boom";
            Examples.notification "pong"]
           Examples.failing_onmessage
           [Examples.notification "ping"] [Examples.notification "pong"]
           (Examples.notification "boom") (Error "handler failed"));
    try reflexivity.
  - unfold js_length. simpl. discriminate.
  - intros done x rest E.
    destruct done as [|d done]; simpl in E.
    + inversion E; subst. reflexivity.
    + inversion E as [[Ed E']]. destruct done; discriminate E'.
Defined.

(** *** [send] *)

Lemma send_unknown_request_id_witness :
  send (Examples.result 7) None (new_world (Examples.stateless false))
  = (Raise (Error "No stream found for request ID: 7"),
     new_world (Examples.stateless false)).
Proof.
  apply (@send_unknown_request_id Examples.imports
           (Examples.result 7) None (IdNumber 7)
           (new_world (Examples.stateless false)));
    reflexivity.
Defined.


(** *** JSON response mode *)

(** Two requests with the same id are answered by one response, not by
    an array of two; and a request id that is still in flight keeps its
    place in the index, so the array of a later batch that uses it again
    is not in payload order.  What happens between the POST and the last
    response matters as well: after [close], or a DELETE, the promise is
    never resolved, although every request gets its response; a later
    POST that carries the id of one of the requests takes that request
    away from the batch, which is then answered by the other response
    alone; and a later POST that draws the same stream id joins its
    requests to the batch and takes over the resolver, so the promise of
    the first POST is never resolved. *)
Lemma json_batch_needs_new_distinct_ids :
  (fst (handlePostRequest (Examples.post None) "same id twice" None
          "uuid-1" (new_world (Examples.stateless true)))
   = Ok (Promised 0%nat)
   /\ parse_messages "same id twice"
      = Ok [Examples.request 1 "tools/list";
            Examples.request 1 "tools/call"]
   /\ promise_value 0%nat
        (run [Do_handleRequest (Examples.post None) "same id twice" None
                "uuid-1";
              Do_send (Examples.result 1) None]
           (new_world (Examples.stateless true)))
      = Some (mkResponse 200 [("Content-Type", "application/json")]
                (BodyString
                   (JSON_stringify (toJSON (Examples.result 1)))))
   /\ forall a b,
        JSON_stringify (toJSON (Examples.result 1))
        <> JSON_stringify (JArray [a; b]))
  /\ (fst (handlePostRequest (Examples.post None) "batch" None "uuid-2"
             (run [Do_handleRequest (Examples.post None) "call" None
                     "uuid-1"]
                (new_world (Examples.stateless true))))
      = Ok (Promised 1%nat)
      /\ parse_messages "batch"
         = Ok [Examples.request 1 "tools/list";
               Examples.request 2 "tools/call"]
      /\ promise_value 1%nat
           (run [Do_handleRequest (Examples.post None) "call" None "uuid-1";
                 Do_handleRequest (Examples.post None) "batch" None
                   "uuid-2";
                 Do_send (Examples.result 1) None;
                 Do_send (Examples.result 2) None]
              (new_world (Examples.stateless true)))
         = Some (mkResponse 200 [("Content-Type", "application/json")]
                   (BodyString
                      (JSON_stringify
                         (JArray [toJSON (Examples.result 2);
                                  toJSON (Examples.result 1)]))))
      /\ JSON_stringify
           (JArray [toJSON (Examples.result 2); toJSON (Examples.result 1)])
         <> JSON_stringify
              (JArray [toJSON (Examples.result 1);
                       toJSON (Examples.result 2)]))
  /\ promise_value 0%nat
       (run [Do_handleRequest (Examples.post None) "batch" None "uuid-1";
             Do_send (Examples.result 2) None;
             Do_close;
             Do_send (Examples.result 1) None]
          (new_world (Examples.stateless true)))
     = None
  /\ promise_value 0%nat
       (run [Do_handleRequest (Examples.post None) "batch" None "uuid-1";
             Do_send (Examples.result 2) None;
             Do_handleRequest (Examples.delete None) EmptyString None
               "uuid-2";
             Do_send (Examples.result 1) None]
          (new_world (Examples.stateless true)))
     = None
  /\ promise_value 0%nat
       (run [Do_handleRequest (Examples.post None) "batch" None "uuid-1";
             Do_handleRequest (Examples.post None) "call" None "uuid-2";
             Do_send (Examples.result 1) None;
             Do_send (Examples.result 2) None]
          (new_world (Examples.stateless true)))
     = Some (mkResponse 200 [("Content-Type", "application/json")]
               (BodyString
                  (JSON_stringify (toJSON (Examples.result 1)))))
  /\ (@parse_messages Examples.more_imports "another call"
      = Ok [Examples.request 3 "tools/call"]
      /\ promise_value 0%nat
           (@run Examples.more_imports
              [Do_handleRequest (Examples.post None) "batch" None "uuid-1";
               Do_handleRequest (Examples.post None) "another call" None
                 "uuid-1";
               Do_send (Examples.result 1) None;
               Do_send (Examples.result 2) None]
              (new_world (Examples.stateless true)))
         = None).
Proof.
  split.
  { split; [vm_compute; reflexivity|].
    split; [vm_compute; reflexivity|].
    split; [vm_compute; reflexivity|].
    intros a b E. simpl in E. discriminate E. }
  split.
  { split; [vm_compute; reflexivity|].
    split; [vm_compute; reflexivity|].
    split; [vm_compute; reflexivity|].
    vm_compute. discriminate. }
  split; [vm_compute; reflexivity|].
  split; [vm_compute; reflexivity|].
  split; [vm_compute; reflexivity|].
  split; vm_compute; reflexivity.
Qed.

Lemma json_batch_response_witness :
  exists r : Response,
    promise_value 0%nat
      (snd (handlePostRequest (Examples.post None) "batch" None "uuid-1"
              (new_world (Examples.stateless true))))
    = None
    /\ promise_value 0%nat
         (run [Do_timer;
               Do_send (Examples.result 2) None;
               Do_handleRequest (Examples.get None) EmptyString None
                 "uuid-2";
               Do_handleRequest (Examples.post None) "notifications" None
                 "uuid-3";
               Do_send (Examples.notification "progress")
                 (Some (IdNumber 1));
               Do_cancel 0%nat;
               Do_send (Examples.result 1) None;
               Do_timer]
            (snd (handlePostRequest (Examples.post None) "batch" None
                    "uuid-1" (new_world (Examples.stateless true)))))
       = Some r
    /\ status r = 200
    /\ resp_headers r = [("Content-Type", "application/json")]
    /\ body r
       = BodyString
           (JSON_stringify
              (JArray [toJSON (Examples.result 1);
                       toJSON (Examples.result 2)])).
Proof.
  destruct (@json_batch_response Examples.imports
              (new_world (Examples.stateless true))
              (snd (handlePostRequest (Examples.post None) "batch" None
                      "uuid-1" (new_world (Examples.stateless true))))
              (Examples.post None) "batch" None "uuid-1" 0%nat
              [Examples.request 1 "tools/list";
               Examples.request 2 "tools/call"]
              [Do_timer;
               Do_send (Examples.result 2) None;
               Do_handleRequest (Examples.get None) EmptyString None
                 "uuid-2";
               Do_handleRequest (Examples.post None) "notifications" None
                 "uuid-3";
               Do_send (Examples.notification "progress")
                 (Some (IdNumber 1));
               Do_cancel 0%nat;
               Do_send (Examples.result 1) None;
               Do_timer])
    as (r & Hbefore & Hafter & Hst & Hh & Hb & _).
  - apply reachable_new.
  - reflexivity.
  - vm_compute. reflexivity.
  - vm_compute. reflexivity.
  - simpl. repeat constructor; simpl; intuition congruence.
  - intros id _. reflexivity.
  - reflexivity.
  - intros id [].
  - repeat constructor; try discriminate;
      try (match goal with
           | E : req_method _ = "POST" |- _ => discriminate E
           end).
    intros id Hid. vm_compute in Hid. destruct Hid.
  - vm_compute. apply perm_swap.
  - exists r. repeat split; assumption.
Defined.

(** *** The session *)

Lemma initialize_is_unique_witness :
  exists r,
    handlePostRequest (Examples.post None) "initialize" None "uuid-2"
      (run [Do_close] session_world)
    = (Ok (Returned r), run [Do_close] session_world)
    /\ jsonrpc_error r 400 (-32600)
         "Invalid Request: Server already initialized" None
    /\ sessionId (this (run [Do_close] session_world))
       = sessionId (this session_world).
Proof.
  apply (@initialize_is_unique Examples.imports
           (new_world (Examples.stateful false)) session_world
           (fun _ => Ok "session-1")
           (Examples.post None) "initialize" None "uuid-1"
           (Returned
              (mkResponse 200
                 [("Content-Type", "text/event-stream");
                  ("Cache-Control", "no-cache");
                  ("Connection", "keep-alive");
                  ("mcp-session-id", "session-1")]
                 (BodyReadable 0%nat)))
           [Examples.request 1 "initialize"])
    with (messages2 := [Examples.request 1 "initialize"]);
    first [ reflexivity
          | unfold accepted, successful; simpl; lia
          | unfold js_length; simpl; discriminate
          | vm_compute; reflexivity ].
Defined.

(** *** Error responses *)

(** A GET that resumes from an event store whose replay fails is
    answered 500 with a plain-text body, which is no JSON-RPC error. *)
Lemma replay_failure_is_not_enveloped :
  fst (handleRequest (Examples.resume "event-1") "" None ""
         (new_world Examples.resumable))
  = Ok (Returned
          (mkResponse 500 [] (BodyString "Internal Server Error")))
  /\ ~ successful (mkResponse 500 [] (BodyString "Internal Server Error"))
  /\ ~ has_error_envelope
         (mkResponse 500 [] (BodyString "Internal Server Error")).
Proof.
  split; [vm_compute; reflexivity|]. split.
  - unfold successful. simpl. lia.
  - intros (code & message & data & E & _). simpl in E. discriminate E.
Qed.

Lemma error_responses_are_enveloped_witness :
  has_error_envelope
    (mkResponse 405
       [("Allow", "GET, POST, DELETE");
        ("Content-Type", "application/json")]
       (BodyString
          (JSON_stringify
             (error_envelope (-32000) "Method not allowed." None))))
  \/ (mkResponse 405
        [("Allow", "GET, POST, DELETE");
         ("Content-Type", "application/json")]
        (BodyString
           (JSON_stringify
              (error_envelope (-32000) "Method not allowed." None)))
      = replay_failure
      /\ "PUT" = "GET").
Proof.
  apply (@error_responses_are_enveloped Examples.imports
           (mkRequest "PUT" []) "" None ""
           (new_world (Examples.stateless false))
           (new_world (Examples.stateless false))).
  - reflexivity.
  - unfold successful. simpl. lia.
Defined.

(** *** Unsupported methods, DELETE *)

Lemma unsupported_method_is_405_witness :
  exists r,
    handleRequest (mkRequest "PUT" []) EmptyString None EmptyString
      (new_world (Examples.stateless false))
    = (Ok (Returned r), new_world (Examples.stateless false))
    /\ jsonrpc_error r 405 (-32000) "Method not allowed." None
    /\ In ("Allow", "GET, POST, DELETE") (resp_headers r).
Proof.
  apply (@unsupported_method_is_405 Examples.imports
           (mkRequest "PUT" []) EmptyString None EmptyString
           (new_world (Examples.stateless false)));
    simpl; discriminate.
Defined.

Lemma delete_closes_and_keeps_the_session_witness :
  handleDeleteRequest (Examples.delete (Some "session-1")) session_world =
    (match fst (close session_world) with
     | Ok _ => Ok (Returned (empty_response 200))
     | Raise e => Raise e
     end, snd (close session_world))
  /\ forall request' : Request,
       session_rules
         (this (snd (handleDeleteRequest
                       (Examples.delete (Some "session-1")) session_world)))
         request'
       = session_rules (this session_world) request'.
Proof.
  apply (@delete_closes_and_keeps_the_session Examples.imports
           (Examples.delete (Some "session-1")) session_world).
  vm_compute. reflexivity.
Defined.

(** *** [writeSSEEvent] and [send] *)

Lemma writeSSEEvent_outcome_witness :
  writeSSEEvent 0%nat (Examples.notification "ping") (Some "event-1")
    two_streams_world
  = (Ok tt,
     with_streams
       (enqueued 0%nat
          [sse_frame (Examples.notification "ping") (Some "event-1")]
          (streams two_streams_world))
       two_streams_world).
Proof.
  apply (proj1 (@writeSSEEvent_outcome Examples.imports 0%nat
                  (Examples.notification "ping") (Some "event-1")
                  two_streams_world)).
  exists (mkSSEStream false []). split; reflexivity.
Defined.

Lemma send_throws_only_for_unknown_request_witness :
  (this (new_world (Examples.stateless false))
   = this (new_world (Examples.stateless false))
   /\ promises (new_world (Examples.stateless false))
      = promises (new_world (Examples.stateless false))
   /\ timers (new_world (Examples.stateless false))
      = timers (new_world (Examples.stateless false)))
  /\ (_eventStore (this (new_world (Examples.stateless false))) = None ->
      onerror (this (new_world (Examples.stateless false))) = None ->
      new_world (Examples.stateless false)
      = new_world (Examples.stateless false)
      /\ exists requestId,
           effective_request_id (Examples.result 7) None = Some requestId
           /\ optional_truthy
                (JSMap.get requestId
                   (_requestToStreamMapping
                      (this (new_world (Examples.stateless false)))))
              = None
           /\ Error "No stream found for request ID: 7"
              = Error ("No stream found for request ID: "
                       ++ String_of_RequestId requestId)%string).
Proof.
  apply (@send_throws_only_for_unknown_request Examples.imports
           (Examples.result 7) None
           (new_world (Examples.stateless false))
           (new_world (Examples.stateless false))
           (Error "No stream found for request ID: 7")).
  reflexivity.
Defined.

Lemma send_on_standalone_stream_witness :
  send (Examples.notification "ping") None two_streams_world
  = (Ok tt,
     with_streams
       (enqueued 0%nat [sse_frame (Examples.notification "ping") None]
          (streams two_streams_world))
       two_streams_world).
Proof.
  apply (proj1 (proj2 (@send_on_standalone_stream Examples.imports
                         (Examples.notification "ping") two_streams_world
                         eq_refl))).
  - vm_compute. reflexivity.
  - exists (mkSSEStream false []). split; reflexivity.
  - reflexivity.
Defined.

Lemma response_is_written_then_stream_closed_witness :
  exists w',
    send (Examples.result 2) None one_answered_world = (Ok tt, w')
    /\ nth_error (streams w') 0%nat =
         Some (mkSSEStream true
                 [sse_frame (Examples.result 1) None;
                  sse_frame (Examples.result 2) None]).
Proof.
  destruct (@response_is_written_then_stream_closed Examples.imports
              (Examples.result 2) None (IdNumber 2) "uuid-1" 0%nat
              (mkSSEStream false [sse_frame (Examples.result 1) None])
              None one_answered_world one_answered_world)
    as (w' & E & _ & _ & _ & Hs);
    try (vm_compute; reflexivity).
  exists w'. split; [exact E|]. rewrite Hs. vm_compute. reflexivity.
Defined.

Lemma send_without_stream_is_silent_witness :
  exists w',
    send (Examples.result 1) None json_batch_world = (Ok tt, w')
    /\ streams w' = streams json_batch_world
    /\ history w' = history json_batch_world
    /\ timers w' = timers json_batch_world
    /\ this w' =
         if terminal (Examples.result 1)
         then recorded_this (IdNumber 1) "uuid-1" (Examples.result 1)
                (this json_batch_world)
         else this json_batch_world.
Proof.
  apply (@send_without_stream_is_silent Examples.imports
           (Examples.result 1) None (IdNumber 1) "uuid-1" json_batch_world).
  - reflexivity.
  - vm_compute. reflexivity.
  - left. vm_compute. reflexivity.
Defined.

Lemma partial_response_is_only_buffered_witness :
  this one_answered_world =
    set_requestResponseMap
      (JSMap.set (IdNumber 1) (Examples.result 1)
         (_requestResponseMap (this batch_world)))
      (this batch_world)
  /\ promises one_answered_world = promises batch_world
  /\ timers one_answered_world = timers batch_world
  /\ forall c,
       is_open c (streams batch_world) ->
       is_open c (streams one_answered_world).
Proof.
  apply (@partial_response_is_only_buffered Examples.imports
           (Examples.result 1) None (IdNumber 1) (IdNumber 2) "uuid-1"
           batch_world one_answered_world).
  - reflexivity.
  - reflexivity.
  - vm_compute. reflexivity.
  - vm_compute. right. left. reflexivity.
  - discriminate.
  - vm_compute. reflexivity.
  - vm_compute. reflexivity.
Defined.

Lemma no_answer_after_close_witness :
  promises
    (run [Do_send (Examples.result 1) None;
          Do_send (Examples.result 2) None;
          Do_timer]
       (snd (close json_batch_world)))
  = promises json_batch_world
  /\ _pendingResponses
       (this
          (run [Do_send (Examples.result 1) None;
                Do_send (Examples.result 2) None;
                Do_timer]
             (snd (close json_batch_world))))
     = [].
Proof.
  apply (@no_answer_after_close Examples.imports json_batch_world
           [Do_send (Examples.result 1) None;
            Do_send (Examples.result 2) None;
            Do_timer]).
  reflexivity.
Defined.


(** *** POSTs that are let through *)

Ltac let_through :=
  unfold post_admitted, initialize_admitted;
  repeat split;
  first [ left; reflexivity
        | unfold js_length; simpl; discriminate
        | vm_compute; reflexivity ].

Ltac quiet :=
  let Hcb := fresh "Hcb" in
  intros ? ? ? ? Hcb _; inversion Hcb; reflexivity.

Lemma notifications_are_dispatched_at_once_witness :
  handlePostRequest (Examples.post None) "notifications" None "uuid-1"
    quiet_handler_world
  = (Ok (Returned (empty_response 202)),
     with_history
       (history quiet_handler_world
        ++ delivered None
             [Examples.notification "ping"; Examples.notification "boom";
              Examples.notification "pong"]
             (this quiet_handler_world))
       quiet_handler_world).
Proof.
  apply (@notifications_are_dispatched_at_once Examples.imports
           (Examples.post None) "notifications" None "uuid-1"
           [Examples.notification "ping"; Examples.notification "boom";
            Examples.notification "pong"]
           quiet_handler_world).
  - let_through.
  - reflexivity.
  - quiet.
Defined.

Lemma post_with_requests_opens_a_stream_witness :
  handlePostRequest (Examples.post None) "batch" None "uuid-1"
    quiet_handler_world
  = (Ok (Returned
           (mkResponse 200
              ([("Content-Type", "text/event-stream");
                ("Cache-Control", "no-cache");
                ("Connection", "keep-alive")]
               ++ session_header (this quiet_handler_world))
              (BodyReadable (List.length (streams quiet_handler_world))))),
     streaming
       [Examples.request 1 "tools/list"; Examples.request 2 "tools/call"]
       None "uuid-1" quiet_handler_world).
Proof.
  apply (@post_with_requests_opens_a_stream Examples.imports
           (Examples.post None) "batch" None "uuid-1"
           [Examples.request 1 "tools/list"; Examples.request 2 "tools/call"]
           quiet_handler_world).
  - let_through.
  - reflexivity.
  - reflexivity.
Defined.

Lemma dispatch_of_requests_is_deferred_witness :
  exists reply w1,
    handlePostRequest (Examples.post None) "batch" None "uuid-1"
      quiet_handler_world
    = (Ok reply, w1)
    /\ history w1 = history quiet_handler_world
    /\ timers w1 =
         timers quiet_handler_world
         ++ [mkTask [Examples.request 1 "tools/list";
                     Examples.request 2 "tools/call"] None]
    /\ (timers quiet_handler_world = [] ->
        onmessage_returns None
          [Examples.request 1 "tools/list"; Examples.request 2 "tools/call"]
          quiet_handler_world ->
        run_timer w1 =
          (Ok tt,
           with_history
             (history quiet_handler_world
              ++ delivered None
                   [Examples.request 1 "tools/list";
                    Examples.request 2 "tools/call"]
                   (this quiet_handler_world))
             (with_timers [] w1))).
Proof.
  apply (@dispatch_of_requests_is_deferred Examples.imports
           (Examples.post None) "batch" None "uuid-1"
           [Examples.request 1 "tools/list"; Examples.request 2 "tools/call"]
           quiet_handler_world).
  - let_through.
  - reflexivity.
Defined.

Lemma accepted_post_registers_its_requests_witness :
  (forall id,
     In id (request_ids [Examples.request 1 "tools/list";
                         Examples.request 2 "tools/call"]) ->
     JSMap.get id (_requestToStreamMapping (this batch_world))
     = Some "uuid-1")
  /\ (forall id,
        ~ In id (request_ids [Examples.request 1 "tools/list";
                              Examples.request 2 "tools/call"]) ->
        JSMap.get id (_requestToStreamMapping (this batch_world))
        = JSMap.get id
            (_requestToStreamMapping
               (this (new_world (Examples.stateless false)))))
  /\ (_enableJsonResponse (this (new_world (Examples.stateless false)))
      = false ->
      JSMap.get "uuid-1" (_streamMapping (this batch_world))
      = Some (List.length (streams (new_world (Examples.stateless false))))
      /\ is_open
           (List.length (streams (new_world (Examples.stateless false))))
           (streams batch_world))
  /\ (_enableJsonResponse (this (new_world (Examples.stateless false)))
      = true ->
      JSMap.get "uuid-1" (_pendingResponses (this batch_world))
      = Some (List.length (promises (new_world (Examples.stateless false))))
      /\ nth_error (promises batch_world)
           (List.length (promises (new_world (Examples.stateless false))))
         = Some None).
Proof.
  apply (@accepted_post_registers_its_requests Examples.imports
           (Examples.post None) "batch" None "uuid-1"
           (new_world (Examples.stateless false)) batch_world
           (Returned
              (mkResponse 200
                 [("Content-Type", "text/event-stream");
                  ("Cache-Control", "no-cache");
                  ("Connection", "keep-alive")]
                 (BodyReadable 0%nat)))
           [Examples.request 1 "tools/list"; Examples.request 2 "tools/call"]).
  - vm_compute. reflexivity.
  - reflexivity.
  - vm_compute. reflexivity.
  - unfold accepted, successful. simpl. lia.
Defined.

Lemma promise_only_for_post_in_json_mode_witness :
  req_method (Examples.post None) = "POST"
  /\ _enableJsonResponse (this (new_world (Examples.stateless true))) = true
  /\ (exists messages,
        parse_messages "batch" = Ok messages
        /\ existsb isJSONRPCRequest messages = true)
  /\ 0%nat = List.length (promises (new_world (Examples.stateless true)))
  /\ nth_error (promises json_batch_world) 0%nat = Some None
  /\ JSMap.get "uuid-1" (_pendingResponses (this json_batch_world))
     = Some 0%nat.
Proof.
  apply (@promise_only_for_post_in_json_mode Examples.imports
           (Examples.post None) "batch" None "uuid-1"
           (new_world (Examples.stateless true)) json_batch_world 0%nat).
  vm_compute. reflexivity.
Defined.

(** *** The initialize step *)

Lemma initialize_in_a_batch_is_refused_witness :
  exists r,
    @handlePostRequest Examples.more_imports (Examples.post None)
      "initialize and ping" None "uuid-1"
      (new_world (Examples.stateful false))
    = (Ok (Returned r), new_world (Examples.stateful false))
    /\ @jsonrpc_error Examples.more_imports r 400 (-32600)
         "Invalid Request: Only one initialization request is allowed"
         None.
Proof.
  apply (@initialize_in_a_batch_is_refused Examples.more_imports
           (Examples.post None) "initialize and ping" None "uuid-1"
           [Examples.request 1 "initialize"; Examples.notification "ping"]
           (new_world (Examples.stateful false))).
  - let_through.
  - simpl. lia.
Defined.

Lemma failing_generator_leaves_transport_uninitialized_witness :
  handlePostRequest (Examples.post None) "initialize" None "uuid-1"
    (new_world Examples.failing_generator)
  = (Ok (Returned (parse_error_response (Error "no entropy"))),
     with_history
       (history (new_world Examples.failing_generator)
        ++ [Call_sessionIdGenerator])
       (new_world Examples.failing_generator))
  /\ jsonrpc_error (parse_error_response (Error "no entropy")) 400 (-32700)
       "Parse error" (Some (JString (String_of_exn (Error "no entropy")))).
Proof.
  apply (@failing_generator_leaves_transport_uninitialized Examples.imports
           (Examples.post None) "initialize" None "uuid-1"
           [Examples.request 1 "initialize"]
           (new_world Examples.failing_generator)
           (fun _ => Raise (Error "no entropy")) (Error "no entropy")).
  - let_through.
  - simpl. lia.
  - reflexivity.
  - reflexivity.
Defined.

Lemma failing_onsessioninitialized_keeps_the_session_witness :
  handlePostRequest (Examples.post None) "initialize" None "uuid-1"
    (new_world Examples.failing_announcement)
  = (Ok (Returned (parse_error_response (Error "registry down"))),
     initialized_with "session-1" (new_world Examples.failing_announcement))
  /\ session_established "session-1"
       (this (initialized_with "session-1"
                (new_world Examples.failing_announcement)))
  /\ forall uuid',
       exists r,
         handlePostRequest (Examples.post None) "initialize" None uuid'
           (initialized_with "session-1"
              (new_world Examples.failing_announcement))
         = (Ok (Returned r),
            initialized_with "session-1"
              (new_world Examples.failing_announcement))
         /\ jsonrpc_error r 400 (-32600)
              "Invalid Request: Server already initialized" None.
Proof.
  apply (@failing_onsessioninitialized_keeps_the_session Examples.imports
           (Examples.post None) "initialize" None "uuid-1"
           [Examples.request 1 "initialize"]
           (new_world Examples.failing_announcement)
           (fun _ => Ok "session-1") "session-1"
           (fun _ _ => Raise (Error "registry down"))
           (Error "registry down")).
  - let_through.
  - simpl. lia.
  - reflexivity.
  - reflexivity.
  - reflexivity.
  - reflexivity.
  - reflexivity.
Defined.

Lemma initialize_establishes_the_generated_session_witness :
  handlePostRequest (Examples.post None) "initialize" None "uuid-1"
    (new_world (Examples.stateful false))
  = (Ok (Returned
           (mkResponse 200
              [("Content-Type", "text/event-stream");
               ("Cache-Control", "no-cache");
               ("Connection", "keep-alive");
               ("mcp-session-id", "session-1")]
              (BodyReadable 0%nat))),
     streaming [Examples.request 1 "initialize"] None "uuid-1"
       (initialized_with "session-1" (new_world (Examples.stateful false)))).
Proof.
  refine (proj2 (proj2
            (@initialize_establishes_the_generated_session Examples.imports
               (Examples.post None) "initialize" None "uuid-1"
               [Examples.request 1 "initialize"]
               (new_world (Examples.stateful false))
               (fun _ => Ok "session-1") "session-1" _ _ eq_refl eq_refl _))
            eq_refl eq_refl).
  - let_through.
  - simpl. lia.
  - intros cb Hcb. discriminate Hcb.
Defined.

Lemma empty_session_id_locks_out_every_request_witness :
  session_announcement EmptyString (this (new_world Examples.empty_generator))
  = []
  /\ forall (actions : list Action) (request' : Request),
       exists r,
         validateSession request'
           (run actions
              (snd (handlePostRequest (Examples.post None) "initialize"
                      None "uuid-1" (new_world Examples.empty_generator))))
         = (Ok (Some r),
            run actions
              (snd (handlePostRequest (Examples.post None) "initialize"
                      None "uuid-1" (new_world Examples.empty_generator))))
         /\ (status r = 400 \/ status r = 404).
Proof.
  apply (@empty_session_id_locks_out_every_request Examples.imports
           (Examples.post None) "initialize" None "uuid-1"
           [Examples.request 1 "initialize"]
           (new_world Examples.empty_generator)
           (fun _ => Ok EmptyString)).
  - let_through.
  - simpl. lia.
  - reflexivity.
  - reflexivity.
Defined.

(** *** GET *)

Ltac standalone :=
  unfold opens_standalone_stream;
  repeat split; vm_compute; reflexivity.

Lemma get_opens_the_standalone_stream_witness :
  handleGetRequest (Examples.get None) (new_world (Examples.stateless false))
  = (Ok (Returned
           (mkResponse 200
              [("Content-Type", "text/event-stream");
               ("Cache-Control", "no-cache, no-transform");
               ("Connection", "keep-alive")]
              (BodyReadable 0%nat))),
     mkWorld
       (set_streamMapping [("_GET_stream", 0%nat)]
          (this (new_world (Examples.stateless false))))
       [mkSSEStream false []] [] [] []).
Proof.
  apply (proj2 (@get_opens_the_standalone_stream Examples.imports
                  (Examples.get None)
                  (new_world (Examples.stateless false)))).
  - standalone.
  - reflexivity.
Defined.

Lemma get_conflict_follows_the_registry_witness :
  (JSMap.has _standaloneSseStreamId
     (_streamMapping (this two_streams_world)) = true ->
   exists r,
     handleGetRequest (Examples.get None) two_streams_world
     = (Ok (Returned r), two_streams_world)
     /\ jsonrpc_error r 409 (-32000)
          "Conflict: Only one SSE stream is allowed per session" None)
  /\ (JSMap.has _standaloneSseStreamId
        (_streamMapping (this two_streams_world)) = false ->
      exists r w',
        handleGetRequest (Examples.get None) two_streams_world
        = (Ok (Returned r), w')
        /\ status r = 200
        /\ body r = BodyReadable (List.length (streams two_streams_world))
        /\ JSMap.get _standaloneSseStreamId (_streamMapping (this w'))
           = Some (List.length (streams two_streams_world))
        /\ is_open (List.length (streams two_streams_world)) (streams w'))
  /\ (forall c,
        is_open c (streams two_streams_world) ->
        JSMap.has _standaloneSseStreamId
          (_streamMapping
             (this (snd (readable_cancel c two_streams_world)))) = false
        /\ exists r w',
             handleGetRequest (Examples.get None)
               (snd (readable_cancel c two_streams_world))
             = (Ok (Returned r), w')
             /\ status r = 200
             /\ body r
                = BodyReadable (List.length (streams two_streams_world))
             /\ is_open (List.length (streams two_streams_world))
                  (streams w')
             /\ forall c0,
                  c0 <> c ->
                  is_open c0 (streams two_streams_world) ->
                  is_open c0 (streams w'))
  /\ opens_standalone_stream (Examples.get None)
       (this (snd (close two_streams_world)))
  /\ JSMap.has _standaloneSseStreamId
       (_streamMapping (this (snd (close two_streams_world)))) = false.
Proof.
  apply (@get_conflict_follows_the_registry Examples.imports
           (Examples.get None) two_streams_world).
  standalone.
Defined.

Lemma resumed_get_replays_the_stored_events_witness :
  handleGetRequest (Examples.resume "event-0") (new_world Examples.replayable)
  = (Ok (Returned
           (mkResponse 200
              ([("Content-Type", "text/event-stream");
                ("Cache-Control", "no-cache, no-transform");
                ("Connection", "keep-alive")]
               ++ session_header (this (new_world Examples.replayable)))
              (BodyReadable
                 (List.length (streams (new_world Examples.replayable)))))),
     mkWorld
       (set_streamMapping
          (JSMap.set "uuid-1"
             (List.length (streams (new_world Examples.replayable)))
             (_streamMapping (this (new_world Examples.replayable))))
          (this (new_world Examples.replayable)))
       (streams (new_world Examples.replayable)
        ++ [mkSSEStream false
              (map (fun '(eventId, message) =>
                      sse_frame message (Some eventId))
                 [("event-1", Examples.notification "progress");
                  ("event-2", Examples.result 2)])])
       (promises (new_world Examples.replayable))
       (timers (new_world Examples.replayable))
       (history (new_world Examples.replayable)
        ++ [Call_replayEventsAfter "event-0"])).
Proof.
  apply (@resumed_get_replays_the_stored_events Examples.imports
           (Examples.resume "event-0") "event-0" Examples.replaying_store
           [("event-1", Examples.notification "progress");
            ("event-2", Examples.result 2)]
           "uuid-1" (new_world Examples.replayable));
    vm_compute; reflexivity.
Defined.

Lemma failed_replay_registers_nothing_witness :
  fst (handleGetRequest (Examples.resume "event-1")
         (new_world Examples.resumable))
  = match onerror (this (new_world Examples.resumable)) with
    | Some cb =>
        match cb (Error "store unavailable")
                (history (new_world Examples.resumable)
                 ++ [Call_replayEventsAfter "event-1"]) with
        | Ok _ => Ok (Returned replay_failure)
        | Raise e' => Raise e'
        end
    | None => Ok (Returned replay_failure)
    end
  /\ this (snd (handleGetRequest (Examples.resume "event-1")
                  (new_world Examples.resumable)))
     = this (new_world Examples.resumable)
  /\ history (snd (handleGetRequest (Examples.resume "event-1")
                     (new_world Examples.resumable)))
     = history (new_world Examples.resumable)
       ++ [Call_replayEventsAfter "event-1"]
       ++ calls_onerror (Error "store unavailable")
            (this (new_world Examples.resumable)).
Proof.
  apply (@failed_replay_registers_nothing Examples.imports
           (Examples.resume "event-1") "event-1" Examples.failing_store
           [] (Error "store unavailable") (new_world Examples.resumable));
    vm_compute; reflexivity.
Defined.

(** *** Invariants *)

Lemma buffered_responses_have_a_stream_witness :
  exists streamId,
    JSMap.get (IdNumber 1) (_requestToStreamMapping (this one_answered_world))
    = Some streamId.
Proof.
  apply (@buffered_responses_have_a_stream Examples.imports
           one_answered_world (IdNumber 1) (Examples.result 1)).
  - unfold one_answered_world. apply reachable_run. apply reachable_new.
  - vm_compute. reflexivity.
Defined.

Lemma stateless_transport_never_uses_a_session_witness :
  sessionId (this two_streams_world) = None
  /\ (forall request : Request,
        validateSession request two_streams_world
        = (Ok None, two_streams_world))
  /\ (forall request bodyText authInfo uuid r w',
        handleRequest request bodyText authInfo uuid two_streams_world
        = (Ok (Returned r), w') ->
        no_session_header r)
  /\ (forall message relatedRequestId p r,
        promise_value p (snd (send message relatedRequestId
                                two_streams_world))
        = Some r ->
        promise_value p two_streams_world = Some r
        \/ no_session_header r).
Proof.
  apply (@stateless_transport_never_uses_a_session Examples.imports
           (Examples.stateless false)
           [Do_handleRequest (Examples.get None) EmptyString None EmptyString;
            Do_handleRequest (Examples.post None) "call" None "uuid-1"]).
  reflexivity.
Defined.


End Runs_on_literal_inputs.
